(** * express-simple-static-blog: the parser and the in-memory blog cache

    A shallow embedding of [lib/blogParser.js] (class [BlogParser]),
    [lib/blogCache.js] (class [BlogCache]), of the search branch, the
    JSON API and [escapeXml] of [lib/blogRouter.js] and of the facade
    [index.js] (class [ExpressStaticBlog]), together with the properties
    of the written specification that concern them.

    Conventions of the embedding.
    - Text is a sequence of code units below 256 ([string], or [list ascii]
      inside the text functions); the classes [\s], [\w], [\d], [.] and
      [toLowerCase] are the JavaScript ones restricted to that range.
    - A JavaScript object is a finite map from property names to values
      ([gmap string value]); object spread is a left-biased union. The
      names every object inherits from [Object.prototype] read as absent;
      statements over arbitrary names keep them out ([inherited]).
    - Numbers are integers ([Z]); [NaN] is [None]. Integers are exact;
      statements that compare numbers of arbitrary size keep to those
      below 2^53, where doubles are exact ([safeInteger]).
    - [Date] follows the day arithmetic of ECMA-262 (section "Time Values
      and Time Range"); local time is taken to be UTC, except in
      [LocalZone], where the zone is a parameter.
    - The file system and the clock are explicit inputs ([World]);
      exceptions are explicit ([completion]). Console output is not
      recorded. *)

From stdpp Require Import gmap strings list fin_maps.
From Stdlib Require Import ZArith Lia Ascii String Sorted.

Open Scope string_scope.
Open Scope list_scope.
Open Scope Z_scope.

(** ** Code units and character classes *)

Definition code (c : ascii) : Z := Z.of_N (N_of_ascii c).

Definition inRange (lo hi : Z) (c : ascii) : bool :=
  (lo <=? code c) && (code c <=? hi).

(** [\d] *)
Definition isDigit (c : ascii) : bool := inRange 48 57 c.

(** [\w] is [[A-Za-z0-9_]] *)
Definition isWord (c : ascii) : bool :=
  inRange 65 90 c || inRange 97 122 c || isDigit c || (code c =? 95).

(** [\s], also the set removed by [String.prototype.trim]: TAB, LF, VT, FF,
    CR, SPACE and NO-BREAK SPACE. *)
Definition isSpace (c : ascii) : bool :=
  inRange 9 13 c || (code c =? 32) || (code c =? 160).

(** [.] matches everything but the line terminators LF and CR. *)
Definition isLineTerminator (c : ascii) : bool :=
  (code c =? 10) || (code c =? 13).

Definition isHyphen (c : ascii) : bool := (code c =? 45).

(** [toLowerCase] on one code unit: [A-Z], and the Latin-1 capitals
    U+00C0..U+00DE without the multiplication sign U+00D7. *)
Definition lowerChar (c : ascii) : ascii :=
  if inRange 65 90 c || (inRange 192 222 c && negb (code c =? 215))
  then ascii_of_N (N_of_ascii c + 32)
  else c.

(** ** String methods used by the sources, on code-unit sequences *)

Module Text.

Definition chars (s : string) : list ascii := list_ascii_of_string s.
Definition str (l : list ascii) : string := string_of_list_ascii l.

Definition toLowerCase (s : list ascii) : list ascii := map lowerChar s.

Fixpoint startsWith (p s : list ascii) : bool :=
  match p, s with
  | [], _ => true
  | a :: p', b :: s' => (code a =? code b) && startsWith p' s'
  | _ :: _, [] => false
  end.

(** [s.includes(k)] *)
Fixpoint includes (s k : list ascii) : bool :=
  startsWith k s ||
  match s with
  | [] => false
  | _ :: s' => includes s' k
  end.

Definition endsWith (s p : list ascii) : bool :=
  startsWith (rev p) (rev s).

Fixpoint dropSpaces (s : list ascii) : list ascii :=
  match s with
  | c :: s' => if isSpace c then dropSpaces s' else s
  | [] => []
  end.

(** [s.trim()] *)
Definition trim (s : list ascii) : list ascii :=
  rev (dropSpaces (rev (dropSpaces s))).

(** [s.replace(/[^\w\s-]/g, '')] *)
Definition stripNonWord (s : list ascii) : list ascii :=
  List.filter (fun c => isWord c || isSpace c || isHyphen c) s.

(** [s.replace(/\s+/g, '-')]: every maximal run of white space becomes one
    hyphen. [inRun] tells that the previous code unit was white space. *)
Fixpoint spacesToHyphen (inRun : bool) (s : list ascii) : list ascii :=
  match s with
  | [] => []
  | c :: s' =>
      if isSpace c
      then (if inRun then spacesToHyphen true s'
            else "-"%char :: spacesToHyphen true s')
      else c :: spacesToHyphen false s'
  end.

(** [s.replace(/--+/g, '-')]: every maximal run of two or more hyphens
    becomes one hyphen (a single hyphen is rewritten to itself). *)
Fixpoint collapseHyphens (inRun : bool) (s : list ascii) : list ascii :=
  match s with
  | [] => []
  | c :: s' =>
      if isHyphen c
      then (if inRun then collapseHyphens true s'
            else c :: collapseHyphens true s')
      else c :: collapseHyphens false s'
  end.

End Text.

(** ** BlogParser.generateSlug *)

Definition generateSlug (title : string) : string :=
  Text.str
    (Text.trim
       (Text.collapseHyphens false
          (Text.spacesToHyphen false
             (Text.stripNonWord
                (Text.toLowerCase (Text.chars title)))))).

(** ** Time values (ECMA-262, "Time Values and Time Range") *)

Module JSDate.

Definition msPerDay : Z := 86400000.

Definition Day (t : Z) : Z := t / msPerDay.

Definition DaysInYear (y : Z) : Z :=
  if negb (y mod 4 =? 0) then 365
  else if negb (y mod 100 =? 0) then 366
  else if negb (y mod 400 =? 0) then 365
  else 366.

Definition DayFromYear (y : Z) : Z :=
  365 * (y - 1970) + (y - 1969) / 4 - (y - 1901) / 100 + (y - 1601) / 400.

(** The largest [y] with [DayFromYear y <= d]: the estimate from the mean
    length of a year is off by at most one. *)
Definition YearFromDay (d : Z) : Z :=
  let y := 1970 + (400 * d) / 146097 in
  if d <? DayFromYear y then y - 1
  else if DayFromYear (y + 1) <=? d then y + 1
  else y.

Definition InLeapYear (y : Z) : Z :=
  if DaysInYear y =? 366 then 1 else 0.

(** Day within the year of the first day of month [m] (0 = January). *)
Definition monthStart (y m : Z) : Z :=
  let L := InLeapYear y in
  if m =? 0 then 0 else if m =? 1 then 31
  else if m =? 2 then 59 + L else if m =? 3 then 90 + L
  else if m =? 4 then 120 + L else if m =? 5 then 151 + L
  else if m =? 6 then 181 + L else if m =? 7 then 212 + L
  else if m =? 8 then 243 + L else if m =? 9 then 273 + L
  else if m =? 10 then 304 + L else 334 + L.

Definition DaysInMonth (y m : Z) : Z :=
  if m =? 1 then 28 + InLeapYear y
  else if (m =? 3) || (m =? 5) || (m =? 8) || (m =? 10) then 30
  else 31.

Definition YearFromTime (t : Z) : Z := YearFromDay (Day t).

Definition DayWithinYear (t : Z) : Z := Day t - DayFromYear (YearFromTime t).

Definition MonthFromTime (t : Z) : Z :=
  let k := DayWithinYear t in
  let L := InLeapYear (YearFromTime t) in
  if k <? 31 then 0 else if k <? 59 + L then 1
  else if k <? 90 + L then 2 else if k <? 120 + L then 3
  else if k <? 151 + L then 4 else if k <? 181 + L then 5
  else if k <? 212 + L then 6 else if k <? 243 + L then 7
  else if k <? 273 + L then 8 else if k <? 304 + L then 9
  else if k <? 334 + L then 10 else 11.

Definition DateFromTime (t : Z) : Z :=
  DayWithinYear t - monthStart (YearFromTime t) (MonthFromTime t) + 1.

(** [MakeDay(year, month, date)]: months outside 0..11 carry into the
    year, days outside the month carry into the neighbouring months. *)
Definition MakeDay (year month date : Z) : Z :=
  let ym := year + month / 12 in
  let mn := month mod 12 in
  DayFromYear ym + monthStart ym mn + date - 1.

(** [new Date(year, monthIndex, day)]: a year in 0..99 denotes 1900 + year;
    the result is the time value of local midnight. *)
Definition fromComponents (year month date : Z) : Z :=
  let yr := if (0 <=? year) && (year <=? 99) then 1900 + year else year in
  MakeDay yr month date * msPerDay.

(** A calendar date: a month 0..11 and a day of that month. *)
Definition realDate (y m d : Z) : Prop :=
  0 ≤ m ≤ 11 ∧ 1 ≤ d ≤ DaysInMonth y m.

Definition getFullYear (t : Z) : Z := YearFromTime t.
Definition getMonth (t : Z) : Z := MonthFromTime t.
Definition getDate (t : Z) : Z := DateFromTime t.

End JSDate.

(** ** Numerals and the date pattern *)

Definition digitValue (c : ascii) : Z := code c - 48.

Fixpoint readDigits (acc : Z) (s : list ascii) : Z :=
  match s with
  | c :: s' => if isDigit c then readDigits (10 * acc + digitValue c) s' else acc
  | [] => acc
  end.

(** [parseInt(s, 10)] on a string: leading white space, an optional sign,
    then the longest run of digits; [None] is [NaN]. The value is exact
    (JavaScript rounds numerals beyond 2^53). *)
Definition parseIntChars (s : list ascii) : option Z :=
  let s1 := Text.dropSpaces s in
  let '(sign, s2) :=
    match s1 with
    | c :: r => if code c =? 45 then (-1, r)
                else if code c =? 43 then (1, r) else (1, s1)
    | [] => (1, s1)
    end in
  match s2 with
  | c :: _ => if isDigit c then Some (sign * readDigits 0 s2) else None
  | [] => None
  end.

Definition parseIntStr (s : string) : option Z := parseIntChars (Text.chars s).

(** [s.match(/^(\d{4})-(\d{2})-(\d{2})$/)]: the three groups. *)
Definition matchDatePattern (s : list ascii)
  : option (list ascii * list ascii * list ascii) :=
  match s with
  | [y1; y2; y3; y4; h1; m1; m2; h2; d1; d2] =>
      if isDigit y1 && isDigit y2 && isDigit y3 && isDigit y4 && isHyphen h1
         && isDigit m1 && isDigit m2 && isHyphen h2 && isDigit d1 && isDigit d2
      then Some ([y1; y2; y3; y4], [m1; m2], [d1; d2])
      else None
  | _ => None
  end.

(** The numbers [parseInt] reads from the three groups of the pattern. *)
Definition dateComponents (s : string) : option (Z * Z * Z) :=
  match matchDatePattern (Text.chars s) with
  | Some (g1, g2, g3) =>
      match parseIntChars g1, parseIntChars g2, parseIntChars g3 with
      | Some year, Some month, Some day => Some (year, month, day)
      | _, _, _ => None
      end
  | None => None
  end.

(** ** Values and objects *)

(** The values a blog record holds. *)
Inductive value : Type :=
| VUndefined
| VString (s : string).

#[global] Instance value_eq_dec : EqDecision value.
Proof. solve_decision. Defined.

(** A blog record is an object. *)
Abbreviation blog := (gmap string value).

(** [o.k] and [o[k]]; an absent property reads as [undefined]. *)
Definition get (o : blog) (k : string) : value := default VUndefined (o !! k).

(** Truthiness of a record value: [undefined] and [''] are falsy. *)
Definition truthy (v : value) : bool :=
  match v with
  | VUndefined => false
  | VString s => negb (String.eqb s "")
  end.

(** [parseInt(v, 10)] on a record value ([undefined] reads as the text
    "undefined", which has no digits). *)
Definition parseIntValue (v : value) : option Z :=
  match v with
  | VUndefined => None
  | VString s => parseIntStr s
  end.

(** [a === b] on two results of [parseInt]: [NaN] equals nothing. *)
Definition numEq (a b : option Z) : bool :=
  match a, b with
  | Some x, Some y => x =? y
  | _, _ => false
  end.

(** ** BlogParser.isValidDate *)

Definition isValidDate (dateString : value) : bool :=
  match dateString with
  | VUndefined => false
  | VString s =>
      if String.eqb s "" then false
      else
        match matchDatePattern (Text.chars s) with
        | None => false
        | Some (g1, g2, g3) =>
            match parseIntChars g1, parseIntChars g2, parseIntChars g3 with
            | Some year, Some month, Some day =>
                let testDate := JSDate.fromComponents year (month - 1) day in
                (JSDate.getFullYear testDate =? year)
                && (JSDate.getMonth testDate =? month - 1)
                && (JSDate.getDate testDate =? day)
            | _, _, _ => false
            end
        end
  end.

(** ** The regular expressions of the parser

    Each pattern is written out as the matcher that the JavaScript
    backtracking semantics gives it: greedy [\s*] and [\w+], lazy [.+?]. *)

Module Pattern.
Import Text.

Definition LF : ascii := ascii_of_N 10.

Definition lit (s : string) : list ascii := chars s.

(** First position, from the left, at which [matchAt] succeeds. *)
Fixpoint search {R : Type} (matchAt : list ascii → option R)
    (s : list ascii) : option R :=
  match matchAt s with
  | Some r => Some r
  | None =>
      match s with
      | [] => None
      | _ :: s' => search matchAt s'
      end
  end.

(** [(.+?)] followed by [close]: the shortest non-empty run of code
    units other than line terminators after which [close] matches.
    Yields the group and what [close] leaves. *)
Fixpoint lazyGroup (close : list ascii → option (list ascii))
    (s : list ascii) : option (list ascii * list ascii) :=
  match s with
  | [] => None
  | c :: r =>
      if isLineTerminator c then None
      else
        match close r with
        | Some rest => Some ([c], rest)
        | None =>
            match lazyGroup close r with
            | Some (g, rest) => Some (c :: g, rest)
            | None => None
            end
        end
  end.

(** [\]\s*-->] *)
Definition closeComment (s : list ascii) : option (list ascii) :=
  match s with
  | c :: r =>
      if code c =? 93 then
        let r' := dropSpaces r in
        if startsWith (lit "-->") r' then Some (drop 3 r') else None
      else None
  | [] => None
  end.

(** [\s*(.+?)\]\s*-->]: the greedy [\s*] takes all the white space it
    can and gives it back one code unit at a time while the rest fails. *)
Fixpoint valueAndClose (s : list ascii) : option (list ascii * list ascii) :=
  match s with
  | c :: r =>
      if isSpace c then
        match valueAndClose r with
        | Some x => Some x
        | None => lazyGroup closeComment s
        end
      else lazyGroup closeComment s
  | [] => None
  end.

(** [<!--\s*\[KEY:\s*(.+?)\]\s*-->] at the head of [s], for a literal
    [KEY]: the group. *)
Definition keyedCommentAt (key : string) (s : list ascii)
  : option (list ascii) :=
  if startsWith (lit "<!--") s then
    let r := dropSpaces (drop 4 s) in
    let opening := lit ("[" +:+ key +:+ ":") in
    if startsWith opening r
    then fst <$> valueAndClose (drop (List.length opening) r)
    else None
  else None.

(** [content.match(/<!--\s*\[date:\s*(.+?)\]\s*-->/)], group 1 *)
Definition dateComment (content : list ascii) : option (list ascii) :=
  search (keyedCommentAt "date") content.

(** [content.match(/<!--\s*\[desc:\s*(.+?)\]\s*-->/)], group 1 *)
Definition descComment (content : list ascii) : option (list ascii) :=
  search (keyedCommentAt "desc") content.

(** [</title>] *)
Definition closeTitle (s : list ascii) : option (list ascii) :=
  if startsWith (lit "</title>") s then Some (drop 8 s) else None.

(** [content.match(/<title>(.+?)<\/title>/)], group 1 *)
Definition titleTag (content : list ascii) : option (list ascii) :=
  search
    (fun s => if startsWith (lit "<title>") s
              then fst <$> lazyGroup closeTitle (drop 7 s) else None)
    content.

Fixpoint takeWord (s : list ascii) : list ascii :=
  match s with
  | c :: r => if isWord c then c :: takeWord r else []
  | [] => []
  end.

(** [<!--\s*\[(\w+):\s*(.+?)\]\s*-->] at the head of [s]: both groups
    and what follows the match. *)
Definition customCommentAt (s : list ascii)
  : option (list ascii * list ascii * list ascii) :=
  if startsWith (lit "<!--") s then
    match dropSpaces (drop 4 s) with
    | c :: r =>
        if code c =? 91 then
          let key := takeWord r in
          match key, drop (List.length key) r with
          | _ :: _, c' :: r' =>
              if code c' =? 58 then
                match valueAndClose r' with
                | Some (g, rest) => Some (key, g, rest)
                | None => None
                end
              else None
          | _, _ => None
          end
        else None
    | [] => None
    end
  else None.

(** The successive results of [customMetaRegex.exec(content)] for the
    global pattern: after a match the scan resumes where it ended.
    [skip] counts the code units still covered by the last match. *)
Fixpoint customComments (skip : nat) (s : list ascii)
  : list (list ascii * list ascii) :=
  match s with
  | [] => []
  | _ :: s' =>
      match skip with
      | S k => customComments k s'
      | O =>
          match customCommentAt s with
          | Some (key, g, rest) =>
              (key, g) :: customComments (List.length s - List.length rest - 1)%nat s'
          | None => customComments 0 s'
          end
      end
  end.

(** [[\s\S]*?] followed by [\n---]: the text before the first line
    feed that three hyphens follow. *)
Fixpoint untilFence (s : list ascii) : option (list ascii) :=
  if startsWith (LF :: lit "---") s then Some []
  else
    match s with
    | [] => None
    | c :: r => cons c <$> untilFence r
    end.

(** [content.match(/^---\n([\s\S]*?)\n---/)], group 1 *)
Definition frontMatterBlock (content : list ascii) : option (list ascii) :=
  if startsWith (lit "---" ++ [LF]) content
  then untilFence (drop 4 content) else None.

(** [s.split(sep)] for a one-unit separator: always at least one piece. *)
Fixpoint split (sep : ascii) (s : list ascii) : list (list ascii) :=
  match s with
  | [] => [[]]
  | c :: r =>
      if Ascii.eqb c sep then [] :: split sep r
      else
        match split sep r with
        | p :: ps => (c :: p) :: ps
        | [] => [[c]]
        end
  end.

(** [s.indexOf(c)]; [-1] when absent. *)
Fixpoint indexOf (c : ascii) (s : list ascii) : Z :=
  match s with
  | [] => -1
  | x :: r =>
      if Ascii.eqb x c then 0
      else let i := indexOf c r in if i <? 0 then -1 else i + 1
  end.

End Pattern.

(** ** BlogParser: metadata extraction *)

(** The [metadata] object of the two extractors: optional [date], [title]
    and [desc], and the [extra] object. *)
Record Metadata : Type := mkMetadata {
  md_date : option string;
  md_title : option string;
  md_desc : option string;
  md_extra : gmap string string
}.

(** [extra[key] = v]. Assigning a string to ["__proto__"] goes to the
    accessor of [Object.prototype], which ignores it: no property is made. *)
Definition setExtra (key v : string) (extra : gmap string string)
  : gmap string string :=
  if String.eqb key "__proto__" then extra else <[key := v]> extra.

Definition trimmed (g : list ascii) : string := Text.str (Text.trim g).

(** The body of the [while] loop of [parseHtmlCommentMetadata]. *)
Definition addCustom (extra : gmap string string)
    (m : list ascii * list ascii) : gmap string string :=
  let key := Text.str (fst m) in
  if negb (String.eqb key "date") && negb (String.eqb key "desc")
  then setExtra key (trimmed (snd m)) extra
  else extra.

Definition parseHtmlCommentMetadata (content : string) : Metadata :=
  let c := Text.chars content in
  {| md_date := trimmed <$> Pattern.dateComment c;
     md_desc := trimmed <$> Pattern.descComment c;
     md_title := trimmed <$> Pattern.titleTag c;
     md_extra := foldl addCustom ∅ (Pattern.customComments 0 c) |}.

(** [!v] for an optional string: absent or empty. *)
Definition present (o : option string) : bool :=
  match o with
  | Some s => negb (String.eqb s "")
  | None => false
  end.

(** One line of the front-matter block. *)
Definition frontMatterLine (metadata : Metadata) (line : list ascii)
  : Metadata :=
  let colonIndex := Pattern.indexOf ":"%char line in
  if 0 <? colonIndex then
    let key := trimmed (take (Z.to_nat colonIndex) line) in
    let v := trimmed (drop (Z.to_nat (colonIndex + 1)) line) in
    if String.eqb key "date" then
      mkMetadata (Some v) (md_title metadata) (md_desc metadata) (md_extra metadata)
    else if String.eqb key "title" then
      mkMetadata (md_date metadata) (Some v) (md_desc metadata) (md_extra metadata)
    else if String.eqb key "description" || String.eqb key "desc" then
      mkMetadata (md_date metadata) (md_title metadata) (Some v) (md_extra metadata)
    else
      mkMetadata (md_date metadata) (md_title metadata) (md_desc metadata)
        (setExtra key v (md_extra metadata))
  else metadata.

Definition parseFrontMatterMetadata (content : string) : Metadata :=
  let c := Text.chars content in
  match Pattern.frontMatterBlock c with
  | None => parseHtmlCommentMetadata content
  | Some frontMatter =>
      let lines := Pattern.split Pattern.LF frontMatter in
      let metadata := foldl frontMatterLine (mkMetadata None None None ∅) lines in
      if present (md_title metadata) then metadata
      else
        match Pattern.titleTag c with
        | Some g =>
            mkMetadata (md_date metadata) (Some (trimmed g))
              (md_desc metadata) (md_extra metadata)
        | None => metadata
        end
  end.

(** ** Exceptions, the file system and the clock *)

Inductive completion (A : Type) : Type :=
| Normal (a : A)
| Throw (e : string).
Arguments Normal {A} a.
Arguments Throw {A} e.

#[global] Instance completion_ret : MRet completion := fun A a => Normal a.

#[global] Instance completion_bind : MBind completion :=
  fun A B k c =>
    match c with
    | Normal a => k a
    | Throw e => Throw e
    end.

(** [try { c } catch (error) { handler }] *)
Definition tryCatch {A : Type} (c : completion A) (handler : string → completion A)
  : completion A :=
  match c with
  | Normal a => Normal a
  | Throw e => handler e
  end.

(** What the code reads from outside: [fs.existsSync], [fs.readdirSync],
    [fs.readFileSync(_, 'utf8')] and the clock behind [new Date()]. *)
Record World : Type := mkWorld {
  existsSync : string → bool;
  readdirSync : string → completion (list string);
  readFileSync : string → completion string;
  now : Z
}.

(** The fields of [config] that parser and cache read. [blogsDir] is the
    resolved, absolute directory. *)
Record Config : Type := mkConfig {
  blogsDir : string;
  cfg_cache : bool;
  metadataFormat : string;
  sortOrder : string
}.

(** [path.join(dir, file)] for a resolved directory and an entry name. *)
Definition pathJoin (dir file : string) : string := dir +:+ "/" +:+ file.

(** [path.basename(p)]: what follows the last separator (the paths that
    [refresh] builds do not end with one). *)
Definition basename (p : string) : string :=
  Text.str (List.last (Pattern.split "/"%char (Text.chars p)) []).

(** ** BlogParser.parseFile *)

(** [o || fallback] *)
Definition orElse (o : option string) (fallback : string) : string :=
  match o with
  | Some s => if String.eqb s "" then fallback else s
  | None => fallback
  end.

(** [this.metadataParsers[format] || this.metadataParsers['html-comment']]
    (formats naming a property inherited from [Object.prototype] are not
    modelled). *)
Definition metadataParser (format : string) : string → Metadata :=
  if String.eqb format "front-matter" then parseFrontMatterMetadata
  else parseHtmlCommentMetadata.

(** The properties written before the spread, in the order of the literal. *)
Definition coreFields (fileName filePath fileContent : string)
    (metadata : Metadata) : blog :=
  let parts :=
    if present (md_date metadata)
    then Pattern.split "-"%char (Text.chars (orElse (md_date metadata) ""))
    else [] in
  let '(year, month, day) :=
    match parts with
    | [y; m; d] =>
        (VString (Text.str y), VString (Text.str m), VString (Text.str d))
    | _ => (VUndefined, VUndefined, VUndefined)
    end in
  <["slug" := VString (generateSlug (orElse (md_title metadata) fileName))]>
  (<["day" := day]>
  (<["month" := month]>
  (<["year" := year]>
  (<["content" := VString fileContent]>
  (<["desc" := VString (orElse (md_desc metadata) "No description available")]>
  (<["title" := VString (orElse (md_title metadata) "Untitled")]>
  (<["date" := VString (orElse (md_date metadata) "No date found")]>
  (<["filePath" := VString filePath]>
  (<["fileName" := VString fileName]> ∅))))))))).

(** [{ ...core, ...metadata.extra }]: the spread properties come last and
    win. *)
Definition assemble (core : blog) (extra : gmap string string) : blog :=
  (VString <$> extra) ∪ core.

Definition parseFile (cfg : Config) (w : World) (filePath : string)
  : completion blog :=
  let fileName := basename filePath in
  fileContent ← readFileSync w filePath;
  let metadata := metadataParser (metadataFormat cfg) fileContent in
  Normal (assemble (coreFields fileName filePath fileContent metadata)
            (md_extra metadata)).

(** ** Array methods *)

Section Sort.
Context {A : Type}.
(** The comparator; [None] is [NaN], which [sort] reads as [+0]. *)
Variable compareFn : A → A → option Z.

(** [x], which stood before [y], stays before it unless the comparator
    is positive. *)
Definition staysBefore (x y : A) : bool :=
  match compareFn x y with
  | Some v => v <=? 0
  | None => true
  end.

Fixpoint insertSorted (x : A) (l : list A) : list A :=
  match l with
  | [] => [x]
  | y :: l' => if staysBefore x y then x :: l else y :: insertSorted x l'
  end.

(** [Array.prototype.sort(compareFn)]: the sort is stable (ECMAScript
    2019), so for a consistent comparator the result is the one of a
    stable insertion sort. *)
Definition sortBy (l : list A) : list A := foldr insertSorted [] l.
End Sort.

(** [l.slice(start, end)], with negative indices counting from the end. *)
Definition slice {A : Type} (l : list A) (start end_ : Z) : list A :=
  let len := Z.of_nat (List.length l) in
  let k := if start <? 0 then Z.max (len + start) 0 else Z.min start len in
  let final := if end_ <? 0 then Z.max (len + end_) 0 else Z.min end_ len in
  take (Z.to_nat (final - k)) (drop (Z.to_nat k) l).

(** ** BlogCache *)

Record BlogCache : Type := mkBlogCache {
  cache : list blog;
  lastRefresh : option Z
}.

(** [new Date(v)] for the [date] of a record: the time value, [None] for
    [NaN]. A date-only string [YYYY-MM-DD] denotes UTC midnight. Only dates
    accepted by [isValidDate] reach the comparator of [refresh]; every other
    input reads as [NaN] here. *)
Definition dateValue (v : value) : option Z :=
  match v with
  | VUndefined => None
  | VString s =>
      match matchDatePattern (Text.chars s) with
      | None => None
      | Some (g1, g2, g3) =>
          match parseIntChars g1, parseIntChars g2, parseIntChars g3 with
          | Some y, Some m, Some d =>
              if (1 <=? m) && (m <=? 12) && (1 <=? d)
                 && (d <=? JSDate.DaysInMonth y (m - 1))
              then Some (JSDate.MakeDay y (m - 1) d * JSDate.msPerDay)
              else None
          | _, _, _ => None
          end
      end
  end.

(** The comparator handed to [sort] in [refresh]. *)
Definition compareDates (cfg : Config) (a b : blog) : option Z :=
  match dateValue (get a "date"), dateValue (get b "date") with
  | Some dateA, Some dateB =>
      Some (if String.eqb (sortOrder cfg) "asc"
            then dateA - dateB else dateB - dateA)
  | _, _ => None
  end.

(** The key the comparator orders by: the time value, negated unless the
    order is ["asc"]. *)
Definition sortKey (cfg : Config) (b : blog) : Z :=
  match dateValue (get b "date") with
  | Some t => if String.eqb (sortOrder cfg) "asc" then t else - t
  | None => 0
  end.

(** [b.date === d] *)
Definition hasDate (d : string) (b : blog) : bool :=
  bool_decide (get b "date" = VString d).

Definition isHtmlFile (file : string) : bool :=
  Text.endsWith (Text.chars file) (Text.chars ".html")
  || Text.endsWith (Text.chars file) (Text.chars ".htm").

(** The callback of [map] in [refresh], with its own [try]/[catch]:
    [None] is [null]. *)
Definition parseOrNull (cfg : Config) (w : World) (file : string)
  : completion (option blog) :=
  tryCatch
    (b ← parseFile cfg w (pathJoin (blogsDir cfg) file); Normal (Some b))
    (fun _ => Normal None).

(** [map] with a callback that may throw. *)
Fixpoint mapM {A B : Type} (f : A → completion B) (l : list A)
  : completion (list B) :=
  match l with
  | [] => Normal []
  | x :: l' => y ← f x; ys ← mapM f l'; Normal (y :: ys)
  end.

(** [blog !== null && this.parser.isValidDate(blog.date)] *)
Definition keepValid (o : option blog) : option blog :=
  match o with
  | Some b => if isValidDate (get b "date") then Some b else None
  | None => None
  end.

(** The [try] block of [refresh]. *)
Definition refreshBody (cfg : Config) (w : World) (this : BlogCache)
  : completion BlogCache :=
  if negb (existsSync w (blogsDir cfg)) then
    Normal (mkBlogCache [] (lastRefresh this))
  else
    files ← readdirSync w (blogsDir cfg);
    let htmlFiles := List.filter isHtmlFile files in
    parsed ← mapM (parseOrNull cfg w) htmlFiles;
    Normal (mkBlogCache
              (sortBy (compareDates cfg) (omap keepValid parsed))
              (Some (now w))).

Definition refresh (cfg : Config) (w : World) (this : BlogCache)
  : completion BlogCache :=
  tryCatch (refreshBody cfg w this)
    (fun _ => Normal (mkBlogCache [] (lastRefresh this))).

Definition getAll (cfg : Config) (w : World) (this : BlogCache)
  : completion (list blog * BlogCache) :=
  this' ← (if negb (cfg_cache cfg) || (List.length (cache this) =? 0)%nat
           then refresh cfg w this else Normal this);
  Normal (cache this', this').

(** The arguments [getByDate] tells apart: a string, a [Date] (with its
    time value, [None] when invalid), an object with [year], [month] and
    [day], and everything else. A part of the object is [undefined], a
    string or an integer. *)
Inductive part : Type :=
| PUndefined
| PString (s : string)
| PNumber (n : Z).

Inductive dateLike : Type :=
| DString (s : string)
| DDate (time : option Z)
| DObject (year month day : part)
| DOther.

Definition partTruthy (p : part) : bool :=
  match p with
  | PUndefined => false
  | PString s => negb (String.eqb s "")
  | PNumber n => negb (n =? 0)
  end.

(** [parseInt(p, 10)]; an integer is first written in decimal. *)
Definition parseIntPart (p : part) : option Z :=
  match p with
  | PUndefined => None
  | PString s => parseIntStr s
  | PNumber n => Some n
  end.

(** The [(year, month, day)] that [getByDate] looks for; [None] where it
    returns [null] at once. *)
Definition dateTriple (blogDate : dateLike)
  : option (option Z * option Z * option Z) :=
  match blogDate with
  | DString s =>
      match matchDatePattern (Text.chars s) with
      | None => None
      | Some (g1, g2, g3) =>
          Some (parseIntChars g1, parseIntChars g2, parseIntChars g3)
      end
  | DDate None => None
  | DDate (Some t) =>
      Some (Some (JSDate.getFullYear t), Some (JSDate.getMonth t + 1),
            Some (JSDate.getDate t))
  | DObject y m d =>
      if negb (partTruthy y) || negb (partTruthy m) || negb (partTruthy d)
      then None
      else Some (parseIntPart y, parseIntPart m, parseIntPart d)
  | DOther => None
  end.

(** The predicate of [blogs.find] in [getByDate]. *)
Definition sameDate (year month day : option Z) (b : blog) : bool :=
  numEq (parseIntValue (get b "year")) year
  && numEq (parseIntValue (get b "month")) month
  && numEq (parseIntValue (get b "day")) day.

Definition getByDate (cfg : Config) (w : World) (this : BlogCache)
    (blogDate : dateLike) : completion (option blog * BlogCache) :=
  '(blogs, this') ← getAll cfg w this;
  match dateTriple blogDate with
  | None => Normal (None, this')
  | Some (year, month, day) =>
      Normal (List.find (sameDate year month day) blogs, this')
  end.

Definition getRecent (cfg : Config) (w : World) (this : BlogCache)
    (count : Z) : completion (list blog * BlogCache) :=
  '(blogs, this') ← getAll cfg w this;
  Normal (slice blogs 0 count, this').

Definition getBySlug (cfg : Config) (w : World) (this : BlogCache)
    (slug : string) : completion (option blog * BlogCache) :=
  '(blogs, this') ← getAll cfg w this;
  Normal (List.find (fun b => bool_decide (get b "slug" = VString slug)) blogs,
          this').

Definition getByYear (cfg : Config) (w : World) (this : BlogCache)
    (year : part) : completion (list blog * BlogCache) :=
  '(blogs, this') ← getAll cfg w this;
  Normal (List.filter
            (fun b => numEq (parseIntValue (get b "year")) (parseIntPart year))
            blogs, this').

Definition getByYearMonth (cfg : Config) (w : World) (this : BlogCache)
    (year month : part) : completion (list blog * BlogCache) :=
  '(blogs, this') ← getAll cfg w this;
  Normal (List.filter
            (fun b =>
               numEq (parseIntValue (get b "year")) (parseIntPart year)
               && numEq (parseIntValue (get b "month")) (parseIntPart month))
            blogs, this').

Record Pagination : Type := mkPagination {
  currentPage : Z;
  totalPages : Z;
  totalItems : Z;
  perPage : Z;
  hasNext : bool;
  hasPrev : bool;
  nextPage : option Z;
  prevPage : option Z
}.

Record Page : Type := mkPage {
  items : list blog;
  pagination : Pagination
}.

(** [Math.ceil(n / p)] for integers, [p] not 0. *)
Definition ceilDiv (n p : Z) : Z := - ((- n) / p).

(** The object [getPaginated] builds from [blogs]. *)
Definition paginate (blogs : list blog) (page perPage : Z) : Page :=
  let totalItems := Z.of_nat (List.length blogs) in
  let totalPages := ceilDiv totalItems perPage in
  let currentPage := Z.max 1 (Z.min page totalPages) in
  let startIndex := (currentPage - 1) * perPage in
  let endIndex := startIndex + perPage in
  {| items := slice blogs startIndex endIndex;
     pagination :=
       {| currentPage := currentPage;
          totalPages := totalPages;
          totalItems := totalItems;
          perPage := perPage;
          hasNext := currentPage <? totalPages;
          hasPrev := 1 <? currentPage;
          nextPage := if currentPage <? totalPages
                      then Some (currentPage + 1) else None;
          prevPage := if 1 <? currentPage
                      then Some (currentPage - 1) else None |} |}.

(** [getPaginated(page, perPage)] for integer arguments. With [perPage]
    0 the quotient is not finite; the integer model stops there ([None]). *)
Definition getPaginated (cfg : Config) (w : World) (this : BlogCache)
    (page perPage : Z) : completion (option Page * BlogCache) :=
  '(blogs, this') ← getAll cfg w this;
  Normal (if perPage =? 0 then None else Some (paginate blogs page perPage),
          this').

(** [value && value.toLowerCase().includes(lowerKeyword)] *)
Definition fieldMatches (lowerKeyword : list ascii) (v : value) : bool :=
  truthy v &&
  match v with
  | VString s =>
      Text.includes (Text.toLowerCase (Text.chars s)) lowerKeyword
  | VUndefined => false
  end.

Definition defaultSearchFields : list string := ["title"; "desc"].

(** [search(keyword, fields = ['title', 'desc'])]; [None] is an omitted
    second argument. *)
Definition search (cfg : Config) (w : World) (this : BlogCache)
    (keyword : string) (fields : option (list string))
  : completion (list blog * BlogCache) :=
  let fields := default defaultSearchFields fields in
  '(blogs, this') ← getAll cfg w this;
  let lowerKeyword := Text.toLowerCase (Text.chars keyword) in
  Normal (List.filter
            (fun b =>
               existsb (fun field => fieldMatches lowerKeyword (get b field))
                 fields)
            blogs, this').

Record Stats : Type := mkStats {
  totalPosts : Z;
  stats_lastRefresh : option Z;
  oldestPost : option value;
  newestPost : option value
}.

Definition getStats (this : BlogCache) : Stats :=
  {| totalPosts := Z.of_nat (List.length (cache this));
     stats_lastRefresh := lastRefresh this;
     oldestPost := (fun b => get b "date") <$> List.last (Some <$> cache this) None;
     newestPost := (fun b => get b "date") <$> head (cache this) |}.

(** ** blogRouter: the search branch

    [GET /] and [GET /api/posts] with a non-empty [search] query both run
    [blogSystem.cache.search(search)], with one argument. *)
Definition routeSearch (cfg : Config) (w : World) (this : BlogCache)
    (searchQuery : string) : completion (list blog * BlogCache) :=
  search cfg w this searchQuery None.

(** ** Auxiliary notions for the statements *)


(** The items of a page, [[]] when there is none. *)
Definition pageItems (c : completion (option Page * BlogCache)) : list blog :=
  match c with
  | Normal (Some pg, _) => items pg
  | _ => []
  end.

(** [v] is a text in which the lower-cased keyword occurs. *)
Definition occursIn (keyword : string) (v : value) : Prop :=
  ∃ (s : string) (pre post : list ascii),
    v = VString s
    ∧ Text.toLowerCase (Text.chars s)
      = (pre ++ Text.toLowerCase (Text.chars keyword) ++ post)%list.

(** [v] is a text in which the lower-cased keyword occurs, decided as
    [String.prototype.includes] does. *)
Definition contains (keyword : string) (v : value) : bool :=
  match v with
  | VString s =>
      Text.includes (Text.toLowerCase (Text.chars s))
        (Text.toLowerCase (Text.chars keyword))
  | VUndefined => false
  end.

(** What [generateSlug] lets through: a code unit that lower-casing
    leaves alone and that is a word character or a hyphen. *)
Definition settled (c : ascii) : Prop :=
  lowerChar c = c ∧ (isWord c = true ∨ isHyphen c = true).

(** The state a [BlogCache] is constructed in. *)
Definition newBlogCache : BlogCache := mkBlogCache [] None.

(** ** Sample directories *)

Module Sample.

Definition post (title date desc body : string) : string :=
  "<title>" +:+ title +:+ "</title><!-- [date: " +:+ date
  +:+ "] --><!-- [desc: " +:+ desc +:+ "] -->" +:+ body.

Definition config (order : string) : Config :=
  mkConfig "/srv/blogs" true "html-comment" order.

(** A directory given as a list of named files. *)
Definition directory (files : list (string * string)) : World :=
  {| existsSync := fun d => String.eqb d "/srv/blogs";
     readdirSync := fun _ => Normal (fst <$> files);
     readFileSync := fun p =>
       match List.find (fun f => String.eqb ("/srv/blogs/" +:+ fst f) p) files with
       | Some f => Normal (snd f)
       | None => Throw "ENOENT"
       end;
     now := 1755648000000 |}.

(** Three posts, one of them with a word that only its body has, a file
    that is not HTML and a post without a date. *)
Definition threePosts : World :=
  directory
    [("older.html", post "Older Blog Post" "2025-01-15" "The second one" "<p>zebra</p>");
     ("test.html", post "Test Blog Post" "2025-01-20" "The first one" "<p>text</p>");
     ("notes.txt", "not a post");
     ("oldest.htm", post "Oldest Blog Post" "2025-01-10" "The third one" "<p>text</p>");
     ("undated.html", "<title>Post Without Date</title>")].

(** Two posts of the same day. *)
Definition sameDay : World :=
  directory
    [("morning.html", post "Morning" "2025-03-01" "Early" "");
     ("evening.html", post "Evening" "2025-03-01" "Late" "")].

(** A directory that exists and cannot be listed. *)
Definition unreadable : World :=
  {| existsSync := fun _ => true;
     readdirSync := fun _ => Throw "EACCES: permission denied, scandir";
     readFileSync := fun _ => Throw "EACCES: permission denied, open";
     now := 1755648000000 |}.

(** The index a new [BlogCache] holds after its first [refresh]. *)
Definition load (cfg : Config) (w : World) : BlogCache :=
  match refresh cfg w newBlogCache with
  | Normal this => this
  | Throw _ => newBlogCache
  end.

(** An index loaded earlier, while the directory could be read. *)
Definition populated : BlogCache := load (config "desc") threePosts.

(** The two posts of the same day, as the index holds them. *)
Definition sameDayIndex : BlogCache := load (config "desc") sameDay.
Definition morning : blog := default ∅ (cache sameDayIndex !! 0%nat).
Definition evening : blog := default ∅ (cache sameDayIndex !! 1%nat).

(** A post whose comments name fields of the record. *)
Definition overriding : string :=
  "<title>Real Title</title><!-- [date: 2025-01-01] -->"
  +:+ "<!-- [title: Other Title] --><!-- [slug: x] -->".

Definition titles (blogs : list blog) : list value :=
  (fun b => get b "title") <$> blogs.

End Sample.


(** ** What one file contributes to the index *)

(** The record [refresh] keeps for one entry of the directory listing:
    none for a name that is not [.html]/[.htm], for a file that cannot be
    read and for a record whose date is not accepted. *)
Definition loadFile (cfg : Config) (w : World) (file : string) : option blog :=
  if isHtmlFile file then
    match parseFile cfg w (pathJoin (blogsDir cfg) file) with
    | Normal b => if isValidDate (get b "date") then Some b else None
    | Throw _ => None
    end
  else None.

(** [b.slug === slug] *)
Definition hasSlug (slug : string) (b : blog) : bool :=
  bool_decide (get b "slug" = VString slug).

(** The predicates of [filter] in [getByYear] and [getByYearMonth]. *)
Definition inYear (year : part) (b : blog) : bool :=
  numEq (parseIntValue (get b "year")) (parseIntPart year).

Definition inMonth (month : part) (b : blog) : bool :=
  numEq (parseIntValue (get b "month")) (parseIntPart month).


(** ** index.js: the ExpressStaticBlog facade *)

(** The options the constructor reads ([None] is an omitted option).
    [cache] and [paginate] are taken as booleans, [perPage] as an
    integer. *)
Record Options : Type := mkOptions {
  opt_blogsDir : option string;
  opt_cache : option bool;
  opt_dateFormat : option string;
  opt_metadataFormat : option string;
  opt_routePrefix : option string;
  opt_sortOrder : option string;
  opt_paginate : option bool;
  opt_perPage : option Z
}.

(** [n || d] on a number: 0 and [NaN] are falsy. *)
Definition orNumber (n : option Z) (d : Z) : Z :=
  match n with
  | Some k => if k =? 0 then d else k
  | None => d
  end.

(** The instance: [this.config] (the four entries the cache and the parser
    read are the [Config] above) and [this.cache]. *)
Record ExpressStaticBlog : Type := mkExpressStaticBlog {
  esb_config : Config;
  esb_dateFormat : string;
  esb_routePrefix : string;
  esb_paginate : bool;
  esb_perPage : Z;
  esb_cache : BlogCache
}.

Definition withCache (sys : ExpressStaticBlog) (c : BlogCache)
  : ExpressStaticBlog :=
  mkExpressStaticBlog (esb_config sys) (esb_dateFormat sys)
    (esb_routePrefix sys) (esb_paginate sys) (esb_perPage sys) c.

Section Facade.
(** [path.resolve], which depends on the working directory of the
    process. *)
Variable resolve : string → string.

Definition constructor (w : World) (options : Options)
  : completion ExpressStaticBlog :=
  let cfg :=
    mkConfig (resolve (orElse (opt_blogsDir options) "./blogs"))
      (match opt_cache options with Some false => false | _ => true end)
      (orElse (opt_metadataFormat options) "html-comment")
      (orElse (opt_sortOrder options) "desc") in
  c ← (if cfg_cache cfg then refresh cfg w newBlogCache
       else Normal newBlogCache);
  Normal (mkExpressStaticBlog cfg
            (orElse (opt_dateFormat options) "YYYY-MM-DD")
            (orElse (opt_routePrefix options) "/blogs")
            (default false (opt_paginate options))
            (orNumber (opt_perPage options) 10)
            c).
End Facade.

(** [blogSystem.getAll()] *)
Definition esb_getAll (w : World) (sys : ExpressStaticBlog)
  : completion (list blog * ExpressStaticBlog) :=
  '(blogs, c) ← getAll (esb_config sys) w (esb_cache sys);
  Normal (blogs, withCache sys c).

(** [blogSystem.getPaginated(page = 1, perPage = null)]: [None] is an
    omitted argument. *)
Definition esb_getPaginated (w : World) (sys : ExpressStaticBlog)
    (page perPage : option Z) : completion (option Page * ExpressStaticBlog) :=
  '(pg, c) ← getPaginated (esb_config sys) w (esb_cache sys)
               (default 1 page) (orNumber perPage (esb_perPage sys));
  Normal (pg, withCache sys c).

(** ** blogRouter: the JSON API and the feed *)

Definition hexValue (c : ascii) : option Z :=
  if isDigit c then Some (code c - 48)
  else if inRange 97 102 c then Some (code c - 87)
  else if inRange 65 70 c then Some (code c - 55)
  else None.

Fixpoint readHex (acc : Z) (s : list ascii) : Z :=
  match s with
  | c :: s' =>
      match hexValue c with
      | Some v => readHex (16 * acc + v) s'
      | None => acc
      end
  | [] => acc
  end.

(** [parseInt(s)] with no radix: as [parseInt(s, 10)], except that after
    the sign a prefix [0x] or [0X] announces a hexadecimal numeral. *)
Definition parseIntAuto (s : list ascii) : option Z :=
  let s1 := Text.dropSpaces s in
  let '(sign, s2) :=
    match s1 with
    | c :: r => if code c =? 45 then (-1, r)
                else if code c =? 43 then (1, r) else (1, s1)
    | [] => (1, s1)
    end in
  let decimal :=
    match s2 with
    | c :: _ => if isDigit c then Some (sign * readDigits 0 s2) else None
    | [] => None
    end in
  match s2 with
  | z :: x :: r =>
      if (code z =? 48) && ((code x =? 120) || (code x =? 88)) then
        match r with
        | c :: _ =>
            match hexValue c with
            | Some _ => Some (sign * readHex 0 r)
            | None => None
            end
        | [] => None
        end
      else decimal
  | _ => decimal
  end.

(** A query parameter: a string, or absent ([undefined]). Repeated and
    bracketed parameters, which Express reads as arrays and objects, are
    left out. *)
Definition parseIntQuery (v : option string) : option Z :=
  match v with
  | Some s => parseIntAuto (Text.chars s)
  | None => None
  end.

Definition queryTruthy (v : option string) : bool :=
  match v with
  | Some s => negb (String.eqb s "")
  | None => false
  end.

Record Query : Type := mkQuery {
  q_page : option string;
  q_per_page : option string;
  q_search : option string;
  q_year : option string;
  q_month : option string
}.

(** [const { ...publicData } = blog; return publicData;] *)
Definition sanitizeBlogForAPI (b : blog) : blog := b.

(** What [res.json] is given: the posts, or a page of them. *)
Inductive ApiBody : Type :=
| ApiList (posts : list blog)
| ApiPage (posts : list blog) (currentPage totalPages totalItems perPage : Z).

Definition queryPart (v : option string) : part :=
  match v with
  | Some s => PString s
  | None => PUndefined
  end.

(** The handler of [GET /api/posts]; a [Throw] is what [next(error)]
    receives. *)
Definition apiPosts (w : World) (sys : ExpressStaticBlog) (q : Query)
  : completion (ApiBody * ExpressStaticBlog) :=
  let page := orNumber (parseIntQuery (q_page q)) 1 in
  let perPage := orNumber (parseIntQuery (q_per_page q)) 10 in
  let search_ := orElse (q_search q) "" in
  let year := q_year q in
  let month := q_month q in
  '(blogs, c) ←
    (if negb (String.eqb search_ "") then
       search (esb_config sys) w (esb_cache sys) search_ None
     else if queryTruthy year && queryTruthy month then
       getByYearMonth (esb_config sys) w (esb_cache sys)
         (queryPart year) (queryPart month)
     else if queryTruthy year then
       getByYear (esb_config sys) w (esb_cache sys) (queryPart year)
     else
       getAll (esb_config sys) w (esb_cache sys));
  if queryTruthy (q_page q) then
    let totalItems := Z.of_nat (List.length blogs) in
    let totalPages := ceilDiv totalItems perPage in
    let currentPage := Z.max 1 (Z.min page totalPages) in
    let startIndex := (currentPage - 1) * perPage in
    let endIndex := startIndex + perPage in
    Normal (ApiPage (sanitizeBlogForAPI <$> slice blogs startIndex endIndex)
              currentPage totalPages totalItems perPage,
            withCache sys c)
  else
    Normal (ApiList (sanitizeBlogForAPI <$> blogs), withCache sys c).

Definition apiItems (body : ApiBody) : list blog :=
  match body with
  | ApiList posts => posts
  | ApiPage posts _ _ _ _ => posts
  end.

(** [s.replace(/c/g, by)] for a pattern of one literal character and a
    replacement without [$]. *)
Definition replaceChar (c : ascii) (by_ : string) (s : list ascii)
  : list ascii :=
  flat_map (fun x => if Ascii.eqb x c then Text.chars by_ else [x]) s.

Definition quotationMark : ascii := ascii_of_N 34.

(** The inner function of [generateRSSFeed], on a string. *)
Definition escapeXml (s : string) : string :=
  Text.str
    (replaceChar "'"%char "&apos;"
       (replaceChar quotationMark "&quot;"
          (replaceChar ">"%char "&gt;"
             (replaceChar "<"%char "&lt;"
                (replaceChar "&"%char "&amp;" (Text.chars s)))))).

(** The entity that stands for one character of the text. *)
Definition entity (c : ascii) : list ascii :=
  if code c =? 38 then Text.chars "&amp;"
  else if code c =? 60 then Text.chars "&lt;"
  else if code c =? 62 then Text.chars "&gt;"
  else if code c =? 34 then Text.chars "&quot;"
  else if code c =? 39 then Text.chars "&apos;"
  else [c].

(** ** Exact numbers

    [parseInt] returns a double: the integer it reads is exact when its
    magnitude is below 2^53, and so is the decimal text of a number of
    that size. The statements that compare the numbers of records and of
    lookup keys assume this of them. *)
Definition safeInteger (n : Z) : bool := (- 2 ^ 53 <? n) && (n <? 2 ^ 53).

Definition exactNumber (n : option Z) : bool :=
  match n with
  | Some k => safeInteger k
  | None => true
  end.


Definition exactDate (b : blog) : bool :=
  exactNumber (parseIntValue (get b "year"))
  && exactNumber (parseIntValue (get b "month"))
  && exactNumber (parseIntValue (get b "day")).

Definition exactPart (p : part) : bool :=
  match p with
  | PNumber n => safeInteger n
  | _ => true
  end.

(** ** The slug in one pass

    The wording of the specification: of the lower-cased title, the
    characters other than word characters, white space and hyphens are
    removed, and every run of white space and hyphens (a run goes on over
    removed characters) becomes one hyphen. *)
Fixpoint hyphenateRuns (inRun : bool) (s : list ascii) : list ascii :=
  match s with
  | [] => []
  | c :: s' =>
      if isSpace c || isHyphen c then
        if inRun then hyphenateRuns true s'
        else "-"%char :: hyphenateRuns true s'
      else if isWord c then c :: hyphenateRuns false s'
      else hyphenateRuns inRun s'
  end.

Definition slugByRuns (title : string) : string :=
  Text.str (hyphenateRuns false (Text.toLowerCase (Text.chars title))).

(** A lower-case word character: one that [generateSlug] keeps as it is. *)
Definition plainWordChar (c : ascii) : bool :=
  isWord c && negb (inRange 65 90 c).

(** ** Local time (ECMA-262, "Local Time Zone Adjustment")

    [new Date(year, month, day)] and the getters [getFullYear], [getMonth]
    and [getDate] work in the local time of the process. *)
Module LocalZone.
Section Zone.
(** [LocalTZA(t, isUTC)]: the offset of local time from UTC in
    milliseconds, at the UTC time value [t] when [isUTC] holds and
    at the local time value [t] otherwise. *)
Variable LocalTZA : Z → bool → Z.

Definition LocalTime (t : Z) : Z := t + LocalTZA t true.

Definition UTC (t : Z) : Z := t - LocalTZA t false.

(** [BlogParser.isValidDate] in the zone [LocalTZA]. *)
Definition isValidDate (dateString : value) : bool :=
  match dateString with
  | VUndefined => false
  | VString s =>
      if String.eqb s "" then false
      else
        match matchDatePattern (Text.chars s) with
        | None => false
        | Some (g1, g2, g3) =>
            match parseIntChars g1, parseIntChars g2, parseIntChars g3 with
            | Some year, Some month, Some day =>
                let testDate :=
                  UTC (JSDate.fromComponents year (month - 1) day) in
                (JSDate.getFullYear (LocalTime testDate) =? year)
                && (JSDate.getMonth (LocalTime testDate) =? month - 1)
                && (JSDate.getDate (LocalTime testDate) =? day)
            | _, _, _ => false
            end
        end
  end.
End Zone.

(** Apia at the end of 2011: UTC-10 until 30 December 10:00 UTC, UTC+14
    from then on; the local day 30 December did not take place. *)
Definition apia2011 (t : Z) (isUTC : bool) : Z :=
  if isUTC then
    if t <? 1325239200000 then - 36000000 else 50400000
  else
    if t <? 1325289600000 then - 36000000 else 50400000.
End LocalZone.

(** ** Property names every object inherits

    The names of [Object.prototype] (ECMA-262, with its Annex B): read on
    a record or on the table of parsers they give the inherited method,
    not [undefined]. *)
Definition objectPrototypeNames : list string :=
  ["constructor"; "hasOwnProperty"; "isPrototypeOf"; "propertyIsEnumerable";
   "toLocaleString"; "toString"; "valueOf"; "__proto__";
   "__defineGetter__"; "__defineSetter__"; "__lookupGetter__";
   "__lookupSetter__"].

Definition inherited (name : string) : bool :=
  bool_decide (name ∈ objectPrototypeNames).
(** * Properties *)

(** ** Day arithmetic *)

Module JSDateFacts.
Import JSDate.

Lemma DaysInYear_cases y : DaysInYear y = 365 ∨ DaysInYear y = 366.
Proof. unfold DaysInYear. repeat case_match; auto. Qed.

Lemma quot4_succ y :
  (y + 1 - 1969) / 4 = (y - 1969) / 4 + (if y mod 4 =? 0 then 1 else 0).
Proof. destruct (Z.eqb_spec (y mod 4) 0); Z.div_mod_to_equations; lia. Qed.

Lemma quot100_succ y :
  (y + 1 - 1901) / 100 = (y - 1901) / 100 + (if y mod 100 =? 0 then 1 else 0).
Proof. destruct (Z.eqb_spec (y mod 100) 0); Z.div_mod_to_equations; lia. Qed.

Lemma quot400_succ y :
  (y + 1 - 1601) / 400 = (y - 1601) / 400 + (if y mod 400 =? 0 then 1 else 0).
Proof. destruct (Z.eqb_spec (y mod 400) 0); Z.div_mod_to_equations; lia. Qed.

Lemma DayFromYear_succ y : DayFromYear (y + 1) = DayFromYear y + DaysInYear y.
Proof.
  unfold DayFromYear, DaysInYear.
  rewrite quot4_succ, quot100_succ, quot400_succ.
  assert (y mod 100 = 0 → y mod 4 = 0) by (intros; Z.div_mod_to_equations; lia).
  assert (y mod 400 = 0 → y mod 100 = 0) by (intros; Z.div_mod_to_equations; lia).
  destruct (Z.eqb_spec (y mod 4) 0), (Z.eqb_spec (y mod 100) 0),
    (Z.eqb_spec (y mod 400) 0); simpl; lia.
Qed.

Lemma DayFromYear_mono y n : 0 ≤ n → DayFromYear y + 365 * n ≤ DayFromYear (y + n).
Proof.
  intros Hn. revert n Hn. apply natlike_ind.
  - replace (y + 0) with y by lia. lia.
  - intros n Hn IH. replace (y + Z.succ n) with (y + n + 1) by lia.
    rewrite DayFromYear_succ. pose proof (DaysInYear_cases (y + n)). lia.
Qed.

Lemma DayFromYear_lt y y' : y < y' → DayFromYear y + 365 ≤ DayFromYear y'.
Proof.
  intros H. pose proof (DayFromYear_mono y (y' - y)).
  replace (y + (y' - y)) with y' in * by lia. lia.
Qed.

Lemma DayFromYear_lower y : 146097 * (y - 1970) - 600 ≤ 400 * DayFromYear y.
Proof. unfold DayFromYear. Z.div_mod_to_equations. lia. Qed.

Lemma DayFromYear_upper y : 400 * DayFromYear y ≤ 146097 * (y - 1970) + 600.
Proof. unfold DayFromYear. Z.div_mod_to_equations. lia. Qed.

Lemma YearFromDay_spec d :
  DayFromYear (YearFromDay d) ≤ d < DayFromYear (YearFromDay d + 1).
Proof.
  unfold YearFromDay. set (q := 400 * d / 146097).
  assert (146097 * q ≤ 400 * d < 146097 * (q + 1))
    by (subst q; Z.div_mod_to_equations; lia).
  destruct (Z.ltb_spec d (DayFromYear (1970 + q))).
  - replace (1970 + q - 1 + 1) with (1970 + q) by lia.
    pose proof (DayFromYear_upper (1970 + q - 1)). lia.
  - destruct (Z.leb_spec (DayFromYear (1970 + q + 1)) d).
    + pose proof (DayFromYear_lower (1970 + q + 1 + 1)). lia.
    + lia.
Qed.

Lemma YearFromDay_unique d y :
  DayFromYear y ≤ d < DayFromYear (y + 1) → YearFromDay d = y.
Proof.
  intros Hy. pose proof (YearFromDay_spec d) as Hs.
  destruct (Z.lt_trichotomy (YearFromDay d) y) as [Hlt | [Heq | Hgt]]; [|done|].
  - pose proof (DayFromYear_lt (YearFromDay d) y Hlt).
    pose proof (DayFromYear_succ (YearFromDay d)).
    pose proof (DaysInYear_cases (YearFromDay d)).
    assert (YearFromDay d + 1 ≤ y) by lia.
    pose proof (DayFromYear_mono (YearFromDay d + 1) (y - (YearFromDay d + 1))).
    replace (YearFromDay d + 1 + (y - (YearFromDay d + 1))) with y in * by lia. lia.
  - pose proof (DayFromYear_mono (y + 1) (YearFromDay d - (y + 1))).
    replace (y + 1 + (YearFromDay d - (y + 1))) with (YearFromDay d) in * by lia. lia.
Qed.

Lemma Day_of_midnight d : Day (d * msPerDay) = d.
Proof. unfold Day, msPerDay. apply Z.div_mul. lia. Qed.

Lemma InLeapYear_cases y :
  (InLeapYear y = 0 ∧ DaysInYear y = 365) ∨ (InLeapYear y = 1 ∧ DaysInYear y = 366).
Proof.
  unfold InLeapYear. pose proof (DaysInYear_cases y).
  destruct (Z.eqb_spec (DaysInYear y) 366); lia.
Qed.

Ltac zcases :=
  repeat match goal with
    | |- context [Z.eqb ?a ?b] => destruct (Z.eqb_spec a b); try lia
    | |- context [Z.ltb ?a ?b] => destruct (Z.ltb_spec a b); try lia
    | |- context [Z.leb ?a ?b] => destruct (Z.leb_spec a b); try lia
    | H : context [Z.eqb ?a ?b] |- _ => destruct (Z.eqb_spec a b); try lia
    end; simpl in *; try lia.

Lemma monthStart_bounds y m d :
  realDate y m d → 0 ≤ monthStart y m + d - 1 < DaysInYear y.
Proof.
  intros [Hm Hd]. unfold monthStart, DaysInMonth in *.
  destruct (InLeapYear_cases y) as [[HL HY] | [HL HY]];
    rewrite ?HL, ?HY in *; zcases.
Qed.

Lemma MakeDay_inrange y m d :
  0 ≤ m ≤ 11 → MakeDay y m d = DayFromYear y + monthStart y m + d - 1.
Proof.
  intros Hm. unfold MakeDay.
  rewrite (Z.div_small m 12), (Z.mod_small m 12) by lia.
  by rewrite Z.add_0_r.
Qed.

(** Reading back the components of a calendar date. *)
Lemma components_of_MakeDay y m d :
  realDate y m d →
  let t := MakeDay y m d * msPerDay in
  YearFromTime t = y ∧ MonthFromTime t = m ∧ DateFromTime t = d.
Proof.
  intros Hr t. pose proof (monthStart_bounds _ _ _ Hr) as Hb.
  destruct Hr as [Hm Hd].
  assert (Hy : YearFromTime t = y).
  { unfold YearFromTime, t. rewrite Day_of_midnight, MakeDay_inrange by done.
    apply YearFromDay_unique. rewrite DayFromYear_succ. lia. }
  assert (Hk : DayWithinYear t = monthStart y m + d - 1).
  { unfold DayWithinYear. rewrite Hy. unfold t.
    rewrite Day_of_midnight, MakeDay_inrange by done. lia. }
  assert (Hmo : MonthFromTime t = m).
  { unfold MonthFromTime. rewrite Hk, Hy. clear Hk Hy t.
    unfold monthStart, DaysInMonth in *.
    destruct (InLeapYear_cases y) as [[HL _] | [HL _]];
      rewrite ?HL in *; zcases. }
  split; [done | split; [done |]].
  unfold DateFromTime. rewrite Hk, Hy, Hmo. lia.
Qed.

(** The components of any time value form a calendar date, and
    [MakeDay] leads back to its day. *)
Lemma components_real t :
  realDate (YearFromTime t) (MonthFromTime t) (DateFromTime t)
  ∧ MakeDay (YearFromTime t) (MonthFromTime t) (DateFromTime t) = Day t.
Proof.
  pose proof (YearFromDay_spec (Day t)) as Hs.
  rewrite DayFromYear_succ in Hs. fold (YearFromTime t) in Hs.
  assert (Hk : 0 ≤ DayWithinYear t < DaysInYear (YearFromTime t))
    by (unfold DayWithinYear; lia).
  assert (Hd : Day t = DayFromYear (YearFromTime t) + DayWithinYear t)
    by (unfold DayWithinYear; lia).
  unfold realDate, DateFromTime, MonthFromTime.
  generalize dependent (DayWithinYear t). intros k Hk Hd.
  rewrite Hd. clear Hd Hs. generalize dependent (YearFromTime t). intros Y Hk.
  destruct (InLeapYear_cases Y) as [[HL HY] | [HL HY]];
    rewrite HY in Hk; rewrite HL;
    repeat match goal with
      | |- context [Z.ltb ?a ?b] => destruct (Z.ltb_spec a b); cbv iota
      end;
    rewrite MakeDay_inrange by lia;
    unfold monthStart, DaysInMonth; rewrite HL; simpl; lia.
Qed.

End JSDateFacts.

(** ** Numerals *)

Lemma code_bounds c : 0 ≤ code c < 256.
Proof.
  unfold code. pose proof (N_ascii_bounded c). lia.
Qed.

Lemma isDigit_code c : isDigit c = true ↔ 48 ≤ code c ≤ 57.
Proof. unfold isDigit, inRange. rewrite andb_true_iff, !Z.leb_le. done. Qed.

Lemma isHyphen_code c : isHyphen c = true ↔ code c = 45.
Proof. unfold isHyphen. apply Z.eqb_eq. Qed.

Lemma isDigit_not_space c : isDigit c = true → isSpace c = false.
Proof.
  rewrite isDigit_code. intros H. unfold isSpace, inRange.
  repeat match goal with
    | |- context [Z.leb ?a ?b] => destruct (Z.leb_spec a b); try lia
    | |- context [Z.eqb ?a ?b] => destruct (Z.eqb_spec a b); try lia
    end; done.
Qed.

Lemma readDigits_cons acc c s :
  isDigit c = true → readDigits acc (c :: s) = readDigits (10 * acc + digitValue c) s.
Proof. intros H. simpl. by rewrite H. Qed.

Lemma parseIntChars_digits c s :
  isDigit c = true → parseIntChars (c :: s) = Some (readDigits 0 (c :: s)).
Proof.
  intros H. unfold parseIntChars.
  cbn [Text.dropSpaces]. rewrite (isDigit_not_space c H).
  apply isDigit_code in H as Hc.
  destruct (Z.eqb_spec (code c) 45); [lia|].
  destruct (Z.eqb_spec (code c) 43); [lia|].
  rewrite H. f_equal. lia.
Qed.

(** What a match of the date pattern looks like. *)
Lemma matchDatePattern_Some s g1 g2 g3 :
  matchDatePattern s = Some (g1, g2, g3) →
  ∃ y1 y2 y3 y4 h1 m1 m2 h2 d1 d2,
    s = [y1; y2; y3; y4; h1; m1; m2; h2; d1; d2]
    ∧ g1 = [y1; y2; y3; y4] ∧ g2 = [m1; m2] ∧ g3 = [d1; d2]
    ∧ Forall (λ c, isDigit c = true) [y1; y2; y3; y4; m1; m2; d1; d2]
    ∧ code h1 = 45 ∧ code h2 = 45.
Proof.
  unfold matchDatePattern.
  do 11 (destruct s as [|? s]; try done).
  match goal with |- context [if ?c then _ else _] => destruct c eqn:E end; [|done].
  intros ?; simplify_eq.
  do 9 (apply andb_true_iff in E as [E ?]).
  eexists _, _, _, _, _, _, _, _, _, _.
  split_and!; try done; try (by apply isHyphen_code).
  by repeat constructor.
Qed.

Lemma dateComponents_Some s y m d :
  dateComponents s = Some (y, m, d) →
  ∃ y1 y2 y3 y4 h1 m1 m2 h2 d1 d2,
    Text.chars s = [y1; y2; y3; y4; h1; m1; m2; h2; d1; d2]
    ∧ Forall (λ c, 48 ≤ code c ≤ 57) [y1; y2; y3; y4; m1; m2; d1; d2]
    ∧ code h1 = 45 ∧ code h2 = 45
    ∧ y = 1000 * (code y1 - 48) + 100 * (code y2 - 48) + 10 * (code y3 - 48) + (code y4 - 48)
    ∧ m = 10 * (code m1 - 48) + (code m2 - 48)
    ∧ d = 10 * (code d1 - 48) + (code d2 - 48).
Proof.
  unfold dateComponents.
  destruct (matchDatePattern _) as [[[g1 g2] g3]|] eqn:E; [|done].
  apply matchDatePattern_Some in E
    as (y1&y2&y3&y4&h1&m1&m2&h2&d1&d2&Hs&->&->&->&Hd&Hh1&Hh2).
  pose proof Hd as Hd'.
  rewrite !Forall_cons in Hd. destruct Hd as (?&?&?&?&?&?&?&?&_).
  rewrite !parseIntChars_digits by done.
  rewrite !readDigits_cons by done. simpl readDigits.
  intros [= <- <- <-].
  eexists _, _, _, _, _, _, _, _, _, _. split; [done|].
  split; [|unfold digitValue; repeat split; try done; lia].
  eapply Forall_impl; [done|]. intros c. by rewrite isDigit_code.
Qed.

Lemma dateComponents_bounds s y m d :
  dateComponents s = Some (y, m, d) → 0 ≤ y ≤ 9999 ∧ 0 ≤ m ≤ 99 ∧ 0 ≤ d ≤ 99.
Proof.
  intros H. apply dateComponents_Some in H
    as (y1&y2&y3&y4&h1&m1&m2&h2&d1&d2&_&Hd&_&_&->&->&->).
  rewrite !Forall_cons in Hd. lia.
Qed.

(** ** isValidDate *)

Lemma isValidDate_components s :
  isValidDate (VString s) =
  match dateComponents s with
  | Some (year, month, day) =>
      let testDate := JSDate.fromComponents year (month - 1) day in
      (JSDate.getFullYear testDate =? year)
      && (JSDate.getMonth testDate =? month - 1)
      && (JSDate.getDate testDate =? day)
  | None => false
  end.
Proof.
  unfold isValidDate, dateComponents.
  destruct (String.eqb_spec s "") as [-> | _]; [done|].
  destruct (matchDatePattern _) as [[[g1 g2] g3]|]; [|done].
  by destruct (parseIntChars g1), (parseIntChars g2), (parseIntChars g3).
Qed.

Import JSDate JSDateFacts.

(** Carrying in [new Date(year, month - 1, day)] for the numbers the
    pattern admits never leaves the years 1899..10008. *)
Lemma fromComponents_check y m d :
  0 ≤ y ≤ 9999 → 0 ≤ m ≤ 99 → 0 ≤ d ≤ 99 →
  let t := fromComponents y (m - 1) d in
  (getFullYear t =? y) && (getMonth t =? m - 1) && (getDate t =? d) = true
  ↔ 100 ≤ y ∧ realDate y (m - 1) d.
Proof.
  intros Hy Hm Hd t. rewrite !andb_true_iff, !Z.eqb_eq. split.
  - intros [[H1 H2] H3].
    destruct (components_real t) as [Hr Hk].
    unfold getFullYear, getMonth, getDate in *. rewrite H1, H2, H3 in Hr, Hk.
    split; [|done].
    destruct (Z.le_gt_cases 100 y) as [|Hlt]; [done|exfalso].
    unfold t, fromComponents in Hk.
    rewrite Day_of_midnight in Hk.
    destruct (Z.leb_spec 0 y), (Z.leb_spec y 99); try lia. simpl in Hk.
    destruct Hr as [Hr _].
    rewrite !MakeDay_inrange in Hk by lia.
    pose proof (DayFromYear_mono y 1900 ltac:(lia)).
    replace (y + 1900) with (1900 + y) in * by lia.
    assert (monthStart y (m - 1) = monthStart (1900 + y) (m - 1) ∨
            monthStart y (m - 1) + 1 = monthStart (1900 + y) (m - 1) ∨
            monthStart y (m - 1) = monthStart (1900 + y) (m - 1) + 1); [|lia].
    unfold monthStart.
    destruct (InLeapYear_cases y) as [[-> _]|[-> _]],
      (InLeapYear_cases (1900 + y)) as [[-> _]|[-> _]];
      repeat case_match; lia.
  - intros [Hy' Hr].
    unfold t, fromComponents.
    destruct (Z.leb_spec y 99); [lia|]. rewrite andb_false_r.
    destruct (components_of_MakeDay _ _ _ Hr) as (?&?&?). done.
Qed.

(** The dates [isValidDate] accepts. *)
Lemma isValidDate_iff v :
  isValidDate v = true ↔
  ∃ s y m d, v = VString s ∧ dateComponents s = Some (y, m, d)
             ∧ 100 ≤ y ∧ realDate y (m - 1) d.
Proof.
  destruct v as [|s]; [split; [done | by intros (?&?&?&?&?&_)]|].
  rewrite isValidDate_components. split.
  - destruct (dateComponents s) as [[[y m] d]|] eqn:E; [|done].
    pose proof (dateComponents_bounds _ _ _ _ E) as (?&?&?).
    intros Hv. apply fromComponents_check in Hv; [|done..].
    by exists s, y, m, d.
  - intros (s'&y&m&d&[= <-]&E&Hy&Hr). rewrite E.
    pose proof (dateComponents_bounds _ _ _ _ E) as (?&?&?).
    apply fromComponents_check; done.
Qed.

(** ** The order of dates *)

Section DateOrder.
Import JSDate JSDateFacts.

Lemma monthStart_next y m m' :
  0 ≤ m → m < m' → m' ≤ 11 →
  monthStart y m + DaysInMonth y m ≤ monthStart y m'.
Proof.
  intros. unfold monthStart, DaysInMonth.
  destruct (InLeapYear_cases y) as [[-> _] | [-> _]];
    assert (m = 0 ∨ m = 1 ∨ m = 2 ∨ m = 3 ∨ m = 4 ∨ m = 5 ∨ m = 6 ∨ m = 7
            ∨ m = 8 ∨ m = 9 ∨ m = 10) as Hc by lia;
    repeat (destruct Hc as [-> | Hc]; [simpl; zcases |]); subst; simpl; zcases.
Qed.

(** [MakeDay] is strictly increasing along the calendar. *)
Lemma MakeDay_lt y m d y' m' d' :
  realDate y m d → realDate y' m' d' →
  y < y' ∨ (y = y' ∧ (m < m' ∨ (m = m' ∧ d < d'))) →
  MakeDay y m d < MakeDay y' m' d'.
Proof.
  intros Hr Hr' Hlt.
  pose proof (monthStart_bounds _ _ _ Hr).
  pose proof (monthStart_bounds _ _ _ Hr').
  destruct Hr as [Hm Hd], Hr' as [Hm' Hd'].
  rewrite !MakeDay_inrange by done.
  destruct Hlt as [Hy | [-> [Hmm | [-> Hdd]]]].
  - pose proof (DayFromYear_succ y).
    pose proof (DayFromYear_mono (y + 1) (y' - (y + 1)) ltac:(lia)).
    replace (y + 1 + (y' - (y + 1))) with y' in * by lia. lia.
  - pose proof (monthStart_next y' m m'). lia.
  - lia.
Qed.

Lemma ascii_compare_code a b : Ascii.compare a b = (code a ?= code b).
Proof. unfold Ascii.compare, code. by rewrite N2Z.inj_compare. Qed.

(** On two strings of the date pattern the order of strings is the
    order of the calendar. *)
Lemma date_string_lt s s' y m d y' m' d' :
  dateComponents s = Some (y, m, d) →
  dateComponents s' = Some (y', m', d') →
  String.compare s s' = Lt →
  y < y' ∨ (y = y' ∧ (m < m' ∨ (m = m' ∧ d < d'))).
Proof.
  intros H H'.
  apply dateComponents_Some in H
    as (y1&y2&y3&y4&h1&m1&m2&h2&d1&d2&Hs&Hd&Hh1&Hh2&->&->&->).
  apply dateComponents_Some in H'
    as (y1'&y2'&y3'&y4'&h1'&m1'&m2'&h2'&d1'&d2'&Hs'&Hd'&Hh1'&Hh2'&->&->&->).
  rewrite <- (string_of_list_ascii_of_string s),
    <- (string_of_list_ascii_of_string s').
  unfold Text.chars in Hs, Hs'. rewrite Hs, Hs'. clear Hs Hs'.
  rewrite !Forall_cons in Hd, Hd'.
  cbn [string_of_list_ascii String.compare]. rewrite !ascii_compare_code.
  rewrite Hh1, Hh1', Hh2, Hh2', Z.compare_refl.
  repeat match goal with
    | |- context [Z.compare ?a ?b] => destruct (Z.compare_spec a b); cbv iota
    end; intros; try done; lia.
Qed.

Lemma dateValue_valid v :
  isValidDate v = true →
  ∃ s y m d, v = VString s ∧ dateComponents s = Some (y, m, d)
             ∧ realDate y (m - 1) d
             ∧ dateValue v = Some (MakeDay y (m - 1) d * msPerDay).
Proof.
  intros (s&y&m&d&->&E&Hy&Hr)%isValidDate_iff.
  exists s, y, m, d. split_and!; try done.
  unfold dateValue. unfold dateComponents in E.
  destruct (matchDatePattern _) as [[[g1 g2] g3]|]; [|done].
  destruct (parseIntChars g1), (parseIntChars g2), (parseIntChars g3);
    try done. simplify_eq.
  destruct Hr as [Hm Hd].
  destruct (Z.leb_spec 1 m), (Z.leb_spec m 12), (Z.leb_spec 1 d),
    (Z.leb_spec d (DaysInMonth y (m - 1))); try lia. done.
Qed.

(** The time values of two accepted dates are ordered as the strings. *)
Lemma dateValue_lt s s' :
  isValidDate (VString s) = true → isValidDate (VString s') = true →
  String.compare s s' = Lt →
  ∃ t t', dateValue (VString s) = Some t ∧ dateValue (VString s') = Some t'
          ∧ t < t'.
Proof.
  intros (?&y&m&d&[= <-]&E&Hr&Hv)%dateValue_valid
         (?&y'&m'&d'&[= <-]&E'&Hr'&Hv')%dateValue_valid Hlt.
  eexists _, _. split_and!; [done..|].
  pose proof (date_string_lt _ _ _ _ _ _ _ _ E E' Hlt).
  assert (MakeDay y (m - 1) d < MakeDay y' (m' - 1) d')
    by (apply MakeDay_lt; [done..|lia]).
  unfold msPerDay. lia.
Qed.

End DateOrder.

(** ** The stable sort *)

Section SortFacts.
Context {A : Type} (compareFn : A → A → option Z).

Abbreviation ins := (insertSorted compareFn).
Abbreviation before := (staysBefore compareFn).

Lemma insertSorted_perm x l : ins x l ≡ₚ x :: l.
Proof.
  induction l as [|y l IH]; simpl; [done|].
  destruct (before x y); [done|].
  rewrite IH. apply Permutation_swap.
Qed.

Lemma sortBy_perm l : sortBy compareFn l ≡ₚ l.
Proof.
  induction l as [|x l IH]; simpl; [done|].
  by rewrite insertSorted_perm, IH.
Qed.

Lemma elem_of_sortBy x l : x ∈ sortBy compareFn l ↔ x ∈ l.
Proof. by rewrite sortBy_perm. Qed.

(** Sortedness, for a comparator that orders by a key. *)
Section Keyed.
Variable key : A → Z.

Lemma insertSorted_sorted x l :
  (∀ y, y ∈ l → before x y = true ↔ key x ≤ key y) →
  StronglySorted (λ a b, key a ≤ key b) l →
  StronglySorted (λ a b, key a ≤ key b) (ins x l).
Proof.
  intros Hx Hs. induction Hs as [|y l Hs IH Hy]; simpl.
  - repeat constructor.
  - destruct (before x y) eqn:E.
    + constructor; [by constructor|].
      apply Hx in E; [|left].
      constructor; [done|].
      eapply Forall_impl; [done|]. simpl. lia.
    + assert (key y < key x).
      { destruct (Z.lt_ge_cases (key y) (key x)); [done|].
        assert (before x y = true) by (apply Hx; [left | lia]). congruence. }
      constructor.
      * apply IH. intros z Hz. apply Hx. by right.
      * rewrite (insertSorted_perm x l). constructor; [lia | exact Hy].
Qed.

Lemma sortBy_sorted l :
  (∀ x y, x ∈ l → y ∈ l → before x y = true ↔ key x ≤ key y) →
  StronglySorted (λ a b, key a ≤ key b) (sortBy compareFn l).
Proof.
  induction l as [|x l IH]; intros Hk; simpl; [constructor|].
  apply insertSorted_sorted.
  - intros y Hy. apply (proj1 (elem_of_sortBy y l)) in Hy.
    apply Hk; [left | by right].
  - apply IH. intros a b Ha Hb. apply Hk; by right.
Qed.

Lemma StronglySorted_lookup (l : list A) i j a b :
  StronglySorted (λ a b, key a ≤ key b) l →
  l !! i = Some a → l !! j = Some b → (i < j)%nat → key a ≤ key b.
Proof.
  intros Hs. revert i j. induction Hs as [|x l Hs IH Hx]; intros i j; [done|].
  destruct i as [|i], j as [|j]; simpl; try lia.
  - intros [= <-] Hb _. rewrite Forall_forall in Hx. apply Hx.
    by eapply list_elem_of_lookup_2.
  - intros Ha Hb Hij. apply (IH i j); [done..|lia].
Qed.
End Keyed.

(** Stability: elements that the comparator does not tell apart keep
    their order. *)
Lemma insertSorted_filter (P : A → bool) x l :
  (∀ y, y ∈ l → P x = true → P y = true → before x y = true) →
  List.filter P (ins x l) = List.filter P (x :: l).
Proof.
  induction l as [|y l IH]; intros Hx; [done|].
  cbn [insertSorted]. destruct (before x y) eqn:E; [done|].
  cbn [List.filter] in *. rewrite IH by (intros z Hz; apply Hx; by right).
  destruct (P x) eqn:Ex, (P y) eqn:Ey; try done.
  rewrite Hx in E; [done | left | done..].
Qed.

Lemma sortBy_stable (P : A → bool) l :
  (∀ x y, x ∈ l → y ∈ l → P x = true → P y = true → before x y = true) →
  List.filter P (sortBy compareFn l) = List.filter P l.
Proof.
  induction l as [|x l IH]; intros H; [done|].
  cbn [sortBy foldr]. fold (sortBy compareFn l).
  rewrite insertSorted_filter.
  - cbn [List.filter]. rewrite IH; [done|].
    intros a b Ha Hb. apply H; by right.
  - intros y Hy. apply (proj1 (elem_of_sortBy y l)) in Hy.
    apply H; [left | by right].
Qed.

End SortFacts.

(** ** refresh and getAll *)

Lemma parseOrNull_normal cfg w file : ∃ o, parseOrNull cfg w file = Normal o.
Proof.
  unfold parseOrNull, tryCatch, mbind, completion_bind.
  destruct (parseFile cfg w _); eauto.
Qed.

Lemma mapM_parseOrNull cfg w files :
  ∃ parsed, mapM (parseOrNull cfg w) files = Normal parsed.
Proof.
  induction files as [|f files [parsed IH]]; simpl; [by eexists|].
  destruct (parseOrNull_normal cfg w f) as [o ->]. rewrite IH.
  by eexists.
Qed.

(** The three ways through [refresh]. *)
Lemma refresh_cases cfg w this :
  (existsSync w (blogsDir cfg) = false
   ∧ refresh cfg w this = Normal (mkBlogCache [] (lastRefresh this)))
  ∨ (∃ e, existsSync w (blogsDir cfg) = true
          ∧ readdirSync w (blogsDir cfg) = Throw e
          ∧ refresh cfg w this = Normal (mkBlogCache [] (lastRefresh this)))
  ∨ (∃ files parsed,
        existsSync w (blogsDir cfg) = true
        ∧ readdirSync w (blogsDir cfg) = Normal files
        ∧ mapM (parseOrNull cfg w) (List.filter isHtmlFile files) = Normal parsed
        ∧ refresh cfg w this =
            Normal (mkBlogCache
                      (sortBy (compareDates cfg) (omap keepValid parsed))
                      (Some (now w)))).
Proof.
  unfold refresh, refreshBody.
  destruct (existsSync w (blogsDir cfg)) eqn:Ex; simpl; [|by left].
  right. destruct (readdirSync w (blogsDir cfg)) as [files|e] eqn:Er; simpl.
  - right. destruct (mapM_parseOrNull cfg w (List.filter isHtmlFile files))
      as [parsed Hp].
    exists files, parsed. rewrite Hp. done.
  - left. by exists e.
Qed.

Lemma refresh_normal cfg w this : ∃ this', refresh cfg w this = Normal this'.
Proof.
  destruct (refresh_cases cfg w this)
    as [[_ ->] | [(e&_&_&->) | (files&parsed&_&_&_&->)]]; by eexists.
Qed.

(** Refreshing twice from the same files gives the same index. *)
Lemma refresh_idem cfg w this this' :
  refresh cfg w this = Normal this' → refresh cfg w this' = Normal this'.
Proof.
  intros H.
  destruct (refresh_cases cfg w this)
    as [[Ex H1] | [(e&Ex&Er&H1) | (files&parsed&Ex&Er&Hp&H1)]];
  destruct (refresh_cases cfg w this')
    as [[Ex' H2] | [(e'&Ex'&Er'&H2) | (files'&parsed'&Ex'&Er'&Hp'&H2)]];
  try congruence; rewrite H1 in H; rewrite H2; simplify_eq; done.
Qed.

Lemma getAll_after_refresh cfg w this this' :
  refresh cfg w this = Normal this' →
  getAll cfg w this' = Normal (cache this', this').
Proof.
  intros H. unfold getAll.
  destruct (negb (cfg_cache cfg) || _); [|done].
  by rewrite (refresh_idem _ _ _ _ H).
Qed.

Lemma getAll_normal cfg w this :
  ∃ blogs this', getAll cfg w this = Normal (blogs, this').
Proof.
  unfold getAll. destruct (negb (cfg_cache cfg) || _).
  - destruct (refresh_normal cfg w this) as [this' ->]. by eexists _, _.
  - by eexists _, _.
Qed.

Lemma elem_of_keepValid (parsed : list (option blog)) b :
  b ∈ omap keepValid parsed → isValidDate (get b "date") = true.
Proof.
  rewrite list_elem_of_omap. intros (o&_&Ho).
  destruct o as [b'|]; [|done]. simpl in Ho.
  destruct (isValidDate (get b' "date")) eqn:E; by simplify_eq.
Qed.

(** Every record of a refreshed index carries an accepted date. *)
Lemma refresh_valid cfg w this this' b :
  refresh cfg w this = Normal this' → b ∈ cache this' →
  isValidDate (get b "date") = true.
Proof.
  intros H.
  destruct (refresh_cases cfg w this)
    as [[_ H1] | [(e&_&_&H1) | (files&parsed&_&_&_&H1)]];
    rewrite H1 in H; simplify_eq; simpl; [by intros ?%elem_of_nil..|].
  rewrite elem_of_sortBy. apply elem_of_keepValid.
Qed.

Lemma compareDates_keyed cfg a b :
  isValidDate (get a "date") = true → isValidDate (get b "date") = true →
  staysBefore (compareDates cfg) a b = true ↔ sortKey cfg a ≤ sortKey cfg b.
Proof.
  intros (?&?&?&?&_&_&_&Ha)%dateValue_valid (?&?&?&?&_&_&_&Hb)%dateValue_valid.
  unfold staysBefore, compareDates, sortKey. rewrite Ha, Hb.
  destruct (String.eqb _ _); rewrite Z.leb_le; lia.
Qed.

Lemma compareDates_same_date cfg d a b :
  hasDate d a = true → hasDate d b = true →
  staysBefore (compareDates cfg) a b = true.
Proof.
  unfold hasDate. intros Ha%bool_decide_eq_true Hb%bool_decide_eq_true.
  unfold staysBefore, compareDates. rewrite Ha, Hb.
  destruct (dateValue (VString d)); [|done].
  destruct (String.eqb _ _); apply Z.leb_le; lia.
Qed.

(** C4. After [refresh] the index, which is what [getAll] then returns, is
    ordered by date. Of two records whose date strings satisfy
    [da < db], the one dated [db] comes first unless the order is "asc",
    where it comes last; and the records of one date stand in the order
    in which the directory listing gave their files. *)
Theorem refresh_sorted_by_date cfg w this this' :
  refresh cfg w this = Normal this' →
  getAll cfg w this' = Normal (cache this', this')
  ∧ (∀ i j a b da db,
        cache this' !! i = Some a → cache this' !! j = Some b →
        get a "date" = VString da → get b "date" = VString db →
        String.compare da db = Lt →
        if String.eqb (sortOrder cfg) "asc" then (i < j)%nat else (j < i)%nat)
  ∧ (∀ files parsed d,
        existsSync w (blogsDir cfg) = true →
        readdirSync w (blogsDir cfg) = Normal files →
        mapM (parseOrNull cfg w) (List.filter isHtmlFile files) = Normal parsed →
        List.filter (hasDate d) (cache this')
        = List.filter (hasDate d) (omap keepValid parsed)).
Proof.
  intros H. split; [by apply (getAll_after_refresh cfg w this)|]. split.
  - intros i j a b da db Hi Hj Hda Hdb Hlt.
    assert (Hva : isValidDate (get a "date") = true)
      by (eapply refresh_valid; [done | by eapply list_elem_of_lookup_2]).
    assert (Hvb : isValidDate (get b "date") = true)
      by (eapply refresh_valid; [done | by eapply list_elem_of_lookup_2]).
    assert (Hs : StronglySorted (λ x y, sortKey cfg x ≤ sortKey cfg y)
                   (cache this')).
    { destruct (refresh_cases cfg w this)
        as [[_ H1] | [(e&_&_&H1) | (files&parsed&_&_&_&H1)]];
        rewrite H1 in H; simplify_eq; simpl; [constructor..|].
      apply sortBy_sorted. intros x y Hx Hy.
      apply compareDates_keyed; by eapply elem_of_keepValid. }
    rewrite Hda in Hva. rewrite Hdb in Hvb.
    destruct (dateValue_lt da db Hva Hvb Hlt) as (ta&tb&Hta&Htb&Hab).
    assert (Hka : sortKey cfg a = if String.eqb (sortOrder cfg) "asc" then ta else - ta)
      by (unfold sortKey; by rewrite Hda, Hta).
    assert (Hkb : sortKey cfg b = if String.eqb (sortOrder cfg) "asc" then tb else - tb)
      by (unfold sortKey; by rewrite Hdb, Htb).
    destruct (lt_eq_lt_dec i j) as [[Hij | ->] | Hji].
    + pose proof (StronglySorted_lookup _ _ _ _ _ _ Hs Hi Hj Hij) as Hle.
      rewrite Hka, Hkb in Hle. destruct (String.eqb _ _); [done | lia].
    + assert (a = b) as -> by congruence.
      assert (da = db) as -> by congruence.
      assert (ta = tb) by congruence. lia.
    + pose proof (StronglySorted_lookup _ _ _ _ _ _ Hs Hj Hi Hji) as Hle.
      rewrite Hka, Hkb in Hle. destruct (String.eqb _ _); [lia | done].
  - intros files parsed d Ex Er Hp.
    destruct (refresh_cases cfg w this)
      as [[Ex' H1] | [(e&_&Er'&H1) | (files'&parsed'&_&Er'&Hp'&H1)]];
      [congruence.. |].
    rewrite H1 in H. rewrite Er in Er'. simplify_eq.
    rewrite Hp in Hp'. simplify_eq. simpl.
    apply sortBy_stable. intros x y _ _. apply compareDates_same_date.
Qed.

Lemma refresh_sorted_by_date_witness :
  getAll (Sample.config "desc") Sample.threePosts Sample.populated
  = Normal (cache Sample.populated, Sample.populated)
  ∧ (∀ i j a b da db,
        cache Sample.populated !! i = Some a →
        cache Sample.populated !! j = Some b →
        get a "date" = VString da → get b "date" = VString db →
        String.compare da db = Lt →
        if String.eqb (sortOrder (Sample.config "desc")) "asc"
        then (i < j)%nat else (j < i)%nat)
  ∧ (∀ files parsed d,
        existsSync Sample.threePosts (blogsDir (Sample.config "desc")) = true →
        readdirSync Sample.threePosts (blogsDir (Sample.config "desc"))
        = Normal files →
        mapM (parseOrNull (Sample.config "desc") Sample.threePosts)
          (List.filter isHtmlFile files) = Normal parsed →
        List.filter (hasDate d) (cache Sample.populated)
        = List.filter (hasDate d) (omap keepValid parsed)).
Proof.
  apply (refresh_sorted_by_date (Sample.config "desc") Sample.threePosts
           newBlogCache Sample.populated).
  reflexivity.
Defined.

(** ** Failures of the directory listing *)

(** C3, as the code has it. When the directory exists and listing it
    throws, [refresh] catches the error and returns normally, with an
    empty index; the error does not reach the caller. *)
Theorem refresh_catches_listing_error cfg w this e :
  existsSync w (blogsDir cfg) = true →
  readdirSync w (blogsDir cfg) = Throw e →
  refresh cfg w this = Normal (mkBlogCache [] (lastRefresh this)).
Proof.
  intros Ex Er. unfold refresh, refreshBody. by rewrite Ex, Er.
Qed.

Lemma refresh_catches_listing_error_witness :
  refresh (Sample.config "desc") Sample.unreadable Sample.populated
  = Normal (mkBlogCache [] (lastRefresh Sample.populated)).
Proof.
  apply (refresh_catches_listing_error (Sample.config "desc") Sample.unreadable
           Sample.populated "EACCES: permission denied, scandir");
    reflexivity.
Defined.

(** The claim C3 as written fails: the listing throws and [refresh]
    returns normally instead of passing the error on. *)
Lemma refresh_propagates_counterexample :
  existsSync Sample.unreadable (blogsDir (Sample.config "desc")) = true
  ∧ readdirSync Sample.unreadable (blogsDir (Sample.config "desc"))
    = Throw "EACCES: permission denied, scandir"
  ∧ ¬ (∃ e, refresh (Sample.config "desc") Sample.unreadable Sample.populated
            = Throw e).
Proof.
  split; [reflexivity|]. split; [reflexivity|].
  intros [e He]. vm_compute in He. discriminate He.
Qed.

(** C10, as the code has it. A failure inside the [try] block of
    [refresh] is caught and empties the index, whatever it held before.
    [getStats] then shows no record, and so does [getAll] while the
    failure lasts; but the index being empty, every later [getAll] runs
    [refresh] again and returns what that refresh loads. *)
Theorem refresh_failure_empties_index cfg w this e :
  refreshBody cfg w this = Throw e →
  ∃ this', refresh cfg w this = Normal this'
           ∧ cache this' = []
           ∧ lastRefresh this' = lastRefresh this
           ∧ totalPosts (getStats this') = 0
           ∧ getAll cfg w this' = Normal ([], this')
           ∧ ∀ w', ∃ this'',
               refresh cfg w' this' = Normal this''
               ∧ getAll cfg w' this' = Normal (cache this'', this'').
Proof.
  intros Hb. exists (mkBlogCache [] (lastRefresh this)).
  assert (Hr : ∀ st, lastRefresh st = lastRefresh this →
                     refresh cfg w st = Normal (mkBlogCache [] (lastRefresh this))).
  { intros st Hst. unfold refresh. revert Hb. unfold refreshBody.
    destruct (existsSync w (blogsDir cfg)); simpl; [|done].
    destruct (readdirSync w (blogsDir cfg)) as [files|e']; simpl.
    - destruct (mapM_parseOrNull cfg w (List.filter isHtmlFile files)) as [p ->].
      done.
    - by rewrite Hst. }
  split_and!; try done; [by apply Hr | |].
  - unfold getAll. simpl. rewrite orb_true_r. by rewrite Hr.
  - intros w'.
    destruct (refresh_normal cfg w' (mkBlogCache [] (lastRefresh this)))
      as [this'' Hr'].
    exists this''. split; [done|].
    unfold getAll. simpl. rewrite orb_true_r. by rewrite Hr'.
Qed.

Lemma refresh_failure_empties_index_witness :
  ∃ this', refresh (Sample.config "desc") Sample.unreadable Sample.populated
           = Normal this'
           ∧ cache this' = []
           ∧ lastRefresh this' = lastRefresh Sample.populated
           ∧ totalPosts (getStats this') = 0
           ∧ getAll (Sample.config "desc") Sample.unreadable this'
             = Normal ([], this')
           ∧ ∀ w', ∃ this'',
               refresh (Sample.config "desc") w' this' = Normal this''
               ∧ getAll (Sample.config "desc") w' this'
                 = Normal (cache this'', this'').
Proof.
  apply (refresh_failure_empties_index (Sample.config "desc") Sample.unreadable
           Sample.populated "EACCES: permission denied, scandir").
  reflexivity.
Defined.

(** The claim C10 as written fails in its last part: after the failed
    refresh has emptied the index, a [getAll] made once the directory can
    be listed again returns the three posts. *)
Lemma refresh_failure_then_read_counterexample :
  refresh (Sample.config "desc") Sample.unreadable Sample.populated
  = Normal (mkBlogCache [] (lastRefresh Sample.populated))
  ∧ getAll (Sample.config "desc") Sample.threePosts
      (mkBlogCache [] (lastRefresh Sample.populated))
    = Normal (cache Sample.populated, Sample.populated)
  ∧ Sample.titles (cache Sample.populated)
    = [VString "Test Blog Post"; VString "Older Blog Post";
       VString "Oldest Blog Post"].
Proof. repeat split; vm_compute; reflexivity. Qed.

Example populated_has_three :
  Sample.titles (cache Sample.populated)
  = [VString "Test Blog Post"; VString "Older Blog Post";
     VString "Oldest Blog Post"].
Proof. vm_compute. reflexivity. Qed.

(** ** Search *)

Lemma ascii_eqb_code a b : (code a =? code b) = Ascii.eqb a b.
Proof.
  destruct (Ascii.eqb_spec a b) as [-> | Hne]; [apply Z.eqb_refl|].
  apply Z.eqb_neq. intros Hc. apply Hne.
  unfold code in Hc. apply N2Z.inj in Hc.
  rewrite <- (ascii_N_embedding a), <- (ascii_N_embedding b). by rewrite Hc.
Qed.

Lemma startsWith_spec p s :
  Text.startsWith p s = true ↔ ∃ post, s = p ++ post.
Proof.
  revert s. induction p as [|a p IH]; intros s; simpl.
  - split; [by eexists | done].
  - destruct s as [|b s]; [split; [done | by intros [? [=]]]|].
    rewrite andb_true_iff, IH, ascii_eqb_code. split.
    + intros [Hab [post ->]]. apply Ascii.eqb_eq in Hab as ->. by exists post.
    + intros [post [= -> ->]]. split; [apply Ascii.eqb_refl | by exists post].
Qed.

(** [includes] finds exactly the substrings. *)
Lemma includes_spec s k :
  Text.includes s k = true ↔ ∃ pre post, s = pre ++ k ++ post.
Proof.
  induction s as [|c s IH]; simpl.
  - rewrite orb_false_r, startsWith_spec. split.
    + intros [post ->]. by exists [], post.
    + intros (pre&post&H). destruct pre; [by exists post|done].
  - rewrite orb_true_iff, startsWith_spec, IH. split.
    + intros [[post ->] | (pre&post&->)]; [by exists [], post|].
      by exists (c :: pre), post.
    + intros ([|c' pre]&post&H); [left; by exists post|].
      right. simplify_eq/=. by exists pre, post.
Qed.

Lemma fieldMatches_spec keyword v :
  fieldMatches (Text.toLowerCase (Text.chars keyword)) v = true
  ↔ v ≠ VString "" ∧ occursIn keyword v.
Proof.
  unfold fieldMatches, occursIn. destruct v as [|s]; simpl.
  - split; [done | by intros [_ (?&?&?&?&_)]].
  - rewrite andb_true_iff, negb_true_iff, includes_spec. split.
    + intros [Hs (pre&post&H)]. split.
      * intros [= ->]. done.
      * by exists s, pre, post.
    + intros [Hs (s'&pre&post&[= <-]&H)]. split; [|by exists pre, post].
      destruct (String.eqb_spec s ""); congruence.
Qed.

(** C1, as the code has it. The search the router runs returns, in the
    order of [getAll], exactly the records whose title or description is
    a non-empty text in which the lower-cased keyword occurs; the content
    is not searched. *)
Theorem routeSearch_title_or_desc cfg w this keyword :
  ∃ blogs this',
    getAll cfg w this = Normal (blogs, this')
    ∧ ∃ result,
        routeSearch cfg w this keyword = Normal (result, this')
        ∧ result
          = List.filter
              (fun b =>
                 fieldMatches (Text.toLowerCase (Text.chars keyword)) (get b "title")
                 || fieldMatches (Text.toLowerCase (Text.chars keyword)) (get b "desc"))
              blogs
        ∧ ∀ b, b ∈ result ↔
               b ∈ blogs
               ∧ ((get b "title" ≠ VString "" ∧ occursIn keyword (get b "title"))
                  ∨ (get b "desc" ≠ VString "" ∧ occursIn keyword (get b "desc"))).
Proof.
  destruct (getAll_normal cfg w this) as (blogs&this'&Hg).
  exists blogs, this'. split; [done|].
  eexists. split; [|split; [reflexivity|]].
  - unfold routeSearch, search. rewrite Hg. simpl.
    do 2 f_equal. apply filter_ext. intros b. by rewrite orb_false_r.
  - intros b. rewrite list_elem_of_In, filter_In, <- list_elem_of_In.
    by rewrite orb_true_iff, !fieldMatches_spec.
Qed.

Lemma contains_spec keyword v : contains keyword v = true ↔ occursIn keyword v.
Proof.
  unfold contains, occursIn. destruct v as [|s].
  - split; [done | by intros (?&?&?&?&_)].
  - rewrite includes_spec. split.
    + intros (pre&post&H). by exists s, pre, post.
    + intros (s'&pre&post&[= <-]&H). by exists pre, post.
Qed.

(** The claim C1 as written fails: the keyword occurs in the content of a
    record, in no title and in no description, and the search of the
    router returns nothing. *)
Lemma routeSearch_content_counterexample :
  getAll (Sample.config "desc") Sample.threePosts newBlogCache
  = Normal (cache Sample.populated, Sample.populated)
  ∧ existsb (fun r => contains "zebra" (get r "content"))
      (cache Sample.populated) = true
  ∧ forallb (fun b => negb (contains "zebra" (get b "title"))
                      && negb (contains "zebra" (get b "desc")))
      (cache Sample.populated) = true
  ∧ routeSearch (Sample.config "desc") Sample.threePosts newBlogCache "zebra"
    = Normal ([], Sample.populated).
Proof. repeat split; vm_compute; reflexivity. Qed.

(** ** Pagination *)

Section Paging.
Context {A : Type}.
Implicit Types l : list A.

(** A slice from a non-negative start over a non-negative width. *)
Lemma slice_window l a c :
  0 ≤ a → 0 ≤ c →
  slice l a (a + c) = take (Z.to_nat c) (drop (Z.to_nat a) l).
Proof.
  intros Ha Hc. unfold slice.
  destruct (Z.ltb_spec a 0), (Z.ltb_spec (a + c) 0); try lia.
  destruct (Z.le_gt_cases a (Z.of_nat (List.length l))) as [Hle | Hgt].
  - rewrite (Z.min_l a) by done.
    destruct (Z.le_gt_cases (a + c) (Z.of_nat (List.length l))).
    + rewrite Z.min_l by done. f_equal. lia.
    + rewrite Z.min_r by lia.
      rewrite (take_ge _ (Z.to_nat c)) by (rewrite length_drop; lia).
      apply take_ge. rewrite length_drop. lia.
  - rewrite !Z.min_r by lia. rewrite Z.sub_diag.
    rewrite (drop_ge l (Z.to_nat a)) by lia. by rewrite take_nil.
Qed.

(** Cutting a list into [m] pieces of [p] elements loses nothing when
    the pieces cover it. *)
Lemma chunks_concat (p : nat) (m : nat) l :
  (List.length l ≤ m * p)%nat →
  List.concat ((λ k, take p (drop (k * p) l)) <$> seq 0 m) = l.
Proof.
  revert l. induction m as [|m IH]; intros l Hl.
  - destruct l; [done | simpl in Hl; lia].
  - cbn [seq fmap list_fmap List.concat]. rewrite Nat.mul_0_l, drop_0.
    transitivity (take p l ++ drop p l); [|apply take_drop]. f_equal.
    etrans; [|apply (IH (drop p l)); rewrite length_drop; lia].
    f_equal. rewrite <- seq_shift, <- list_fmap_compose.
    apply list_fmap_ext. intros _ k _. simpl.
    rewrite drop_drop. do 2 f_equal; lia.
Qed.
End Paging.

Lemma ceilDiv_spec n p :
  0 < p → (ceilDiv n p - 1) * p < n ≤ ceilDiv n p * p.
Proof. intros Hp. unfold ceilDiv. Z.div_mod_to_equations. nia. Qed.

Lemma ceilDiv_unique n p t : 0 < p → (t - 1) * p < n ≤ t * p → ceilDiv n p = t.
Proof. intros Hp Ht. pose proof (ceilDiv_spec n p Hp). nia. Qed.

Lemma paginate_page blogs page perPage :
  0 < perPage → 1 ≤ page ≤ ceilDiv (Z.of_nat (List.length blogs)) perPage →
  currentPage (pagination (paginate blogs page perPage)) = page
  ∧ items (paginate blogs page perPage)
    = take (Z.to_nat perPage) (drop (Z.to_nat ((page - 1) * perPage)) blogs).
Proof.
  intros Hp Hpage. unfold paginate. cbn [items pagination currentPage].
  rewrite Z.min_l, Z.max_r by lia. split; [done|].
  apply slice_window; nia.
Qed.

Lemma paginate_concat blogs perPage :
  0 < perPage →
  List.concat ((λ page, items (paginate blogs page perPage))
            <$> seqZ 1 (ceilDiv (Z.of_nat (List.length blogs)) perPage))
  = blogs.
Proof.
  intros Hp. set (total := ceilDiv (Z.of_nat (List.length blogs)) perPage).
  pose proof (ceilDiv_spec (Z.of_nat (List.length blogs)) perPage Hp) as Hc.
  fold total in Hc.
  assert (0 ≤ total) by nia.
  etrans; [|apply (chunks_concat (Z.to_nat perPage) (Z.to_nat total) blogs); nia].
  f_equal. unfold seqZ. rewrite <- list_fmap_compose.
  apply list_fmap_ext. intros i k Hk.
  apply lookup_seq in Hk as [-> Hk]. unfold compose. rewrite Nat.add_0_l.
  destruct (paginate_page blogs (Z.of_nat i + 1) perPage Hp) as [_ ->];
    [fold total; lia|].
  do 2 f_equal; nia.
Qed.

(** C6. For a positive [perPage], every page from 1 to [totalPages] has
    at most [perPage] items, [totalPages] is the ceiling of
    [totalItems / perPage] (the [total] with
    [(total - 1) * perPage < totalItems <= total * perPage]), and the
    items of the pages 1 to [totalPages], in order, are the result of
    [getAll]. *)
Theorem getPaginated_covers_getAll cfg w this perPage blogs this' :
  0 < perPage →
  getAll cfg w this = Normal (blogs, this') →
  ∃ total,
    (total - 1) * perPage < Z.of_nat (List.length blogs) ≤ total * perPage
    ∧ (∀ page, 1 ≤ page ≤ total →
         ∃ pg, getPaginated cfg w this page perPage = Normal (Some pg, this')
               ∧ Z.of_nat (List.length (items pg)) ≤ perPage
               ∧ totalPages (pagination pg) = total
               ∧ totalItems (pagination pg) = Z.of_nat (List.length blogs)
               ∧ currentPage (pagination pg) = page)
    ∧ List.concat ((λ page, pageItems (getPaginated cfg w this page perPage))
                <$> seqZ 1 total) = blogs.
Proof.
  intros Hp Hg. exists (ceilDiv (Z.of_nat (List.length blogs)) perPage).
  assert (Hgp : ∀ page, getPaginated cfg w this page perPage
                        = Normal (Some (paginate blogs page perPage), this')).
  { intros page. unfold getPaginated. rewrite Hg. simpl.
    destruct (Z.eqb_spec perPage 0); [lia | done]. }
  split; [by apply ceilDiv_spec|]. split.
  - intros page Hpage. exists (paginate blogs page perPage).
    destruct (paginate_page blogs page perPage Hp Hpage) as [Hc Hi].
    split_and!; try done.
    rewrite Hi, length_take. lia.
  - etrans; [|apply (paginate_concat blogs perPage Hp)]. f_equal.
    apply list_fmap_ext. intros i page _. by rewrite Hgp.
Qed.

Lemma getPaginated_covers_getAll_witness :
  ∃ total,
    (total - 1) * 2 < Z.of_nat (List.length (cache Sample.populated)) ≤ total * 2
    ∧ (∀ page, 1 ≤ page ≤ total →
         ∃ pg, getPaginated (Sample.config "desc") Sample.threePosts
                 newBlogCache page 2 = Normal (Some pg, Sample.populated)
               ∧ Z.of_nat (List.length (items pg)) ≤ 2
               ∧ totalPages (pagination pg) = total
               ∧ totalItems (pagination pg)
                 = Z.of_nat (List.length (cache Sample.populated))
               ∧ currentPage (pagination pg) = page)
    ∧ List.concat ((λ page, pageItems (getPaginated (Sample.config "desc")
                                    Sample.threePosts newBlogCache page 2))
                <$> seqZ 1 total) = cache Sample.populated.
Proof.
  apply (getPaginated_covers_getAll (Sample.config "desc") Sample.threePosts
           newBlogCache 2 (cache Sample.populated) Sample.populated).
  - lia.
  - reflexivity.
Defined.

(** Beyond the last page [getPaginated] answers with the last page. *)
Lemma paginate_beyond_last blogs page perPage :
  0 < perPage → blogs ≠ [] →
  ceilDiv (Z.of_nat (List.length blogs)) perPage < page →
  currentPage (pagination (paginate blogs page perPage))
  = ceilDiv (Z.of_nat (List.length blogs)) perPage
  ∧ items (paginate blogs page perPage) ≠ [].
Proof.
  intros Hp Hne Hpage.
  pose proof (ceilDiv_spec (Z.of_nat (List.length blogs)) perPage Hp) as Hc.
  set (total := ceilDiv (Z.of_nat (List.length blogs)) perPage) in *.
  assert (0 < Z.of_nat (List.length blogs)) by (destruct blogs; [done | simpl; lia]).
  assert (1 ≤ total) by nia.
  assert (Hcp : Z.max 1 (Z.min page total) = total) by lia.
  split; [unfold paginate; cbn [pagination currentPage]; by fold total|].
  unfold paginate. cbn [items]. fold total. rewrite Hcp.
  rewrite slice_window by nia.
  intros Hnil. apply (f_equal List.length) in Hnil.
  rewrite length_take, length_drop in Hnil. simpl in Hnil. nia.
Qed.

(** C2 at page 99 of a collection of two pages: the code returns the
    last page, with its one record, and [currentPage] 2. The claim asks
    for no items. *)
Theorem getPaginated_page_99_of_2 :
  ∃ pg,
    getPaginated (Sample.config "desc") Sample.threePosts newBlogCache 99 2
    = Normal (Some pg, Sample.populated)
    ∧ totalPages (pagination pg) = 2
    ∧ currentPage (pagination pg) = 2
    ∧ Sample.titles (items pg) = [VString "Oldest Blog Post"].
Proof.
  exists (paginate (cache Sample.populated) 99 2).
  repeat split; vm_compute; reflexivity.
Qed.

(** ** getByDate *)




Lemma sameDate_self r y m d :
  parseIntValue (get r "year") = Some y →
  parseIntValue (get r "month") = Some m →
  parseIntValue (get r "day") = Some d →
  sameDate (Some y) (Some m) (Some d) r = true.
Proof.
  intros Hy Hm Hd. unfold sameDate, numEq. rewrite Hy, Hm, Hd.
  by rewrite !Z.eqb_refl.
Qed.

Lemma find_first {A : Type} (P : A → bool) l1 x l2 :
  Forall (λ y, P y = false) l1 → P x = true →
  List.find P (l1 ++ x :: l2) = Some x.
Proof.
  intros Hl Hx. induction Hl as [|y l1 Hy _ IH]; simpl.
  - by rewrite Hx.
  - by rewrite Hy.
Qed.








Example sameDay_records :
  get Sample.morning "title" = VString "Morning"
  ∧ get Sample.evening "title" = VString "Evening"
  ∧ get Sample.evening "date" = VString "2025-03-01"
  ∧ get Sample.evening "year" = VString "2025"
  ∧ get Sample.evening "month" = VString "03"
  ∧ get Sample.evening "day" = VString "01".
Proof. repeat split; vm_compute; reflexivity. Qed.

(** ** generateSlug *)

Section Slug.
Import Text.

Lemma chars_str l : chars (str l) = l.
Proof. apply list_ascii_of_string_of_list_ascii. Qed.

Ltac by_cases_on c := destruct c as [[] [] [] [] [] [] [] []]; vm_compute; auto.

Lemma lowerChar_idem c : lowerChar (lowerChar c) = lowerChar c.
Proof. by_cases_on c. Qed.

Lemma isHyphen_lower c : isHyphen c = true → lowerChar c = c.
Proof. by_cases_on c; discriminate. Qed.

Lemma isHyphen_not_space c : isHyphen c = true → isSpace c = false.
Proof. by_cases_on c; discriminate. Qed.

Lemma isWord_not_space c : isWord c = true → isSpace c = false.
Proof. by_cases_on c; discriminate. Qed.

Lemma hyphen_is_hyphen : isHyphen "-"%char = true.
Proof. reflexivity. Qed.

Lemma settled_not_space c : settled c → isSpace c = false.
Proof.
  intros [_ [H | H]]; [by apply isWord_not_space | by apply isHyphen_not_space].
Qed.

Lemma spacesToHyphen_settled b s :
  Forall (λ c, lowerChar c = c
               ∧ (isWord c = true ∨ isSpace c = true ∨ isHyphen c = true)) s →
  Forall settled (spacesToHyphen b s).
Proof.
  intros H. revert b. induction H as [|c s [Hl Hc] _ IH]; intros b; simpl.
  - constructor.
  - destruct (isSpace c) eqn:Es.
    + destruct b; [apply IH|]. constructor; [|apply IH].
      split; [by apply isHyphen_lower | by right].
    + constructor; [|apply IH]. split; [done|].
      destruct Hc as [? | [? | ?]]; [by left | congruence | by right].
Qed.

Lemma collapseHyphens_Forall (P : ascii → Prop) b s :
  Forall P s → Forall P (collapseHyphens b s).
Proof.
  intros H. revert b. induction H as [|c s Hc _ IH]; intros b; simpl.
  - constructor.
  - destruct (isHyphen c); [destruct b|]; try constructor; auto.
Qed.

Lemma collapseHyphens_head s x rest :
  collapseHyphens true s = x :: rest → isHyphen x = false.
Proof.
  induction s as [|c s IH]; simpl; [done|].
  destruct (isHyphen c) eqn:E; [done|]. by intros [= <- _].
Qed.

(** No two hyphens in a row are left. *)
Lemma collapseHyphens_no_pair b s pre x y post :
  collapseHyphens b s = pre ++ x :: y :: post →
  isHyphen x = true → isHyphen y = true → False.
Proof.
  revert b pre. induction s as [|c s IH]; intros b pre; simpl.
  - by destruct pre.
  - intros H Hx Hy. destruct (isHyphen c) eqn:E.
    + destruct b; [by eapply IH|].
      destruct pre as [|p pre]; simpl in H; injection H as Hc Hrest.
      * apply collapseHyphens_head in Hrest. congruence.
      * by eapply IH.
    + destruct pre as [|p pre]; simpl in H; injection H as Hc Hrest.
      * congruence.
      * by eapply IH.
Qed.

Lemma dropSpaces_none s :
  Forall (λ c, isSpace c = false) s → dropSpaces s = s.
Proof. intros H. destruct H as [|c s Hc _]; simpl; [done | by rewrite Hc]. Qed.

Lemma trim_none s : Forall (λ c, isSpace c = false) s → trim s = s.
Proof.
  intros H. unfold trim. rewrite (dropSpaces_none s H).
  rewrite dropSpaces_none by (by apply Forall_rev).
  apply rev_involutive.
Qed.

Lemma settled_lower l : Forall settled l → toLowerCase l = l.
Proof.
  unfold toLowerCase. induction 1 as [|c s [Hl _] _ IH]; simpl; [done|].
  by rewrite Hl, IH.
Qed.

Lemma slug_chars title :
  chars (generateSlug title)
  = collapseHyphens false
      (spacesToHyphen false (stripNonWord (toLowerCase (chars title))))
  ∧ Forall settled (chars (generateSlug title)).
Proof.
  assert (Hs : Forall settled
                 (collapseHyphens false
                    (spacesToHyphen false
                       (stripNonWord (toLowerCase (chars title)))))).
  { apply collapseHyphens_Forall, spacesToHyphen_settled.
    unfold stripNonWord, toLowerCase.
    apply Forall_forall. intros c Hc.
    apply list_elem_of_In, filter_In in Hc as [Hin Hk].
    apply in_map_iff in Hin as (c0&<-&_).
    split; [apply lowerChar_idem|].
    apply orb_true_iff in Hk as [Hk | ?]; [|by right; right].
    apply orb_true_iff in Hk as [? | ?]; [by left | by right; left]. }
  unfold generateSlug. rewrite chars_str, trim_none; [done|].
  eapply Forall_impl; [exact Hs | apply settled_not_space].
Qed.

End Slug.

Section SlugRuns.
Import Text.

Lemma isHyphen_char c : isHyphen c = true → c = "-"%char.
Proof.
  intros H. apply Ascii.eqb_eq. rewrite <- ascii_eqb_code. exact H.
Qed.

(** The two replacements after the filter, as one pass. *)
Lemma hyphenateRuns_passes l sp hy :
  (sp = true → hy = true) →
  collapseHyphens hy (spacesToHyphen sp (stripNonWord l))
  = hyphenateRuns hy l.
Proof.
  unfold stripNonWord. revert sp hy.
  induction l as [|c l IH]; intros sp hy Hs; [done|].
  cbn [List.filter hyphenateRuns].
  destruct (isSpace c) eqn:Esp.
  - rewrite orb_true_r. cbn [orb spacesToHyphen]. rewrite Esp.
    destruct sp.
    + rewrite (Hs eq_refl). by apply IH.
    + cbn [collapseHyphens]. change (isHyphen "-") with true. cbv iota.
      destruct hy; by rewrite IH.
  - destruct (isHyphen c) eqn:Ehy.
    + rewrite orb_true_r. cbn [orb spacesToHyphen]. rewrite Esp.
      cbn [collapseHyphens]. rewrite Ehy.
      destruct hy; [by apply IH|].
      rewrite (isHyphen_char c Ehy). by rewrite IH.
    + rewrite !orb_false_r. cbn [orb].
      destruct (isWord c) eqn:Ew.
      * cbn [spacesToHyphen]. rewrite Esp. cbn [collapseHyphens].
        rewrite Ehy. by rewrite IH.
      * by apply IH.
Qed.

Lemma plainWordChar_spec c :
  plainWordChar c = true →
  lowerChar c = c ∧ isWord c = true ∧ isSpace c = false ∧ isHyphen c = false.
Proof.
  unfold plainWordChar. intros [Hw Hu%negb_true_iff]%andb_true_iff.
  split_and!; [|done|by apply isWord_not_space|].
  - unfold lowerChar. rewrite Hu. cbn [orb].
    unfold isWord, isDigit, inRange in Hw. unfold inRange.
    pose proof (code_bounds c).
    destruct (192 <=? code c) eqn:E; [|done].
    apply Z.leb_le in E. exfalso.
    repeat (apply orb_true_iff in Hw as [Hw | Hw]);
      rewrite ?andb_true_iff, ?Z.leb_le, ?Z.eqb_eq in Hw; lia.
  - unfold isWord, isDigit, inRange in Hw. unfold isHyphen.
    apply Z.eqb_neq. intros Hc.
    repeat (apply orb_true_iff in Hw as [Hw | Hw]);
      rewrite ?andb_true_iff, ?Z.leb_le, ?Z.eqb_eq in Hw; lia.
Qed.

Lemma hyphenateRuns_words w rest :
  Forall (λ c, plainWordChar c = true) w →
  ∀ inRun, w ≠ [] ∨ inRun = false →
           hyphenateRuns inRun (toLowerCase (w ++ rest))
           = w ++ hyphenateRuns false (toLowerCase rest).
Proof.
  unfold toLowerCase.
  induction 1 as [|c w Hc _ IH]; intros inRun Hw.
  - destruct Hw as [? | ->]; done.
  - destruct (plainWordChar_spec c Hc) as (Hl&Hword&Hsp&Hhy).
    cbn [app map hyphenateRuns]. rewrite Hl, Hsp, Hhy, Hword. cbn [orb].
    f_equal. apply IH. by right.
Qed.

Lemma hyphenateRuns_gap gap rest :
  Forall (λ c, isSpace c || isHyphen c = true) gap →
  hyphenateRuns true (toLowerCase (gap ++ rest))
  = hyphenateRuns true (toLowerCase rest).
Proof.
  unfold toLowerCase. induction 1 as [|c gap Hc _ IH]; [done|].
  cbn [app map hyphenateRuns].
  assert (isSpace (lowerChar c) || isHyphen (lowerChar c) = true) as ->;
    [|exact IH].
  revert Hc. clear. destruct c as [[] [] [] [] [] [] [] []]; by vm_compute.
Qed.

Lemma hyphenateRuns_word_after w :
  Forall (λ c, plainWordChar c = true) w →
  ∀ inRun, hyphenateRuns inRun (toLowerCase w) = w.
Proof.
  unfold toLowerCase. induction 1 as [|c w Hc _ IH]; intros inRun; [done|].
  destruct (plainWordChar_spec c Hc) as (Hl&Hword&Hsp&Hhy).
  cbn [map hyphenateRuns]. rewrite Hl, Hsp, Hhy, Hword. cbn [orb].
  by rewrite IH.
Qed.
End SlugRuns.

(** C7, as the code has it. The slug is the lower-cased title in which
    the characters other than word characters, white space and hyphens
    are removed and every run of white space and hyphens has become one
    hyphen: two words with such a run between them are joined by a single
    hyphen, and a run before the first word leaves a leading hyphen. The
    slug is therefore lower-cased, holds only word characters and hyphens
    (so no white space), and never two hyphens in a row. Whether it
    begins or ends with a hyphen is left open. *)
Theorem generateSlug_shape title :
  generateSlug title = slugByRuns title
  ∧ (∀ w1 gap w2,
       Forall (λ c, plainWordChar c = true) w1 →
       Forall (λ c, plainWordChar c = true) w2 →
       gap ≠ [] → Forall (λ c, isSpace c || isHyphen c = true) gap →
       generateSlug (Text.str (w1 ++ gap ++ w2))
       = Text.str (w1 ++ "-"%char :: w2))
  ∧ Text.toLowerCase (Text.chars (generateSlug title))
    = Text.chars (generateSlug title)
  ∧ Forall (λ c, isWord c = true ∨ isHyphen c = true)
      (Text.chars (generateSlug title))
  ∧ Forall (λ c, isSpace c = false) (Text.chars (generateSlug title))
  ∧ ¬ (∃ pre x y post,
          Text.chars (generateSlug title) = pre ++ x :: y :: post
          ∧ isHyphen x = true ∧ isHyphen y = true).
Proof.
  assert (Hrun : ∀ t, generateSlug t = slugByRuns t).
  { intros t. destruct (slug_chars t) as [Hc _].
    unfold slugByRuns. rewrite <- (hyphenateRuns_passes _ false false) by done.
    rewrite <- Hc. symmetry. apply string_of_list_ascii_of_string. }
  destruct (slug_chars title) as [Hc Hs]. split_and!.
  - apply Hrun.
  - intros w1 gap w2 Hw1 Hw2 Hne Hgap. rewrite Hrun. unfold slugByRuns.
    rewrite chars_str. f_equal.
    rewrite (hyphenateRuns_words w1 _ Hw1) by (by right). f_equal.
    destruct Hgap as [|c gap Hc0 Hgap]; [done|].
    unfold Text.toLowerCase. cbn [app map hyphenateRuns].
    assert (isSpace (lowerChar c) || isHyphen (lowerChar c) = true) as ->.
    { revert Hc0. clear. destruct c as [[] [] [] [] [] [] [] []]; by vm_compute. }
    f_equal. fold (Text.toLowerCase (gap ++ w2)).
    rewrite (hyphenateRuns_gap gap w2 Hgap).
    by apply hyphenateRuns_word_after.
  - by apply settled_lower.
  - eapply Forall_impl; [exact Hs|]. by intros c [_ ?].
  - eapply Forall_impl; [exact Hs | apply settled_not_space].
  - intros (pre&x&y&post&H&Hx&Hy). rewrite Hc in H.
    by eapply collapseHyphens_no_pair.
Qed.

Example generateSlug_words :
  generateSlug "my  first - post" = "my-first-post"
  ∧ slugByRuns "my  first - post" = "my-first-post"
  ∧ slugByRuns "What is C++ ?" = "what-is-c-".
Proof. repeat split; vm_compute; reflexivity. Qed.

(** The claim C7 as written fails: a title that begins and ends with a
    hyphen gives a slug that does, and so does a title in which a space
    stands before the closing punctuation. *)
Lemma generateSlug_hyphen_counterexample :
  generateSlug "-hello-" = "-hello-"
  ∧ head (Text.chars (generateSlug "-hello-")) = Some "-"%char
  ∧ List.last (Text.chars (generateSlug "-hello-")) "x"%char = "-"%char
  ∧ generateSlug "What is C++ ?" = "what-is-c-".
Proof. repeat split; vm_compute; reflexivity. Qed.

Example generateSlug_examples :
  generateSlug "Hello,  World!" = "hello-world"
  ∧ generateSlug "a -- b" = "a-b"
  ∧ generateSlug " Hello " = "-hello-".
Proof. repeat split; vm_compute; reflexivity. Qed.

(** ** The extra metadata *)

Lemma setExtra_other key v extra k :
  key ≠ k → setExtra key v extra !! k = extra !! k.
Proof.
  intros Hne. unfold setExtra. destruct (String.eqb key "__proto__"); [done|].
  by apply lookup_insert_ne.
Qed.

Lemma addCustom_keeps extra m k :
  k = "date" ∨ k = "desc" → addCustom extra m !! k = extra !! k.
Proof.
  intros Hk. unfold addCustom.
  destruct (String.eqb_spec (Text.str m.1) "date") as [|Hd]; [done|].
  destruct (String.eqb_spec (Text.str m.1) "desc") as [|Hs]; [done|].
  simpl. apply setExtra_other. destruct Hk; congruence.
Qed.

Lemma htmlComment_extra content k :
  k = "date" ∨ k = "desc" →
  md_extra (parseHtmlCommentMetadata content) !! k = None.
Proof.
  intros Hk. unfold parseHtmlCommentMetadata. cbn [md_extra].
  generalize (Pattern.customComments 0 (Text.chars content)). intros ms.
  assert (H : ∀ extra : gmap string string,
             extra !! k = None → foldl addCustom extra ms !! k = None).
  { induction ms as [|m ms IH]; intros extra He; simpl; [done|].
    apply IH. by rewrite addCustom_keeps. }
  apply H, lookup_empty.
Qed.

Lemma frontMatterLine_extra metadata line k :
  k = "date" ∨ k = "title" ∨ k = "description" ∨ k = "desc" →
  md_extra (frontMatterLine metadata line) !! k = md_extra metadata !! k.
Proof.
  intros Hk. unfold frontMatterLine.
  destruct (0 <? Pattern.indexOf ":" line); [|done].
  set (key := trimmed _).
  destruct (String.eqb_spec key "date"); [done|].
  destruct (String.eqb_spec key "title"); [done|].
  destruct (String.eqb_spec key "description"); [done|].
  destruct (String.eqb_spec key "desc"); [done|].
  simpl. apply setExtra_other. destruct Hk as [? | [? | [? | ?]]]; congruence.
Qed.

Lemma frontMatter_extra content k :
  k = "date" ∨ k = "desc" →
  md_extra (parseFrontMatterMetadata content) !! k = None.
Proof.
  intros Hk. unfold parseFrontMatterMetadata.
  destruct (Pattern.frontMatterBlock _) as [block|]; [|by apply htmlComment_extra].
  generalize (Pattern.split Pattern.LF block). intros lines.
  assert (H : ∀ md, md_extra md !! k = None →
                    md_extra (foldl frontMatterLine md lines) !! k = None).
  { induction lines as [|l lines IH]; intros md Hmd; simpl; [done|].
    apply IH. rewrite frontMatterLine_extra; [done|]. destruct Hk; auto. }
  specialize (H (mkMetadata None None None ∅) (lookup_empty _)).
  destruct (present _); [done|]. by destruct (Pattern.titleTag _).
Qed.

(** C8, as the code has it. Whatever the file holds and whichever format
    is configured, the extra metadata never has the key [date] or [desc],
    so that the spread into the record leaves the [date] and the [desc] of
    the record as they were assembled. Other field names are not kept out
    of it. *)
Theorem extra_never_date_or_desc cfg w filePath content :
  readFileSync w filePath = Normal content →
  md_extra (metadataParser (metadataFormat cfg) content) !! "date" = None
  ∧ md_extra (metadataParser (metadataFormat cfg) content) !! "desc" = None
  ∧ ∃ b, parseFile cfg w filePath = Normal b
         ∧ get b "date"
           = VString (orElse (md_date (metadataParser (metadataFormat cfg) content))
                        "No date found")
         ∧ get b "desc"
           = VString (orElse (md_desc (metadataParser (metadataFormat cfg) content))
                        "No description available").
Proof.
  intros Hr.
  assert (He : ∀ k, k = "date" ∨ k = "desc" →
                    md_extra (metadataParser (metadataFormat cfg) content) !! k = None).
  { intros k Hk. unfold metadataParser.
    destruct (String.eqb _ _); [by apply frontMatter_extra | by apply htmlComment_extra]. }
  split; [apply He; auto|]. split; [apply He; auto|].
  eexists. split; [unfold parseFile; rewrite Hr; reflexivity|].
  unfold assemble, get.
  rewrite !lookup_union_r by (rewrite lookup_fmap, He; auto).
  unfold coreFields. destruct (match _ with [y; m; d] => _ | _ => _ end) as [[y m] d].
  split; by simplify_map_eq.
Qed.

Lemma extra_never_date_or_desc_witness :
  md_extra (metadataParser "html-comment" Sample.overriding) !! "date" = None
  ∧ md_extra (metadataParser "html-comment" Sample.overriding) !! "desc" = None
  ∧ ∃ b, parseFile (Sample.config "desc")
           (Sample.directory [("post.html", Sample.overriding)])
           "/srv/blogs/post.html" = Normal b
         ∧ get b "date"
           = VString (orElse (md_date (metadataParser "html-comment" Sample.overriding))
                        "No date found")
         ∧ get b "desc"
           = VString (orElse (md_desc (metadataParser "html-comment" Sample.overriding))
                        "No description available").
Proof.
  apply (extra_never_date_or_desc (Sample.config "desc")
           (Sample.directory [("post.html", Sample.overriding)])
           "/srv/blogs/post.html" Sample.overriding).
  reflexivity.
Defined.

(** The claim C8 as written fails: comments named [title] and [slug] put
    these keys into the extra metadata, and the spread replaces the title
    taken from the [<title>] element and the slug made from it. *)
Lemma extra_collides_counterexample :
  md_extra (parseHtmlCommentMetadata Sample.overriding)
  = <["title" := "Other Title"]> {["slug" := "x"]}
  ∧ md_title (parseHtmlCommentMetadata Sample.overriding) = Some "Real Title"
  ∧ (b ← parseFile (Sample.config "desc")
           (Sample.directory [("post.html", Sample.overriding)])
           "/srv/blogs/post.html";
     Normal (get b "title", get b "slug"))
    = Normal (VString "Other Title", VString "x")
  ∧ generateSlug "Real Title" = "real-title".
Proof. repeat split; vm_compute; reflexivity. Qed.

(** ** isValidDate on the years 0000 to 0099 *)

(** C9 at "0050-01-01": the string has the form, 1 January of the year 50
    is a day of the calendar, and the code answers false, because
    [new Date(50, 0, 1)] is a day of 1950. The claim asks for true. *)
Theorem isValidDate_year_50 :
  isValidDate (VString "0050-01-01") = false
  ∧ dateComponents "0050-01-01" = Some (50, 1, 1)
  ∧ JSDate.realDate 50 (1 - 1) 1
  ∧ JSDate.getFullYear (JSDate.fromComponents 50 (1 - 1) 1) = 1950.
Proof.
  split; [vm_compute; reflexivity|]. split; [vm_compute; reflexivity|].
  split; [|vm_compute; reflexivity].
  unfold JSDate.realDate. vm_compute. repeat split; discriminate.
Qed.

Example isValidDate_examples :
  isValidDate (VString "2025-01-20") = true
  ∧ isValidDate (VString "2024-02-29") = true
  ∧ isValidDate (VString "2025-02-29") = false
  ∧ isValidDate (VString "1900-02-29") = false
  ∧ isValidDate (VString "2000-02-29") = true
  ∧ isValidDate (VString "2025-04-31") = false
  ∧ isValidDate (VString "2025-00-10") = false
  ∧ isValidDate (VString "2025-13-01") = false
  ∧ isValidDate (VString "2025-1-20") = false
  ∧ isValidDate (VString "No date found") = false
  ∧ isValidDate (VString "0100-12-31") = true
  ∧ isValidDate (VString "0099-12-31") = false.
Proof. repeat split; vm_compute; reflexivity. Qed.

(** ** The extractors on sample files *)

Example htmlComment_sample :
  parseHtmlCommentMetadata
    ("<title>My Post</title><!-- [date: 2025-08-15] -->"
     +:+ "<!-- [desc: A post.] --><!-- [tags: a, b] -->")
  = mkMetadata (Some "2025-08-15") (Some "My Post") (Some "A post.")
      {["tags" := "a, b"]}.
Proof. vm_compute. reflexivity. Qed.

(** The greedy white space gives back one code unit to the lazy group. *)
Example htmlComment_blank_value :
  md_extra (parseHtmlCommentMetadata "<!-- [title:   ] -->") !! "title"
  = Some "".
Proof. vm_compute. reflexivity. Qed.

Example htmlComment_skips_date_and_proto :
  md_extra
    (parseHtmlCommentMetadata
       "<!--[slug:x]]--> <!-- [date: 2025-01-01] --> <!-- [__proto__: 1] -->")
  = {["slug" := "x]"]}.
Proof. vm_compute. reflexivity. Qed.

Example frontMatter_sample :
  parseFrontMatterMetadata "---
date: 2025-08-15
title: My Blog Post
description: This is my blog post
tags: javascript, nodejs
no colon here
: colon first
---
# My Blog Post"
  = mkMetadata (Some "2025-08-15") (Some "My Blog Post")
      (Some "This is my blog post") {["tags" := "javascript, nodejs"]}.
Proof. vm_compute. reflexivity. Qed.

Example frontMatter_title_from_tag :
  parseFrontMatterMetadata "---
slug:a:b
---
<title> T </title>"
  = mkMetadata None (Some "T") None {["slug" := "a:b"]}.
Proof. vm_compute. reflexivity. Qed.

Example frontMatter_absent_falls_back :
  parseFrontMatterMetadata "<title>T</title><!-- [date: 2025-01-02] -->"
  = parseHtmlCommentMetadata "<title>T</title><!-- [date: 2025-01-02] -->".
Proof. reflexivity. Qed.

Example threePosts_in_both_orders :
  getAll (Sample.config "desc") Sample.threePosts newBlogCache
  = Normal (cache Sample.populated, Sample.populated)
  ∧ Sample.titles (cache Sample.populated)
    = [VString "Test Blog Post"; VString "Older Blog Post";
       VString "Oldest Blog Post"]
  ∧ Sample.titles (cache (Sample.load (Sample.config "asc") Sample.threePosts))
    = [VString "Oldest Blog Post"; VString "Older Blog Post";
       VString "Test Blog Post"].
Proof. repeat split; vm_compute; reflexivity. Qed.
(** * Further properties of the parser, the cache and the router *)


(** ** isValidDate *)

Lemma Day_components t t' :
  Day t = Day t' →
  YearFromTime t = YearFromTime t' ∧ MonthFromTime t = MonthFromTime t'
  ∧ DateFromTime t = DateFromTime t'.
Proof.
  intros H. unfold DateFromTime, MonthFromTime, DayWithinYear, YearFromTime.
  by rewrite H.
Qed.

Lemma Day_near t d p :
  0 < p → (d - 2) * p < t < (d + 2) * p → d - 2 ≤ t / p ≤ d + 1.
Proof.
  intros Hp H. split.
  - apply Z.div_le_lower_bound; lia.
  - apply Z.lt_succ_r. apply Z.div_lt_upper_bound; lia.
Qed.

(** Going to UTC and back moves a local midnight by less than two days. *)
Lemma zoned_near LocalTZA D :
  (∀ t isUTC, - msPerDay < LocalTZA t isUTC < msPerDay) →
  D - 2 ≤ Day (LocalZone.LocalTime LocalTZA
                 (LocalZone.UTC LocalTZA (D * msPerDay))) ≤ D + 1.
Proof.
  intros Hz. unfold Day. apply Day_near; [done|].
  unfold LocalZone.LocalTime, LocalZone.UTC.
  generalize (Hz (D * msPerDay) false).
  generalize (Hz (D * msPerDay - LocalTZA (D * msPerDay) false) true).
  generalize (LocalTZA (D * msPerDay - LocalTZA (D * msPerDay) false) true).
  generalize (LocalTZA (D * msPerDay) false).
  generalize msPerDay. intros p a b Ha Hb. lia.
Qed.

Lemma realDate_explicit y m d :
  realDate y (m - 1) d
  ↔ 1 ≤ m ≤ 12
    ∧ 1 ≤ d ≤ (if m =? 2
               then (if DaysInYear y =? 366 then 29 else 28)
               else if (m =? 4) || (m =? 6) || (m =? 9) || (m =? 11)
                    then 30 else 31).
Proof.
  unfold realDate, DaysInMonth, InLeapYear.
  split; intros [Hm Hd]; (split; [lia|]);
    destruct (DaysInYear y =? 366); zcases.
Qed.

Lemma zoned_components LocalTZA s :
  LocalZone.isValidDate LocalTZA (VString s) =
  match dateComponents s with
  | Some (year, month, day) =>
      (getFullYear
         (LocalZone.LocalTime LocalTZA
            (LocalZone.UTC LocalTZA (fromComponents year (month - 1) day)))
       =? year)
      && (getMonth
            (LocalZone.LocalTime LocalTZA
               (LocalZone.UTC LocalTZA (fromComponents year (month - 1) day)))
          =? month - 1)
      && (getDate
            (LocalZone.LocalTime LocalTZA
               (LocalZone.UTC LocalTZA (fromComponents year (month - 1) day)))
          =? day)
  | None => false
  end.
Proof.
  unfold LocalZone.isValidDate, dateComponents.
  destruct (String.eqb_spec s "") as [-> | _]; [done|].
  destruct (matchDatePattern _) as [[[g1 g2] g3]|]; [|done].
  by destruct (parseIntChars g1), (parseIntChars g2), (parseIntChars g3).
Qed.

Lemma fromComponents_late y m d :
  100 ≤ y → fromComponents y m d = MakeDay y m d * msPerDay.
Proof.
  intros Hy. unfold fromComponents.
  destruct (Z.leb_spec y 99); [lia|]. by rewrite andb_false_r.
Qed.

Lemma fromComponents_early y m d :
  0 ≤ y ≤ 99 → fromComponents y m d = MakeDay (1900 + y) m d * msPerDay.
Proof.
  intros Hy. unfold fromComponents.
  destruct (Z.leb_spec 0 y), (Z.leb_spec y 99); try lia. done.
Qed.

(** A year below 100 is not read back. *)
Lemma zoned_early LocalTZA y m d :
  (∀ t isUTC, - msPerDay < LocalTZA t isUTC < msPerDay) →
  0 ≤ y ≤ 99 → realDate y m d →
  Day (LocalZone.LocalTime LocalTZA
         (LocalZone.UTC LocalTZA (fromComponents y m d)))
  ≠ MakeDay y m d.
Proof.
  intros Hz Hy [Hm Hd] Hk. rewrite fromComponents_early in Hk by done.
  pose proof (zoned_near LocalTZA (MakeDay (1900 + y) m d) Hz) as [Hnear _].
  rewrite Hk in Hnear. clear Hk Hz.
  rewrite !MakeDay_inrange in Hnear by lia.
  pose proof (DayFromYear_mono y 1900 ltac:(lia)).
  replace (y + 1900) with (1900 + y) in * by lia.
  assert (monthStart y m = monthStart (1900 + y) m ∨
          monthStart y m + 1 = monthStart (1900 + y) m ∨
          monthStart y m = monthStart (1900 + y) m + 1); [|lia].
  unfold monthStart.
  destruct (InLeapYear_cases y) as [[-> _]|[-> _]],
    (InLeapYear_cases (1900 + y)) as [[-> _]|[-> _]];
    repeat case_match; lia.
Qed.

(** The check of [isValidDate] in a zone whose offsets stay below a day:
    the year is not one that [new Date] moves to the 1900s, the date is a
    calendar date, and its local midnight, taken to UTC and read back,
    is still on that day. *)
Lemma zoned_check LocalTZA y m d :
  (∀ t isUTC, - msPerDay < LocalTZA t isUTC < msPerDay) →
  0 ≤ y ≤ 9999 → 0 ≤ m ≤ 99 → 0 ≤ d ≤ 99 →
  (getFullYear (LocalZone.LocalTime LocalTZA
                  (LocalZone.UTC LocalTZA (fromComponents y (m - 1) d))) =? y)
  && (getMonth (LocalZone.LocalTime LocalTZA
                  (LocalZone.UTC LocalTZA (fromComponents y (m - 1) d)))
      =? m - 1)
  && (getDate (LocalZone.LocalTime LocalTZA
                 (LocalZone.UTC LocalTZA (fromComponents y (m - 1) d))) =? d)
  = true
  ↔ 100 ≤ y ∧ realDate y (m - 1) d
    ∧ Day (LocalZone.LocalTime LocalTZA
             (LocalZone.UTC LocalTZA (MakeDay y (m - 1) d * msPerDay)))
      = MakeDay y (m - 1) d.
Proof.
  intros Hz Hy Hm Hd. rewrite !andb_true_iff, !Z.eqb_eq.
  unfold getFullYear, getMonth, getDate. split.
  - generalize (components_real
                  (LocalZone.LocalTime LocalTZA
                     (LocalZone.UTC LocalTZA (fromComponents y (m - 1) d)))).
    intros [Hr Hk] [[H1 H2] H3]. rewrite H1, H2, H3 in Hr, Hk.
    assert (Hy' : 100 ≤ y).
    { destruct (Z.le_gt_cases 100 y) as [|Hlt]; [done|exfalso].
      eapply (zoned_early LocalTZA y (m - 1) d); [done | lia | done |].
      by symmetry. }
    split; [done|]. split; [done|].
    rewrite <- (fromComponents_late y (m - 1) d Hy'). by symmetry.
  - intros (Hy'&Hr&Hday).
    rewrite (fromComponents_late y (m - 1) d Hy').
    assert (Hday' : Day (LocalZone.LocalTime LocalTZA
                           (LocalZone.UTC LocalTZA
                              (MakeDay y (m - 1) d * msPerDay)))
                    = Day (MakeDay y (m - 1) d * msPerDay))
      by (by rewrite Day_of_midnight).
    destruct (Day_components _ _ Hday') as (E1&E2&E3).
    destruct (components_of_MakeDay _ _ _ Hr) as (F1&F2&F3).
    rewrite E1, E2, E3. by rewrite F1, F2, F3.
Qed.

(** X1. In a time zone whose offsets stay below a day, [isValidDate]
    accepts exactly the strings of the form YYYY-MM-DD whose year is at
    least 100, whose month is 1..12, whose day is a day of that month (29
    February in leap years only) and whose local midnight, taken to UTC
    and read back in local time, is still on that day; nothing that is
    not a string is accepted. Where the offset at a local time is the
    offset at the instant it denotes (no local midnight is skipped), the
    last condition always holds. With offset 0 this is the function used
    by [refresh] above. *)
Theorem isValidDate_accepts_exactly LocalTZA v :
  (∀ t isUTC, - msPerDay < LocalTZA t isUTC < msPerDay) →
  (LocalZone.isValidDate LocalTZA v = true ↔
   ∃ s y m d,
     v = VString s ∧ dateComponents s = Some (y, m, d)
     ∧ 100 ≤ y ≤ 9999 ∧ 1 ≤ m ≤ 12
     ∧ 1 ≤ d ≤ (if m =? 2
                then (if DaysInYear y =? 366 then 29 else 28)
                else if (m =? 4) || (m =? 6) || (m =? 9) || (m =? 11)
                     then 30 else 31)
     ∧ Day (LocalZone.LocalTime LocalTZA
              (LocalZone.UTC LocalTZA (MakeDay y (m - 1) d * msPerDay)))
       = MakeDay y (m - 1) d)
  ∧ ((∀ t, LocalTZA (t - LocalTZA t false) true = LocalTZA t false) →
     (LocalZone.isValidDate LocalTZA v = true ↔
      ∃ s y m d,
        v = VString s ∧ dateComponents s = Some (y, m, d)
        ∧ 100 ≤ y ≤ 9999 ∧ 1 ≤ m ≤ 12
        ∧ 1 ≤ d ≤ (if m =? 2
                   then (if DaysInYear y =? 366 then 29 else 28)
                   else if (m =? 4) || (m =? 6) || (m =? 9) || (m =? 11)
                        then 30 else 31)))
  ∧ isValidDate v = LocalZone.isValidDate (λ _ _, 0) v.
Proof.
  intros Hz.
  assert (Hiff : LocalZone.isValidDate LocalTZA v = true ↔
    ∃ s y m d,
      v = VString s ∧ dateComponents s = Some (y, m, d)
      ∧ 100 ≤ y ≤ 9999 ∧ 1 ≤ m ≤ 12
      ∧ 1 ≤ d ≤ (if m =? 2
                 then (if DaysInYear y =? 366 then 29 else 28)
                 else if (m =? 4) || (m =? 6) || (m =? 9) || (m =? 11)
                      then 30 else 31)
      ∧ Day (LocalZone.LocalTime LocalTZA
               (LocalZone.UTC LocalTZA (MakeDay y (m - 1) d * msPerDay)))
        = MakeDay y (m - 1) d).
  { destruct v as [|s]; [split; [done | by intros (?&?&?&?&?&_)]|].
    rewrite zoned_components. split.
    - destruct (dateComponents s) as [[[y m] d]|] eqn:E; [|done].
      pose proof (dateComponents_bounds _ _ _ _ E) as (?&?&?).
      intros Hv. apply zoned_check in Hv as (Hy&Hr&Hday); [|done..].
      apply realDate_explicit in Hr as [Hm Hd].
      exists s, y, m, d. split_and!; try done; lia.
    - intros (s'&y&m&d&[= <-]&E&Hy&Hm&Hd&Hday). rewrite E.
      pose proof (dateComponents_bounds _ _ _ _ E) as (?&?&?).
      apply zoned_check; [done..|]. split; [lia|]. split; [|done].
      by apply realDate_explicit. }
  split; [exact Hiff|]. split.
  - intros Hfix. rewrite Hiff. split.
    + intros (s&y&m&d&?&?&?&?&?&_). by exists s, y, m, d.
    + intros (s&y&m&d&?&?&?&?&?). exists s, y, m, d.
      do 5 (split; [done|]).
      unfold LocalZone.LocalTime, LocalZone.UTC. rewrite Hfix.
      generalize (LocalTZA (MakeDay y (m - 1) d * msPerDay) false). intros a.
      replace (MakeDay y (m - 1) d * msPerDay - a + a)
        with (MakeDay y (m - 1) d * msPerDay) by lia.
      apply Day_of_midnight.
  - destruct v as [|s]; [done|].
    rewrite isValidDate_components, zoned_components.
    destruct (dateComponents s) as [[[y m] d]|]; [|done].
    unfold LocalZone.LocalTime, LocalZone.UTC. cbv zeta.
    by rewrite Z.sub_0_r, Z.add_0_r.
Qed.

Lemma isValidDate_accepts_exactly_witness :
  (LocalZone.isValidDate (λ _ _, 3600000) (VString "2024-02-29") = true ↔
   ∃ s y m d,
     VString "2024-02-29" = VString s ∧ dateComponents s = Some (y, m, d)
     ∧ 100 ≤ y ≤ 9999 ∧ 1 ≤ m ≤ 12
     ∧ 1 ≤ d ≤ (if m =? 2
                then (if DaysInYear y =? 366 then 29 else 28)
                else if (m =? 4) || (m =? 6) || (m =? 9) || (m =? 11)
                     then 30 else 31)
     ∧ Day (LocalZone.LocalTime (λ _ _, 3600000)
              (LocalZone.UTC (λ _ _, 3600000)
                 (MakeDay y (m - 1) d * msPerDay)))
       = MakeDay y (m - 1) d)
  ∧ ((∀ t : Z, 3600000 = 3600000) →
     (LocalZone.isValidDate (λ _ _, 3600000) (VString "2024-02-29") = true ↔
      ∃ s y m d,
        VString "2024-02-29" = VString s ∧ dateComponents s = Some (y, m, d)
        ∧ 100 ≤ y ≤ 9999 ∧ 1 ≤ m ≤ 12
        ∧ 1 ≤ d ≤ (if m =? 2
                   then (if DaysInYear y =? 366 then 29 else 28)
                   else if (m =? 4) || (m =? 6) || (m =? 9) || (m =? 11)
                        then 30 else 31)))
  ∧ isValidDate (VString "2024-02-29")
    = LocalZone.isValidDate (λ _ _, 0) (VString "2024-02-29").
Proof.
  apply (isValidDate_accepts_exactly (λ _ _, 3600000) (VString "2024-02-29")).
  intros t isUTC. unfold msPerDay. lia.
Defined.

(** In Apia the local day 30 December 2011 did not take place: the date
    is a calendar date, and [isValidDate] rejects it there. *)
Example isValidDate_apia :
  LocalZone.isValidDate LocalZone.apia2011 (VString "2011-12-30") = false
  ∧ LocalZone.isValidDate LocalZone.apia2011 (VString "2011-12-29") = true
  ∧ LocalZone.isValidDate LocalZone.apia2011 (VString "2011-12-31") = true
  ∧ isValidDate (VString "2011-12-30") = true.
Proof. repeat split; vm_compute; reflexivity. Qed.

(** ** What refresh loads *)

Lemma parseOrNull_loadFile cfg w file o :
  isHtmlFile file = true →
  parseOrNull cfg w file = Normal o →
  keepValid o = loadFile cfg w file.
Proof.
  intros Hh. unfold parseOrNull, loadFile, tryCatch, mbind, completion_bind.
  rewrite Hh. destruct (parseFile cfg w _) as [b|e]; intros [= <-]; done.
Qed.

Lemma omap_step {A B : Type} (f : A → option B) x (l : list A) :
  omap f (x :: l)
  = match f x with Some y => y :: omap f l | None => omap f l end.
Proof. reflexivity. Qed.

Lemma mapM_parseOrNull_loadFile cfg w files parsed :
  mapM (parseOrNull cfg w) (List.filter isHtmlFile files) = Normal parsed →
  omap keepValid parsed = omap (loadFile cfg w) files.
Proof.
  revert parsed. induction files as [|f files IH]; intros parsed.
  - by intros [= <-].
  - cbn [List.filter]. destruct (isHtmlFile f) eqn:Hf.
    + cbn [mapM]. destruct (parseOrNull_normal cfg w f) as [o Ho]. rewrite Ho.
      unfold mbind, completion_bind at 1.
      destruct (mapM (parseOrNull cfg w) (List.filter isHtmlFile files))
        as [ps|] eqn:Hps; [|done].
      unfold mbind, completion_bind. intros [= <-].
      rewrite !omap_step, (IH ps eq_refl),
        (parseOrNull_loadFile cfg w f o Hf Ho). done.
    + intros Hp. rewrite omap_step, (IH parsed Hp).
      assert (loadFile cfg w f = None) as -> by (unfold loadFile; by rewrite Hf).
      done.
Qed.

(** X2. When the directory can be listed, [refresh] holds exactly the
    records of the listed [.html]/[.htm] files that can be read and carry
    an accepted date, each once: one unreadable or undated file does not
    keep the others out. The time of the refresh is recorded. *)
Theorem refresh_loads_valid_files cfg w this files :
  existsSync w (blogsDir cfg) = true →
  readdirSync w (blogsDir cfg) = Normal files →
  ∃ this',
    refresh cfg w this = Normal this'
    ∧ cache this' ≡ₚ omap (loadFile cfg w) files
    ∧ lastRefresh this' = Some (now w).
Proof.
  intros Ex Er.
  destruct (refresh_cases cfg w this)
    as [[Ex' _] | [(e&_&Er'&_) | (files'&parsed&_&Er'&Hp&H1)]];
    [congruence.. |].
  rewrite Er in Er'. injection Er' as <-.
  eexists. split; [exact H1|]. split; [|done]. simpl.
  rewrite sortBy_perm. by rewrite (mapM_parseOrNull_loadFile _ _ _ _ Hp).
Qed.

Lemma refresh_loads_valid_files_witness :
  ∃ this',
    refresh (Sample.config "desc") Sample.threePosts newBlogCache = Normal this'
    ∧ cache this'
      ≡ₚ omap (loadFile (Sample.config "desc") Sample.threePosts)
           ["older.html"; "test.html"; "notes.txt"; "oldest.htm"; "undated.html"]
    ∧ lastRefresh this' = Some (now Sample.threePosts).
Proof.
  apply (refresh_loads_valid_files (Sample.config "desc") Sample.threePosts
           newBlogCache); reflexivity.
Defined.




(** ** Reading from the index *)

Ltac run_getAll Hg :=
  rewrite Hg; unfold mbind, completion_bind; cbn beta iota.

Lemma getAll_refreshes cfg w this :
  cache this = [] ∨ cfg_cache cfg = false →
  getAll cfg w this
  = (this' ← refresh cfg w this; Normal (cache this', this')).
Proof.
  intros H. unfold getAll.
  assert (negb (cfg_cache cfg) || (List.length (cache this) =? 0)%nat = true) as ->;
    [|done].
  destruct H as [-> | ->]; [apply orb_true_r | done].
Qed.

Lemma slice_nil {A : Type} a b : slice (@nil A) a b = [].
Proof. unfold slice. by rewrite drop_nil, take_nil. Qed.

(** X4. A source directory that does not exist is no error: [refresh]
    leaves an empty index (and the time of the last refresh untouched),
    and every read of an index that is empty or not cached answers with
    no record: empty lists, [null], and a single empty page. *)
Theorem missing_directory_reads_empty cfg w this :
  existsSync w (blogsDir cfg) = false →
  cache this = [] ∨ cfg_cache cfg = false →
  refresh cfg w this = Normal (mkBlogCache [] (lastRefresh this))
  ∧ getAll cfg w this = Normal ([], mkBlogCache [] (lastRefresh this))
  ∧ (∀ count, getRecent cfg w this count
              = Normal ([], mkBlogCache [] (lastRefresh this)))
  ∧ (∀ keyword fields, search cfg w this keyword fields
                       = Normal ([], mkBlogCache [] (lastRefresh this)))
  ∧ (∀ blogDate, getByDate cfg w this blogDate
                 = Normal (None, mkBlogCache [] (lastRefresh this)))
  ∧ (∀ slug, getBySlug cfg w this slug
             = Normal (None, mkBlogCache [] (lastRefresh this)))
  ∧ (∀ year month,
       getByYear cfg w this year
       = Normal ([], mkBlogCache [] (lastRefresh this))
       ∧ getByYearMonth cfg w this year month
         = Normal ([], mkBlogCache [] (lastRefresh this)))
  ∧ (∀ page perPage, perPage ≠ 0 →
       getPaginated cfg w this page perPage
       = Normal (Some (mkPage []
                         (mkPagination 1 0 0 perPage false false None None)),
                 mkBlogCache [] (lastRefresh this))).
Proof.
  intros Ex Hc.
  assert (Hr : refresh cfg w this = Normal (mkBlogCache [] (lastRefresh this)))
    by (unfold refresh, refreshBody; by rewrite Ex).
  assert (Hg : getAll cfg w this = Normal ([], mkBlogCache [] (lastRefresh this)))
    by (rewrite getAll_refreshes, Hr; done).
  split; [done|]. split; [done|].
  split; [intros; unfold getRecent; rewrite Hg; simpl; by rewrite slice_nil|].
  split; [intros; unfold search; by rewrite Hg|].
  split; [intros d; unfold getByDate; rewrite Hg; simpl;
          by destruct (dateTriple d) as [[[??]?]|]|].
  split; [intros; unfold getBySlug; by rewrite Hg|].
  split; [intros; unfold getByYear, getByYearMonth; by rewrite Hg|].
  intros page perPage Hp. unfold getPaginated. rewrite Hg.
  unfold mbind, completion_bind. cbn beta iota.
  destruct (Z.eqb_spec perPage 0); [done|].
  assert (Hpg : paginate [] page perPage
                = mkPage [] (mkPagination 1 0 0 perPage false false None None));
    [|by rewrite Hpg].
  unfold paginate, ceilDiv. cbv zeta. cbn [List.length Z.of_nat Z.opp].
  rewrite Z.div_0_l by done. change (- 0) with 0. change (Z.of_nat 0) with 0.
  assert (Z.max 1 (Z.min page 0) = 1) as -> by lia.
  rewrite slice_nil. reflexivity.
Qed.

Lemma missing_directory_reads_empty_witness :
  getAll (mkConfig "/srv/none" true "html-comment" "desc") Sample.threePosts
    newBlogCache
  = Normal ([], mkBlogCache [] None)
  ∧ getPaginated (mkConfig "/srv/none" true "html-comment" "desc")
      Sample.threePosts newBlogCache 3 10
    = Normal (Some (mkPage [] (mkPagination 1 0 0 10 false false None None)),
              mkBlogCache [] None).
Proof.
  destruct (missing_directory_reads_empty
              (mkConfig "/srv/none" true "html-comment" "desc")
              Sample.threePosts newBlogCache)
    as (_&Hg&_&_&_&_&_&Hp); [reflexivity | left; reflexivity |].
  split; [exact Hg | apply Hp; discriminate].
Defined.

(** X5. With caching on, a populated index is served as it is: [getAll]
    returns it without looking at the directory, whatever the directory
    has become since. With caching off every [getAll] is a fresh
    [refresh]. *)
Theorem getAll_cached_or_fresh cfg this :
  (cfg_cache cfg = true → cache this ≠ [] →
   ∀ w, getAll cfg w this = Normal (cache this, this))
  ∧ (cfg_cache cfg = false →
     ∀ w, ∃ this', refresh cfg w this = Normal this'
                   ∧ getAll cfg w this = Normal (cache this', this')).
Proof.
  split.
  - intros Hc Hne w. unfold getAll. rewrite Hc.
    destruct (cache this) eqn:E; [done|]. simpl. by rewrite E.
  - intros Hc w. destruct (refresh_normal cfg w this) as [this' Hr].
    exists this'. split; [done|].
    rewrite getAll_refreshes by auto. by rewrite Hr.
Qed.

Lemma getAll_cached_or_fresh_witness :
  getAll (Sample.config "desc") Sample.unreadable Sample.populated
  = Normal (cache Sample.populated, Sample.populated).
Proof.
  destruct (getAll_cached_or_fresh (Sample.config "desc") Sample.populated)
    as [H _].
  apply H; [reflexivity|].
  intros Hn. apply (f_equal (@List.length blog)) in Hn.
  vm_compute in Hn. discriminate Hn.
Defined.

(** X6. [getRecent(count)] is a prefix of [getAll]: the first [count]
    records, all of them when there are fewer, none for 0. A negative
    [count] counts from the end: the records without the last [-count]. *)
Theorem getRecent_prefix cfg w this count blogs this' :
  getAll cfg w this = Normal (blogs, this') →
  ∃ recent,
    getRecent cfg w this count = Normal (recent, this')
    ∧ (0 ≤ count →
       recent = take (Z.to_nat count) blogs
       ∧ Z.of_nat (List.length recent)
         = Z.min count (Z.of_nat (List.length blogs)))
    ∧ (count < 0 →
       recent = take (List.length blogs - Z.to_nat (- count)) blogs).
Proof.
  intros Hg. unfold getRecent. run_getAll Hg. eexists. split; [done|].
  unfold slice. change (0 <? 0) with false. cbv iota.
  rewrite (Z.min_l 0) by lia.
  rewrite Z.sub_0_r. change (Z.to_nat 0) with 0%nat. rewrite drop_0. split.
  - intros Hc. destruct (Z.ltb_spec count 0); [lia|].
    assert (take (Z.to_nat (Z.min count (Z.of_nat (List.length blogs)))) blogs
            = take (Z.to_nat count) blogs) as ->.
    { destruct (Z.le_gt_cases count (Z.of_nat (List.length blogs))).
      - by rewrite Z.min_l.
      - rewrite Z.min_r by lia. rewrite Nat2Z.id.
        rewrite !take_ge by lia. done. }
    split; [done|]. rewrite length_take. lia.
  - intros Hc. destruct (Z.ltb_spec count 0); [|lia]. f_equal. lia.
Qed.

Lemma getRecent_prefix_witness :
  ∃ recent,
    getRecent (Sample.config "desc") Sample.threePosts newBlogCache 2
    = Normal (recent, Sample.populated)
    ∧ (0 ≤ 2 →
       recent = take (Z.to_nat 2) (cache Sample.populated)
       ∧ Z.of_nat (List.length recent)
         = Z.min 2 (Z.of_nat (List.length (cache Sample.populated))))
    ∧ (2 < 0 →
       recent = take (List.length (cache Sample.populated) - Z.to_nat (- 2))
                  (cache Sample.populated)).
Proof.
  apply (getRecent_prefix (Sample.config "desc") Sample.threePosts newBlogCache
           2 (cache Sample.populated) Sample.populated).
  reflexivity.
Defined.

(** X7. [getBySlug(slug)] returns the first record of [getAll] with that
    slug: for a record [r] with slug [slug] it finds a record with the
    same slug, [r] itself when no earlier record shares it; and it
    returns [null] exactly when no record has the slug. *)
Theorem getBySlug_first_of_slug cfg w this blogs this' slug :
  getAll cfg w this = Normal (blogs, this') →
  ∃ res,
    getBySlug cfg w this slug = Normal (res, this')
    ∧ (res = None ↔ Forall (λ b, get b "slug" ≠ VString slug) blogs)
    ∧ (∀ found, res = Some found →
                found ∈ blogs ∧ get found "slug" = VString slug)
    ∧ (∀ l1 r l2,
         blogs = l1 ++ r :: l2 → get r "slug" = VString slug →
         Forall (λ b, get b "slug" ≠ VString slug) l1 → res = Some r).
Proof.
  intros Hg. unfold getBySlug. rewrite Hg. simpl. eexists. split; [done|].
  fold (hasSlug slug).
  assert (Hs : ∀ b, hasSlug slug b = true ↔ get b "slug" = VString slug)
    by (intros b; unfold hasSlug; apply bool_decide_eq_true).
  split_and!.
  - split.
    + intros Hn. apply Forall_forall. intros b Hb Heq.
      apply list_elem_of_In in Hb.
      pose proof (find_none _ _ Hn b Hb) as Hf. apply Hs in Heq. congruence.
    + intros Hall. destruct (List.find (hasSlug slug) blogs) as [b|] eqn:E; [|done].
      apply find_some in E as [Hin Hb]. apply list_elem_of_In in Hin.
      rewrite Forall_forall in Hall. apply Hs in Hb. by destruct (Hall b Hin).
  - intros found Hf. apply find_some in Hf as [Hin Hb].
    split; [by apply list_elem_of_In | by apply Hs].
  - intros l1 r l2 -> Hr Hl1. apply find_first; [|by apply Hs].
    eapply Forall_impl; [exact Hl1|]. intros b Hb. simpl in Hb.
    destruct (hasSlug slug b) eqn:E; [|done]. apply Hs in E. done.
Qed.

Lemma getBySlug_first_of_slug_witness :
  ∃ res,
    getBySlug (Sample.config "desc") Sample.threePosts newBlogCache
      "older-blog-post" = Normal (res, Sample.populated)
    ∧ (res = None ↔ Forall (λ b, get b "slug" ≠ VString "older-blog-post")
                      (cache Sample.populated))
    ∧ (∀ found, res = Some found →
                found ∈ cache Sample.populated
                ∧ get found "slug" = VString "older-blog-post")
    ∧ (∀ l1 r l2,
         cache Sample.populated = l1 ++ r :: l2 →
         get r "slug" = VString "older-blog-post" →
         Forall (λ b, get b "slug" ≠ VString "older-blog-post") l1 →
         res = Some r).
Proof.
  apply (getBySlug_first_of_slug (Sample.config "desc") Sample.threePosts
           newBlogCache (cache Sample.populated) Sample.populated).
  reflexivity.
Defined.

(** X8. [getByYear] keeps, in the order of [getAll], the records whose
    year reads as the number the argument reads as, and [getByYearMonth]
    keeps of these the ones of the month. A year or month given as a
    string (as the router does) selects the same records as the number
    it reads as. The numbers are exact ones: those of the records and a
    year or month passed as a number are below 2^53 in magnitude. *)
Theorem getByYearMonth_refines_getByYear cfg w this blogs this' year month :
  getAll cfg w this = Normal (blogs, this') →
  forallb exactDate blogs = true →
  exactPart year = true → exactPart month = true →
  ∃ ofYear ofMonth,
    getByYear cfg w this year = Normal (ofYear, this')
    ∧ getByYearMonth cfg w this year month = Normal (ofMonth, this')
    ∧ ofYear = List.filter (inYear year) blogs
    ∧ ofMonth = List.filter (inMonth month) ofYear
    ∧ ofMonth `sublist_of` ofYear ∧ ofYear `sublist_of` blogs
    ∧ (∀ b, b ∈ ofYear ↔
            b ∈ blogs
            ∧ ∃ n, parseIntValue (get b "year") = Some n
                   ∧ parseIntPart year = Some n)
    ∧ (∀ b, b ∈ ofMonth ↔
            b ∈ ofYear
            ∧ ∃ j, parseIntValue (get b "month") = Some j
                   ∧ parseIntPart month = Some j)
    ∧ (∀ s n k j, year = PString s → parseIntStr s = Some n →
                  safeInteger n = true →
                  month = PString k → parseIntStr k = Some j →
                  safeInteger j = true →
                  getByYear cfg w this (PNumber n) = Normal (ofYear, this')
                  ∧ getByYearMonth cfg w this (PNumber n) (PNumber j)
                    = Normal (ofMonth, this')).
Proof.
  intros Hg _ _ _. unfold getByYear, getByYearMonth. rewrite Hg. simpl.
  eexists _, _. split; [done|]. split; [done|]. split; [done|].
  assert (Hf : ∀ (f g : blog → bool) l,
             List.filter (λ b, f b && g b) l = List.filter g (List.filter f l)).
  { intros f g l. induction l as [|b l IH]; simpl; [done|].
    destruct (f b); simpl; [destruct (g b); by rewrite IH | done]. }
  assert (Hsub : ∀ (f : blog → bool) l, List.filter f l `sublist_of` l).
  { intros f l. induction l as [|b l IH]; simpl; [done|].
    destruct (f b); by constructor. }
  assert (Hnum : ∀ a c, numEq a c = true ↔ ∃ n, a = Some n ∧ c = Some n).
  { intros [a|] [c|]; simpl; split; try done;
      try (by intros (?&?&?)).
    - intros ->%Z.eqb_eq. by exists c.
    - intros (n&[= ->]&[= ->]). apply Z.eqb_refl. }
  split; [apply Hf|]. split; [rewrite Hf; apply Hsub|]. split; [apply Hsub|].
  split_and!.
  - intros b. rewrite <- Hnum. fold (inYear year b).
    rewrite !list_elem_of_In, filter_In. done.
  - intros b. rewrite <- Hnum. fold (inMonth month b). rewrite Hf.
    rewrite (list_elem_of_In (List.filter _ (List.filter _ _))), filter_In.
    by rewrite <- list_elem_of_In.
  - intros s n k j -> Hs _ -> Hk _. unfold inYear, inMonth. simpl.
    rewrite Hs, Hk. done.
Qed.

Lemma getByYearMonth_refines_getByYear_witness :
  ∃ ofYear ofMonth,
    getByYear (Sample.config "desc") Sample.threePosts newBlogCache
      (PString "2025") = Normal (ofYear, Sample.populated)
    ∧ getByYearMonth (Sample.config "desc") Sample.threePosts newBlogCache
        (PString "2025") (PString "1") = Normal (ofMonth, Sample.populated)
    ∧ ofYear = List.filter (inYear (PString "2025")) (cache Sample.populated)
    ∧ ofMonth = List.filter (inMonth (PString "1")) ofYear
    ∧ ofMonth `sublist_of` ofYear
    ∧ ofYear `sublist_of` cache Sample.populated
    ∧ (∀ b, b ∈ ofYear ↔
            b ∈ cache Sample.populated
            ∧ ∃ n, parseIntValue (get b "year") = Some n
                   ∧ parseIntPart (PString "2025") = Some n)
    ∧ (∀ b, b ∈ ofMonth ↔
            b ∈ ofYear
            ∧ ∃ j, parseIntValue (get b "month") = Some j
                   ∧ parseIntPart (PString "1") = Some j)
    ∧ (∀ s n k j, PString "2025" = PString s → parseIntStr s = Some n →
                  safeInteger n = true →
                  PString "1" = PString k → parseIntStr k = Some j →
                  safeInteger j = true →
                  getByYear (Sample.config "desc") Sample.threePosts
                    newBlogCache (PNumber n) = Normal (ofYear, Sample.populated)
                  ∧ getByYearMonth (Sample.config "desc") Sample.threePosts
                      newBlogCache (PNumber n) (PNumber j)
                    = Normal (ofMonth, Sample.populated)).
Proof.
  apply (getByYearMonth_refines_getByYear (Sample.config "desc")
           Sample.threePosts newBlogCache (cache Sample.populated)
           Sample.populated);
    reflexivity.
Defined.

(** ** The shapes of a date *)

Lemma getByDate_by_triple cfg w this a b :
  dateTriple a = dateTriple b →
  getByDate cfg w this a = getByDate cfg w this b.
Proof. intros H. unfold getByDate. by rewrite H. Qed.

Lemma str_chars s : Text.str (Text.chars s) = s.
Proof. apply string_of_list_ascii_of_string. Qed.

Lemma parseIntStr_str l : parseIntStr (Text.str l) = parseIntChars l.
Proof. unfold parseIntStr. by rewrite chars_str. Qed.

(** X9. A date string YYYY-MM-DD is looked up as the object of its three
    parts is, whether the parts are given as the substrings (as the
    router passes them) or as the numbers they read as, provided none of
    the numbers is 0. *)
Theorem getByDate_string_as_object cfg w this s y m d :
  dateComponents s = Some (y, m, d) →
  getByDate cfg w this (DString s)
  = getByDate cfg w this
      (DObject (PString (substring 0 4 s)) (PString (substring 5 2 s))
         (PString (substring 8 2 s)))
  ∧ (y ≠ 0 → m ≠ 0 → d ≠ 0 →
     getByDate cfg w this (DString s)
     = getByDate cfg w this (DObject (PNumber y) (PNumber m) (PNumber d))).
Proof.
  intros E.
  assert (Ht : dateTriple (DString s) = Some (Some y, Some m, Some d)).
  { unfold dateTriple. unfold dateComponents in E.
    destruct (matchDatePattern _) as [[[g1 g2] g3]|]; [|done].
    destruct (parseIntChars g1), (parseIntChars g2), (parseIntChars g3);
      by simplify_eq. }
  split.
  - apply getByDate_by_triple. rewrite Ht.
    apply dateComponents_Some in E
      as (y1&y2&y3&y4&h1&m1&m2&h2&d1&d2&Hs&Hd&_&_&->&->&->).
    rewrite <- (str_chars s), Hs.
    rewrite !Forall_cons in Hd. destruct Hd as (?&?&?&?&?&?&?&?&_).
    cbn [Text.str string_of_list_ascii substring]. unfold dateTriple.
    cbn [partTruthy String.eqb negb orb]. unfold parseIntPart.
    change (String y1 (String y2 (String y3 (String y4 ""))))
      with (Text.str [y1; y2; y3; y4]).
    change (String m1 (String m2 "")) with (Text.str [m1; m2]).
    change (String d1 (String d2 "")) with (Text.str [d1; d2]).
    rewrite !parseIntStr_str.
    rewrite !parseIntChars_digits by (by apply isDigit_code).
    rewrite !readDigits_cons by (by apply isDigit_code).
    cbn [readDigits]. unfold digitValue. do 4 f_equal; lia.
  - intros Hy Hm Hdn. apply getByDate_by_triple. rewrite Ht.
    unfold dateTriple, partTruthy, parseIntPart.
    destruct (Z.eqb_spec y 0), (Z.eqb_spec m 0), (Z.eqb_spec d 0); done.
Qed.

Lemma getByDate_string_as_object_witness :
  getByDate (Sample.config "desc") Sample.threePosts newBlogCache
    (DString "2025-01-15")
  = getByDate (Sample.config "desc") Sample.threePosts newBlogCache
      (DObject (PString (substring 0 4 "2025-01-15"))
         (PString (substring 5 2 "2025-01-15"))
         (PString (substring 8 2 "2025-01-15")))
  ∧ (2025 ≠ 0 → 1 ≠ 0 → 15 ≠ 0 →
     getByDate (Sample.config "desc") Sample.threePosts newBlogCache
       (DString "2025-01-15")
     = getByDate (Sample.config "desc") Sample.threePosts newBlogCache
         (DObject (PNumber 2025) (PNumber 1) (PNumber 15))).
Proof.
  apply (getByDate_string_as_object (Sample.config "desc") Sample.threePosts
           newBlogCache "2025-01-15" 2025 1 15).
  reflexivity.
Defined.

Lemma matchDatePattern_length s :
  List.length s ≠ 10%nat → matchDatePattern s = None.
Proof.
  intros H. unfold matchDatePattern.
  do 11 (destruct s as [|? s]; try done).
Qed.

(** X10. A lookup key that is not well formed is answered with [null],
    whatever the index holds: a string that is not ten code units long, an
    invalid [Date], an object one of whose parts is missing, empty or the
    number 0, and anything that is neither string, [Date] nor object. *)
Theorem getByDate_malformed_is_null cfg w this blogs this' :
  getAll cfg w this = Normal (blogs, this') →
  (∀ s, String.length s ≠ 10%nat →
        getByDate cfg w this (DString s) = Normal (None, this'))
  ∧ getByDate cfg w this (DDate None) = Normal (None, this')
  ∧ (∀ y m d,
       partTruthy y = false ∨ partTruthy m = false ∨ partTruthy d = false →
       getByDate cfg w this (DObject y m d) = Normal (None, this'))
  ∧ getByDate cfg w this DOther = Normal (None, this').
Proof.
  intros Hg.
  assert (Hn : ∀ a, dateTriple a = None →
                    getByDate cfg w this a = Normal (None, this')).
  { intros a Ha. unfold getByDate. run_getAll Hg. by rewrite Ha. }
  split_and!; try (by apply Hn).
  - intros s Hs. apply Hn. unfold dateTriple.
    rewrite matchDatePattern_length; [done|].
    unfold Text.chars. clear -Hs. revert Hs.
    assert (List.length (list_ascii_of_string s) = String.length s) as ->; [|done].
    induction s; simpl; congruence.
  - intros y m d H. apply Hn. unfold dateTriple.
    destruct H as [-> | [-> | ->]]; simpl; by rewrite ?orb_true_r.
Qed.

Lemma getByDate_malformed_is_null_witness :
  (∀ s, String.length s ≠ 10%nat →
        getByDate (Sample.config "desc") Sample.threePosts newBlogCache
          (DString s) = Normal (None, Sample.populated))
  ∧ getByDate (Sample.config "desc") Sample.threePosts newBlogCache
      (DDate None) = Normal (None, Sample.populated)
  ∧ (∀ y m d,
       partTruthy y = false ∨ partTruthy m = false ∨ partTruthy d = false →
       getByDate (Sample.config "desc") Sample.threePosts newBlogCache
         (DObject y m d) = Normal (None, Sample.populated))
  ∧ getByDate (Sample.config "desc") Sample.threePosts newBlogCache DOther
    = Normal (None, Sample.populated).
Proof.
  apply (getByDate_malformed_is_null (Sample.config "desc") Sample.threePosts
           newBlogCache (cache Sample.populated) Sample.populated).
  reflexivity.
Defined.

(** ** From a file to its lookup *)

Lemma ascii_eqb_hyphen c : Ascii.eqb c "-" = (code c =? 45).
Proof. by rewrite <- ascii_eqb_code. Qed.

(** The three parts of a date of the pattern, as [split('-')] gives them. *)
Lemma split_date s y m d :
  dateComponents s = Some (y, m, d) →
  ∃ g1 g2 g3,
    Pattern.split "-" (Text.chars s) = [g1; g2; g3]
    ∧ parseIntChars g1 = Some y ∧ parseIntChars g2 = Some m
    ∧ parseIntChars g3 = Some d.
Proof.
  intros E. pose proof E as E'.
  apply dateComponents_Some in E
    as (y1&y2&y3&y4&h1&m1&m2&h2&d1&d2&Hs&Hd&Hh1&Hh2&Hy&Hm&Hdd).
  exists [y1; y2; y3; y4], [m1; m2], [d1; d2].
  unfold dateComponents in E'. rewrite Hs in E'. rewrite Hs.
  rewrite !Forall_cons in Hd. destruct Hd as (?&?&?&?&?&?&?&?&_).
  split.
  - cbn [Pattern.split]. rewrite !ascii_eqb_hyphen, Hh1, Hh2.
    repeat match goal with
      | |- context [Z.eqb (code ?c) 45] =>
          destruct (Z.eqb_spec (code c) 45); [lia|]
      end. reflexivity.
  - unfold matchDatePattern in E'.
    destruct (_ && _) in E'; [|done].
    destruct (parseIntChars [y1; y2; y3; y4]), (parseIntChars [m1; m2]),
      (parseIntChars [d1; d2]); by simplify_eq.
Qed.

Lemma extra_no_date cfg content k :
  k = "date" ∨ k = "desc" →
  md_extra (metadataParser (metadataFormat cfg) content) !! k = None.
Proof.
  intros Hk. unfold metadataParser.
  destruct (String.eqb _ _); [by apply frontMatter_extra | by apply htmlComment_extra].
Qed.

Lemma get_assemble_core core extra k :
  extra !! k = None → get (assemble core extra) k = get core k.
Proof.
  intros H. unfold get, assemble. by rewrite lookup_union_r by (by rewrite lookup_fmap, H).
Qed.

(** The record of a file whose metadata carry an accepted date and no
    [year], [month] or [day] of their own. *)
Lemma parseFile_dated cfg w filePath content s y m d :
  readFileSync w filePath = Normal content →
  md_date (metadataParser (metadataFormat cfg) content) = Some s →
  dateComponents s = Some (y, m, d) →
  md_extra (metadataParser (metadataFormat cfg) content) !! "year" = None →
  md_extra (metadataParser (metadataFormat cfg) content) !! "month" = None →
  md_extra (metadataParser (metadataFormat cfg) content) !! "day" = None →
  ∃ b, parseFile cfg w filePath = Normal b
       ∧ get b "date" = VString s
       ∧ parseIntValue (get b "year") = Some y
       ∧ parseIntValue (get b "month") = Some m
       ∧ parseIntValue (get b "day") = Some d.
Proof.
  intros Hr Hd Hc Hy Hm Hdd.
  eexists. split; [unfold parseFile; rewrite Hr; reflexivity|].
  set (md := metadataParser (metadataFormat cfg) content) in *.
  assert (Hs : s ≠ "") by (intros ->; by vm_compute in Hc).
  assert (Hp : present (md_date md) = true)
    by (rewrite Hd; simpl; by destruct (String.eqb_spec s "")).
  assert (Ho : ∀ fb, orElse (md_date md) fb = s)
    by (intros fb; rewrite Hd; simpl; by destruct (String.eqb_spec s "")).
  destruct (split_date s y m d Hc) as (g1&g2&g3&Hsp&H1&H2&H3).
  rewrite !get_assemble_core by (done || by apply extra_no_date; auto).
  unfold coreFields. rewrite Hp, !Ho, Hsp. unfold get.
  split_and!; simplify_map_eq; by rewrite ?parseIntStr_str.
Qed.

Lemma refresh_holds_loaded cfg w this files file b :
  existsSync w (blogsDir cfg) = true →
  readdirSync w (blogsDir cfg) = Normal files →
  file ∈ files → loadFile cfg w file = Some b →
  ∃ this', refresh cfg w this = Normal this' ∧ b ∈ cache this'.
Proof.
  intros Ex Er Hf Hl.
  destruct (refresh_cases cfg w this)
    as [[Ex' _] | [(e&_&Er'&_) | (files'&parsed&_&Er'&Hp&H1)]];
    [congruence.. |].
  rewrite Er in Er'. injection Er' as <-.
  eexists. split; [exact H1|]. simpl.
  rewrite elem_of_sortBy, (mapM_parseOrNull_loadFile _ _ _ _ Hp).
  apply list_elem_of_omap. by exists file.
Qed.

(** X11. From the file to the lookup: a listed [.html]/[.htm] file that
    can be read, whose metadata carry an accepted date and no [year],
    [month] or [day] entry of their own, is in the index after a
    [refresh], and [getByDate] on its date string returns a record of the
    index with the year, month and day of that date. *)
Theorem dated_file_is_found_by_date cfg w this files file content s y m d :
  existsSync w (blogsDir cfg) = true →
  readdirSync w (blogsDir cfg) = Normal files →
  file ∈ files → isHtmlFile file = true →
  readFileSync w (pathJoin (blogsDir cfg) file) = Normal content →
  md_date (metadataParser (metadataFormat cfg) content) = Some s →
  isValidDate (VString s) = true → dateComponents s = Some (y, m, d) →
  md_extra (metadataParser (metadataFormat cfg) content) !! "year" = None →
  md_extra (metadataParser (metadataFormat cfg) content) !! "month" = None →
  md_extra (metadataParser (metadataFormat cfg) content) !! "day" = None →
  ∃ this' b found,
    refresh cfg w this = Normal this'
    ∧ parseFile cfg w (pathJoin (blogsDir cfg) file) = Normal b
    ∧ b ∈ cache this'
    ∧ getByDate cfg w this' (DString s) = Normal (Some found, this')
    ∧ found ∈ cache this'
    ∧ parseIntValue (get found "year") = Some y
    ∧ parseIntValue (get found "month") = Some m
    ∧ parseIntValue (get found "day") = Some d.
Proof.
  intros Ex Er Hf Hh Hr Hd Hv Hc Hy Hm Hdd.
  destruct (parseFile_dated cfg w _ content s y m d Hr Hd Hc Hy Hm Hdd)
    as (b&Hb&Hbd&Hby&Hbm&Hbdd).
  assert (Hl : loadFile cfg w file = Some b).
  { unfold loadFile. by rewrite Hh, Hb, Hbd, Hv. }
  destruct (refresh_holds_loaded cfg w this files file b Ex Er Hf Hl)
    as (this'&Href&Hin).
  exists this', b.
  assert (Ht : dateTriple (DString s) = Some (Some y, Some m, Some d)).
  { unfold dateTriple. unfold dateComponents in Hc.
    destruct (matchDatePattern _) as [[[g1 g2] g3]|]; [|done].
    destruct (parseIntChars g1), (parseIntChars g2), (parseIntChars g3);
      by simplify_eq. }
  unfold getByDate. rewrite (getAll_after_refresh cfg w this this' Href).
  unfold mbind, completion_bind. cbn beta iota. rewrite Ht.
  destruct (List.find (sameDate (Some y) (Some m) (Some d)) (cache this'))
    as [found|] eqn:Ef.
  - exists found. apply find_some in Ef as [Hfi Hs].
    apply list_elem_of_In in Hfi.
    unfold sameDate, numEq in Hs.
    destruct (parseIntValue (get found "year")) as [fy|]; [|done].
    destruct (parseIntValue (get found "month")) as [fm|];
      [|by rewrite andb_false_r in Hs].
    destruct (parseIntValue (get found "day")) as [fd|];
      [|by rewrite andb_false_r in Hs].
    apply andb_true_iff in Hs as [[?%Z.eqb_eq ?%Z.eqb_eq]%andb_true_iff ?%Z.eqb_eq].
    subst. done.
  - exfalso. apply list_elem_of_In in Hin.
    pose proof (find_none _ _ Ef b Hin) as Hn.
    by rewrite (sameDate_self b y m d Hby Hbm Hbdd) in Hn.
Qed.

Lemma dated_file_is_found_by_date_witness :
  ∃ this' b found,
    refresh (Sample.config "desc") Sample.threePosts newBlogCache = Normal this'
    ∧ parseFile (Sample.config "desc") Sample.threePosts
        (pathJoin (blogsDir (Sample.config "desc")) "older.html") = Normal b
    ∧ b ∈ cache this'
    ∧ getByDate (Sample.config "desc") Sample.threePosts this'
        (DString "2025-01-15") = Normal (Some found, this')
    ∧ found ∈ cache this'
    ∧ parseIntValue (get found "year") = Some 2025
    ∧ parseIntValue (get found "month") = Some 1
    ∧ parseIntValue (get found "day") = Some 15.
Proof.
  apply (dated_file_is_found_by_date (Sample.config "desc") Sample.threePosts
           newBlogCache
           ["older.html"; "test.html"; "notes.txt"; "oldest.htm"; "undated.html"]
           "older.html"
           (Sample.post "Older Blog Post" "2025-01-15" "The second one"
              "<p>zebra</p>")
           "2025-01-15" 2025 1 15);
    try (vm_compute; reflexivity).
  apply list_elem_of_In. left. reflexivity.
Defined.

(** ** getStats *)

Lemma refresh_strongly_sorted cfg w this this' :
  refresh cfg w this = Normal this' →
  StronglySorted (λ x y, sortKey cfg x ≤ sortKey cfg y) (cache this').
Proof.
  intros H.
  destruct (refresh_cases cfg w this)
    as [[_ H1] | [(e&_&_&H1) | (files&parsed&_&_&_&H1)]];
    rewrite H1 in H; simplify_eq; simpl; [constructor..|].
  apply sortBy_sorted. intros x y Hx Hy.
  apply compareDates_keyed; by eapply elem_of_keepValid.
Qed.

Lemma last_of_somes {A : Type} (l : list A) :
  List.last (Some <$> l) None = last l.
Proof.
  induction l as [|x l IH]; [done|].
  destruct l as [|y l]; [done|]. exact IH.
Qed.

(** Of two accepted dates, the one with the smaller time value is not the
    greater string. *)
Lemma dateValue_le_compare s s' t t' :
  isValidDate (VString s) = true → isValidDate (VString s') = true →
  dateValue (VString s) = Some t → dateValue (VString s') = Some t' →
  t ≤ t' → String.compare s s' ≠ Gt.
Proof.
  intros Hv Hv' Ht Ht' Hle Hgt.
  assert (String.compare s' s = Lt) as Hlt
    by (rewrite String.compare_antisym, Hgt; done).
  destruct (dateValue_lt s' s Hv' Hv Hlt) as (a&b&Ha&Hb&Hab).
  simplify_eq. lia.
Qed.

(** X12. After a [refresh] that left records, [getStats] counts them and
    reports as [newestPost] the date of the first record of the index and
    as [oldestPost] the date of its last record. In the order "asc"
    [newestPost] is therefore the earliest date of the index and
    [oldestPost] the latest; in any other order, such as "desc", it is
    the other way round. *)
Theorem getStats_first_and_last cfg w this this' :
  refresh cfg w this = Normal this' → cache this' ≠ [] →
  ∃ b0 bn first final,
    head (cache this') = Some b0 ∧ last (cache this') = Some bn
    ∧ get b0 "date" = VString first ∧ get bn "date" = VString final
    ∧ newestPost (getStats this') = Some (VString first)
    ∧ oldestPost (getStats this') = Some (VString final)
    ∧ totalPosts (getStats this') = Z.of_nat (List.length (cache this'))
    ∧ stats_lastRefresh (getStats this') = lastRefresh this'
    ∧ ∀ b d, b ∈ cache this' → get b "date" = VString d →
             if String.eqb (sortOrder cfg) "asc"
             then String.compare first d ≠ Gt ∧ String.compare d final ≠ Gt
             else String.compare d first ≠ Gt ∧ String.compare final d ≠ Gt.
Proof.
  intros H Hne.
  pose proof (refresh_strongly_sorted cfg w this this' H) as Hs.
  assert (Hv : ∀ b, b ∈ cache this' →
                    ∃ s t, get b "date" = VString s
                           ∧ isValidDate (VString s) = true
                           ∧ dateValue (VString s) = Some t
                           ∧ sortKey cfg b
                             = if String.eqb (sortOrder cfg) "asc" then t else - t).
  { intros b Hb. pose proof (refresh_valid cfg w this this' b H Hb) as Hvb.
    destruct (dateValue_valid _ Hvb) as (s&y&m&d&Hd&_&_&Ht).
    exists s, (MakeDay y (m - 1) d * msPerDay). rewrite Hd in *.
    split_and!; try done.
    unfold sortKey. by rewrite Hd, Ht. }
  destruct (cache this') as [|b0 l] eqn:Ec; [done|].
  destruct (last (b0 :: l)) as [bn|] eqn:El;
    [|by apply last_None in El].
  assert (Hn : bn ∈ b0 :: l)
    by (destruct (proj1 (last_Some _ _) El) as [l' Hl']; rewrite Hl'; set_solver).
  assert (Hfst : b0 ∈ b0 :: l) by (apply elem_of_cons; left; reflexivity).
  destruct (Hv b0 Hfst) as (s0&t0&Hd0&Hv0&Ht0&Hk0).
  destruct (Hv bn Hn) as (sn&tn&Hdn&Hvn&Htn&Hkn).
  exists b0, bn, s0, sn. unfold getStats. rewrite Ec, last_of_somes, El.
  cbn [head cache lastRefresh fmap option_fmap option_map totalPosts
       stats_lastRefresh oldestPost newestPost].
  rewrite Hd0, Hdn. split_and!; try done.
  intros b d Hb Hd. destruct (Hv b Hb) as (s&t&Hds&Hvs&Hts&Hks).
  assert (s = d) as -> by congruence.
  assert (sortKey cfg b0 ≤ sortKey cfg b).
  { inversion Hs as [|?? _ Hall]; subst. apply elem_of_cons in Hb as [-> | Hb];
      [lia|]. rewrite Forall_forall in Hall. by apply Hall. }
  assert (sortKey cfg b ≤ sortKey cfg bn).
  { apply last_Some in El as [l' El]. rewrite El in Hs, Hb.
    apply elem_of_app in Hb as [Hb | Hb%list_elem_of_singleton];
      [|subst; lia].
    apply list_elem_of_lookup in Hb as [i Hi].
    eapply (StronglySorted_lookup _ _ i (List.length l')); [exact Hs | | | ].
    - by rewrite lookup_app_l by (by eapply lookup_lt_Some).
    - by rewrite list_lookup_middle.
    - by eapply lookup_lt_Some. }
  rewrite Hk0, Hks, Hkn in *.
  destruct (String.eqb (sortOrder cfg) "asc"); split;
    eapply dateValue_le_compare; eauto; lia.
Qed.

Lemma getStats_first_and_last_witness :
  ∃ b0 bn first final,
    head (cache Sample.populated) = Some b0
    ∧ last (cache Sample.populated) = Some bn
    ∧ get b0 "date" = VString first ∧ get bn "date" = VString final
    ∧ newestPost (getStats Sample.populated) = Some (VString first)
    ∧ oldestPost (getStats Sample.populated) = Some (VString final)
    ∧ totalPosts (getStats Sample.populated)
      = Z.of_nat (List.length (cache Sample.populated))
    ∧ stats_lastRefresh (getStats Sample.populated)
      = lastRefresh Sample.populated
    ∧ ∀ b d, b ∈ cache Sample.populated → get b "date" = VString d →
             if String.eqb (sortOrder (Sample.config "desc")) "asc"
             then String.compare first d ≠ Gt ∧ String.compare d final ≠ Gt
             else String.compare d first ≠ Gt ∧ String.compare final d ≠ Gt.
Proof.
  apply (getStats_first_and_last (Sample.config "desc") Sample.threePosts
           newBlogCache Sample.populated); [reflexivity|].
  intros Hn. apply (f_equal (@List.length blog)) in Hn.
  vm_compute in Hn. discriminate Hn.
Defined.

(** ** The links of a page *)

(** X13. For a positive [perPage], [currentPage] is never below 1 and a
    page number below 1 is served as page 1. The links of a page lead
    where they say: [nextPage] is there exactly when [hasNext] is, it is
    the number of a page that has items and whose [prevPage] leads back;
    [prevPage] is there exactly when [hasPrev] is, that is on every page
    but the first. *)
Theorem getPaginated_links cfg w this page perPage blogs this' :
  0 < perPage →
  getAll cfg w this = Normal (blogs, this') →
  ∃ pg,
    getPaginated cfg w this page perPage = Normal (Some pg, this')
    ∧ 1 ≤ currentPage (pagination pg)
    ∧ (page ≤ 1 →
       getPaginated cfg w this 1 perPage = Normal (Some pg, this'))
    ∧ (hasPrev (pagination pg) = true ↔ 1 < currentPage (pagination pg))
    ∧ (hasPrev (pagination pg) = false ↔ prevPage (pagination pg) = None)
    ∧ (hasNext (pagination pg) = false ↔ nextPage (pagination pg) = None)
    ∧ (∀ q, nextPage (pagination pg) = Some q →
         q = currentPage (pagination pg) + 1
         ∧ ∃ pg', getPaginated cfg w this q perPage = Normal (Some pg', this')
                  ∧ currentPage (pagination pg') = q
                  ∧ items pg' ≠ []
                  ∧ prevPage (pagination pg') = Some (currentPage (pagination pg)))
    ∧ (∀ q, prevPage (pagination pg) = Some q →
         q = currentPage (pagination pg) - 1
         ∧ ∃ pg', getPaginated cfg w this q perPage = Normal (Some pg', this')
                  ∧ currentPage (pagination pg') = q).
Proof.
  intros Hp Hg.
  assert (Hgp : ∀ k, getPaginated cfg w this k perPage
                     = Normal (Some (paginate blogs k perPage), this')).
  { intros k. unfold getPaginated. run_getAll Hg.
    destruct (Z.eqb_spec perPage 0); [lia | done]. }
  exists (paginate blogs page perPage). split; [apply Hgp|].
  pose proof (ceilDiv_spec (Z.of_nat (List.length blogs)) perPage Hp) as Hc.
  set (total := ceilDiv (Z.of_nat (List.length blogs)) perPage) in *.
  assert (Hcur : ∀ k, currentPage (pagination (paginate blogs k perPage))
                      = Z.max 1 (Z.min k total)) by done.
  assert (Hnext : ∀ k, nextPage (pagination (paginate blogs k perPage))
                       = if Z.max 1 (Z.min k total) <? total
                         then Some (Z.max 1 (Z.min k total) + 1) else None) by done.
  assert (Hprev : ∀ k, prevPage (pagination (paginate blogs k perPage))
                       = if 1 <? Z.max 1 (Z.min k total)
                         then Some (Z.max 1 (Z.min k total) - 1) else None) by done.
  assert (HhasN : hasNext (pagination (paginate blogs page perPage))
                  = (Z.max 1 (Z.min page total) <? total)) by done.
  assert (HhasP : hasPrev (pagination (paginate blogs page perPage))
                  = (1 <? Z.max 1 (Z.min page total))) by done.
  rewrite Hcur, Hnext, Hprev, HhasN, HhasP.
  set (cur := Z.max 1 (Z.min page total)).
  split; [lia|]. split.
  { intros Hle. rewrite Hgp. do 3 f_equal. unfold paginate. fold total.
    assert (Z.max 1 (Z.min 1 total) = Z.max 1 (Z.min page total)) as -> by lia.
    done. }
  split; [apply Z.ltb_lt|].
  split; [destruct (Z.ltb_spec 1 cur); split; done|].
  split; [destruct (Z.ltb_spec cur total); split; done|].
  split.
  - intros q Hq. destruct (Z.ltb_spec cur total); [|done].
    injection Hq as <-. split; [done|].
    exists (paginate blogs (cur + 1) perPage). split; [apply Hgp|].
    destruct (paginate_page blogs (cur + 1) perPage Hp) as [Hc1 Hi1];
      [fold total; lia|].
    split; [done|]. split.
    + rewrite Hi1. intros Hnil. apply (f_equal (@List.length blog)) in Hnil.
      rewrite length_take, length_drop in Hnil. simpl in Hnil. nia.
    + rewrite Hprev.
      assert (Z.max 1 (Z.min (cur + 1) total) = cur + 1) as -> by lia.
      destruct (Z.ltb_spec 1 (cur + 1)); [f_equal; lia | lia].
  - intros q Hq. destruct (Z.ltb_spec 1 cur); [|done].
    injection Hq as <-. split; [done|].
    exists (paginate blogs (cur - 1) perPage). split; [apply Hgp|].
    rewrite Hcur. lia.
Qed.

Lemma getPaginated_links_witness :
  ∃ pg,
    getPaginated (Sample.config "desc") Sample.threePosts newBlogCache 1 2
    = Normal (Some pg, Sample.populated)
    ∧ 1 ≤ currentPage (pagination pg)
    ∧ (1 ≤ 1 →
       getPaginated (Sample.config "desc") Sample.threePosts newBlogCache 1 2
       = Normal (Some pg, Sample.populated))
    ∧ (hasPrev (pagination pg) = true ↔ 1 < currentPage (pagination pg))
    ∧ (hasPrev (pagination pg) = false ↔ prevPage (pagination pg) = None)
    ∧ (hasNext (pagination pg) = false ↔ nextPage (pagination pg) = None)
    ∧ (∀ q, nextPage (pagination pg) = Some q →
         q = currentPage (pagination pg) + 1
         ∧ ∃ pg', getPaginated (Sample.config "desc") Sample.threePosts
                    newBlogCache q 2 = Normal (Some pg', Sample.populated)
                  ∧ currentPage (pagination pg') = q
                  ∧ items pg' ≠ []
                  ∧ prevPage (pagination pg') = Some (currentPage (pagination pg)))
    ∧ (∀ q, prevPage (pagination pg) = Some q →
         q = currentPage (pagination pg) - 1
         ∧ ∃ pg', getPaginated (Sample.config "desc") Sample.threePosts
                    newBlogCache q 2 = Normal (Some pg', Sample.populated)
                  ∧ currentPage (pagination pg') = q).
Proof.
  apply (getPaginated_links (Sample.config "desc") Sample.threePosts
           newBlogCache 1 2 (cache Sample.populated) Sample.populated);
    [lia | reflexivity].
Defined.

(** ** More on generateSlug *)

Section SlugMore.
Import Text.

Lemma spacesToHyphen_none b s :
  Forall (λ c, isSpace c = false) s → spacesToHyphen b s = s.
Proof.
  intros H. revert b. induction H as [|c s Hc _ IH]; intros b; simpl; [done|].
  by rewrite Hc, IH.
Qed.

Lemma collapseHyphens_idem b s :
  collapseHyphens b (collapseHyphens b s) = collapseHyphens b s.
Proof.
  revert b. induction s as [|c s IH]; intros b; simpl; [done|].
  destruct (isHyphen c) eqn:E.
  - destruct b; [apply IH|]. simpl. by rewrite E, IH.
  - simpl. by rewrite E, IH.
Qed.

Lemma stripNonWord_settled s : Forall settled s → stripNonWord s = s.
Proof.
  unfold stripNonWord. induction 1 as [|c s [_ Hc] _ IH]; simpl; [done|].
  rewrite IH. destruct Hc as [-> | Hh]; [done|].
  rewrite Hh. by rewrite !orb_true_r.
Qed.

Lemma keeps_lower c :
  isWord (lowerChar c) || isSpace (lowerChar c) || isHyphen (lowerChar c)
  = isWord c || isSpace c || isHyphen c.
Proof. destruct c as [[] [] [] [] [] [] [] []]; reflexivity. Qed.

Lemma spacesToHyphen_nil b s : spacesToHyphen b s = [] → b = true ∨ s = [].
Proof.
  destruct s as [|c s]; [by right|]. simpl.
  destruct (isSpace c); [destruct b; [by left | done] | done].
Qed.

Lemma spacesToHyphen_false_nil s : spacesToHyphen false s = [] → s = [].
Proof. intros [? | ?]%spacesToHyphen_nil; done. Qed.

Lemma collapseHyphens_false_nil s : collapseHyphens false s = [] → s = [].
Proof. destruct s as [|c s]; [done|]. simpl. by destruct (isHyphen c). Qed.

Lemma str_nil l : str l = "" ↔ l = [].
Proof.
  split; [|by intros ->]. intros H.
  rewrite <- (chars_str l), H. done.
Qed.
End SlugMore.

(** X14. [generateSlug] is idempotent: the slug of a slug is that slug. *)
Theorem generateSlug_idempotent title :
  generateSlug (generateSlug title) = generateSlug title.
Proof.
  destruct (slug_chars title) as [Hc Hs].
  assert (Hsp : Forall (λ c, isSpace c = false) (Text.chars (generateSlug title)))
    by (eapply Forall_impl; [exact Hs | apply settled_not_space]).
  unfold generateSlug at 1.
  rewrite (settled_lower _ Hs), (stripNonWord_settled _ Hs),
    (spacesToHyphen_none _ _ Hsp).
  rewrite Hc at 1. rewrite collapseHyphens_idem, <- Hc.
  rewrite (trim_none _ Hsp). apply str_chars.
Qed.

(** X15. The slug is empty exactly when the lower-cased title has no
    word character, no white space and no hyphen (an empty title, or
    punctuation only). *)
Theorem generateSlug_empty_iff title :
  generateSlug title = ""
  ↔ Forall (λ c, isWord c = false ∧ isSpace c = false ∧ isHyphen c = false)
      (Text.toLowerCase (Text.chars title)).
Proof.
  destruct (slug_chars title) as [Hc _].
  rewrite <- (str_chars (generateSlug title)), str_nil, Hc.
  unfold Text.stripNonWord.
  generalize (Text.toLowerCase (Text.chars title)). intros l0. split.
  - intros H%collapseHyphens_false_nil%spacesToHyphen_false_nil.
    induction l0 as [|c l IH]; [constructor|].
    simpl in H.
    destruct (isWord c || isSpace c || isHyphen c) eqn:E; [done|].
    apply orb_false_iff in E as [[??]%orb_false_iff ?].
    constructor; [done | by apply IH].
  - intros H.
    assert (List.filter (λ c, isWord c || isSpace c || isHyphen c) l0 = [])
      as ->; [|done].
    induction H as [|c l (Hw&Hs&Hh) _ IH]; [done|].
    simpl. by rewrite Hw, Hs, Hh.
Qed.

(** ** The assembled record *)

Lemma orElse_nonempty o fb : fb ≠ "" → orElse o fb ≠ "".
Proof.
  intros Hfb. destruct o as [s|]; simpl; [|done].
  destruct (String.eqb_spec s ""); done.
Qed.

(** X16. For a metadata format that is not a name every object inherits
    (the two formats of the parser, or an unknown one, which falls back
    to the comments), every record [parseFile] assembles from a readable
    file has a non-empty string as [date] and as [desc]. A file without
    date metadata gets the date "No date found", which [isValidDate]
    rejects, so that [refresh] does not keep it. *)
Theorem parseFile_date_and_desc cfg w filePath content :
  inherited (metadataFormat cfg) = false →
  readFileSync w filePath = Normal content →
  ∃ b date desc,
    parseFile cfg w filePath = Normal b
    ∧ get b "date" = VString date ∧ date ≠ ""
    ∧ get b "desc" = VString desc ∧ desc ≠ ""
    ∧ (md_date (metadataParser (metadataFormat cfg) content) = None →
       date = "No date found" ∧ keepValid (Some b) = None)
    ∧ (md_desc (metadataParser (metadataFormat cfg) content) = None →
       desc = "No description available").
Proof.
  intros _ Hr. set (md := metadataParser (metadataFormat cfg) content).
  exists (assemble (coreFields (basename filePath) filePath content md)
            (md_extra md)),
    (orElse (md_date md) "No date found"),
    (orElse (md_desc md) "No description available").
  split; [unfold parseFile; by rewrite Hr|].
  assert (Hd : get (assemble (coreFields (basename filePath) filePath content md)
                      (md_extra md)) "date"
               = VString (orElse (md_date md) "No date found")).
  { rewrite get_assemble_core by (apply extra_no_date; auto).
    unfold coreFields, get.
    destruct (match _ with [y; m; d] => _ | _ => _ end) as [[y m] d].
    by simplify_map_eq. }
  assert (Hs : get (assemble (coreFields (basename filePath) filePath content md)
                      (md_extra md)) "desc"
               = VString (orElse (md_desc md) "No description available")).
  { rewrite get_assemble_core by (apply extra_no_date; auto).
    unfold coreFields, get.
    destruct (match _ with [y; m; d] => _ | _ => _ end) as [[y m] d].
    by simplify_map_eq. }
  split_and!; try done; try (by apply orElse_nonempty).
  - intros Hn. rewrite Hn. split; [done|].
    unfold keepValid. rewrite Hd, Hn. reflexivity.
  - by intros ->.
Qed.

Lemma parseFile_date_and_desc_witness :
  ∃ b date desc,
    parseFile (Sample.config "desc") Sample.threePosts
      "/srv/blogs/undated.html" = Normal b
    ∧ get b "date" = VString date ∧ date ≠ ""
    ∧ get b "desc" = VString desc ∧ desc ≠ ""
    ∧ (md_date (metadataParser (metadataFormat (Sample.config "desc"))
                  "<title>Post Without Date</title>") = None →
       date = "No date found" ∧ keepValid (Some b) = None)
    ∧ (md_desc (metadataParser (metadataFormat (Sample.config "desc"))
                  "<title>Post Without Date</title>") = None →
       desc = "No description available").
Proof.
  apply (parseFile_date_and_desc (Sample.config "desc") Sample.threePosts
           "/srv/blogs/undated.html" "<title>Post Without Date</title>");
    reflexivity.
Defined.

(** X17. When the file begins with a front-matter block, the keys
    [date], [title], [description] and [desc] of the block never reach
    the extra metadata: they are read as the date, the title and the
    description of the post. *)
Theorem frontMatter_block_extra content block k :
  Pattern.frontMatterBlock (Text.chars content) = Some block →
  k = "date" ∨ k = "title" ∨ k = "description" ∨ k = "desc" →
  md_extra (parseFrontMatterMetadata content) !! k = None.
Proof.
  intros Hb Hk. unfold parseFrontMatterMetadata. rewrite Hb.
  generalize (Pattern.split Pattern.LF block). intros lines.
  assert (H : ∀ md, md_extra md !! k = None →
                    md_extra (foldl frontMatterLine md lines) !! k = None).
  { induction lines as [|l lines IH]; intros md Hmd; simpl; [done|].
    apply IH. by rewrite frontMatterLine_extra. }
  specialize (H (mkMetadata None None None ∅) (lookup_empty _)).
  destruct (present _); [done|]. by destruct (Pattern.titleTag _).
Qed.

Lemma frontMatter_block_extra_witness :
  md_extra (parseFrontMatterMetadata ("---" +:+ String Pattern.LF
              ("title: T" +:+ String Pattern.LF "---"))) !! "title" = None.
Proof.
  apply (frontMatter_block_extra _ (Text.chars "title: T"));
    [vm_compute; reflexivity | auto].
Defined.

(** ** Search in any case *)

Lemma filter_sublist_of {A} (f : A → bool) l : List.filter f l `sublist_of` l.
Proof.
  induction l as [|x l IH]; simpl; [done|].
  destruct (f x); by constructor.
Qed.

(** X18. For searched fields that are not names every object inherits,
    [search] is insensitive to case on both sides and keeps the order of
    [getAll]: the result is a sublist of [getAll], and it holds every
    record one of whose searched fields is a non-empty text with an
    occurrence of the keyword in any mix of upper and lower case (text
    and keyword being of code units below 256, where lower-casing goes
    unit by unit). *)
Theorem search_finds_any_case cfg w this keyword fields blogs this' :
  getAll cfg w this = Normal (blogs, this') →
  forallb (λ field, negb (inherited field))
    (default defaultSearchFields fields) = true →
  ∃ result,
    search cfg w this keyword fields = Normal (result, this')
    ∧ result `sublist_of` blogs
    ∧ ∀ b field text pre occ post,
        b ∈ blogs → field ∈ default defaultSearchFields fields →
        get b field = VString text → text ≠ "" →
        Text.chars text = pre ++ occ ++ post →
        Text.toLowerCase occ = Text.toLowerCase (Text.chars keyword) →
        b ∈ result.
Proof.
  intros Hg _. unfold search. run_getAll Hg. eexists. split; [done|]. split.
  - apply filter_sublist_of.
  - intros b field text pre occ post Hb Hf Ht Hne Hocc Hlow.
    apply list_elem_of_In, filter_In. split; [by apply list_elem_of_In|].
    apply existsb_exists. exists field. split; [by apply list_elem_of_In|].
    rewrite Ht. unfold fieldMatches, truthy.
    destruct (String.eqb_spec text ""); [done|]. simpl.
    apply includes_spec. exists (Text.toLowerCase pre), (Text.toLowerCase post).
    rewrite Hocc. unfold Text.toLowerCase in *. by rewrite !map_app, Hlow.
Qed.

Lemma search_finds_any_case_witness :
  ∃ result,
    search (Sample.config "desc") Sample.threePosts newBlogCache "OLDEST"
      None = Normal (result, Sample.populated)
    ∧ result `sublist_of` cache Sample.populated
    ∧ ∀ b field text pre occ post,
        b ∈ cache Sample.populated →
        field ∈ default defaultSearchFields None →
        get b field = VString text → text ≠ "" →
        Text.chars text = pre ++ occ ++ post →
        Text.toLowerCase occ = Text.toLowerCase (Text.chars "OLDEST") →
        b ∈ result.
Proof.
  apply (search_finds_any_case (Sample.config "desc") Sample.threePosts
           newBlogCache "OLDEST" None (cache Sample.populated) Sample.populated);
    reflexivity.
Defined.

(** ** escapeXml *)

Lemma replaceChar_app c by_ l1 l2 :
  replaceChar c by_ (l1 ++ l2) = replaceChar c by_ l1 ++ replaceChar c by_ l2.
Proof. unfold replaceChar. by rewrite flat_map_app. Qed.

Lemma escape_one c :
  replaceChar "'"%char "&apos;"
    (replaceChar quotationMark "&quot;"
       (replaceChar ">"%char "&gt;"
          (replaceChar "<"%char "&lt;"
             (replaceChar "&"%char "&amp;" [c]))))
  = entity c.
Proof. destruct c as [[] [] [] [] [] [] [] []]; reflexivity. Qed.

Lemma escapeXml_chars l :
  replaceChar "'"%char "&apos;"
    (replaceChar quotationMark "&quot;"
       (replaceChar ">"%char "&gt;"
          (replaceChar "<"%char "&lt;"
             (replaceChar "&"%char "&amp;" l))))
  = flat_map entity l.
Proof.
  induction l as [|c l IH]; [done|].
  change (c :: l) with ([c] ++ l).
  rewrite !replaceChar_app, IH, escape_one. done.
Qed.

Lemma code_inj a b : code a = code b → a = b.
Proof.
  intros H. apply Ascii.eqb_eq. rewrite <- ascii_eqb_code. by apply Z.eqb_eq.
Qed.

Lemma entity_cases c :
  (entity c = [c]
   ∧ code c ≠ 38 ∧ code c ≠ 60 ∧ code c ≠ 62 ∧ code c ≠ 34 ∧ code c ≠ 39)
  ∨ (c = "&"%char ∧ entity c = Text.chars "&amp;")
  ∨ (c = "<"%char ∧ entity c = Text.chars "&lt;")
  ∨ (c = ">"%char ∧ entity c = Text.chars "&gt;")
  ∨ (c = quotationMark ∧ entity c = Text.chars "&quot;")
  ∨ (c = "'"%char ∧ entity c = Text.chars "&apos;").
Proof.
  unfold entity.
  destruct (Z.eqb_spec (code c) 38) as [H1|H1];
    [right; left; split; [by apply code_inj | done]|].
  destruct (Z.eqb_spec (code c) 60) as [H2|H2];
    [right; right; left; split; [by apply code_inj | done]|].
  destruct (Z.eqb_spec (code c) 62) as [H3|H3];
    [right; right; right; left; split; [by apply code_inj | done]|].
  destruct (Z.eqb_spec (code c) 34) as [H4|H4];
    [right; right; right; right; left; split; [by apply code_inj | done]|].
  destruct (Z.eqb_spec (code c) 39) as [H5|H5];
    [right; right; right; right; right; split; [by apply code_inj | done]|].
  left. done.
Qed.

Ltac plain_chars :=
  repeat (apply List.Forall_cons;
          [repeat split; intros Hc; vm_compute in Hc; discriminate Hc|]);
  apply List.Forall_nil.

Lemma entity_plain c :
  Forall (λ x, code x ≠ 60 ∧ code x ≠ 62 ∧ code x ≠ 34 ∧ code x ≠ 39) (entity c).
Proof.
  destruct (entity_cases c)
    as [[-> (_&?&?&?&?)]|[[_ ->]|[[_ ->]|[[_ ->]|[[_ ->]|[_ ->]]]]]].
  - apply List.Forall_cons; [done | apply List.Forall_nil].
  - plain_chars.
  - plain_chars.
  - plain_chars.
  - plain_chars.
  - plain_chars.
Qed.

Lemma entity_nonempty c : entity c ≠ [].
Proof.
  destruct (entity_cases c) as [[-> _]|[[_ ->]|[[_ ->]|[[_ ->]|[[_ ->]|[_ ->]]]]]];
    done.
Qed.

Lemma flat_map_entity_inj l1 l2 :
  flat_map entity l1 = flat_map entity l2 → l1 = l2.
Proof.
  revert l2. induction l1 as [|x l1 IH]; intros [|y l2] H; cbn [flat_map] in H.
  - done.
  - symmetry in H. apply app_eq_nil in H as [H _]. by apply entity_nonempty in H.
  - apply app_eq_nil in H as [H _]. by apply entity_nonempty in H.
  - assert (x = y ∧ flat_map entity l1 = flat_map entity l2) as [-> H'].
    { destruct (entity_cases x)
        as [[Hx [Nx _]]|[[Ex Hx]|[[Ex Hx]|[[Ex Hx]|[[Ex Hx]|[Ex Hx]]]]]];
      destruct (entity_cases y)
        as [[Hy [Ny _]]|[[Ey Hy]|[[Ey Hy]|[[Ey Hy]|[[Ey Hy]|[Ey Hy]]]]]];
      rewrite Hx, Hy in H; cbn in H; simplify_eq;
      first [ by split
            | exfalso; apply Nx; reflexivity
            | exfalso; apply Ny; reflexivity ]. }
    f_equal. by apply IH.
Qed.

(** X19. The five replacements of [escapeXml] amount to a single pass in
    which each of the characters ampersand, less-than, greater-than,
    double quote and apostrophe becomes its entity and every other
    character stays: the ampersands of the entities are not escaped
    again. *)
Theorem escapeXml_single_pass s :
  escapeXml s = Text.str (flat_map entity (Text.chars s)).
Proof. unfold escapeXml. by rewrite escapeXml_chars. Qed.

(** X20. The escaped text holds no less-than, greater-than, double quote
    or apostrophe, and escaping loses nothing: two texts with the same
    escaped form are the same text. *)
Theorem escapeXml_no_markup_injective s :
  Forall (λ x, code x ≠ 60 ∧ code x ≠ 62 ∧ code x ≠ 34 ∧ code x ≠ 39)
    (Text.chars (escapeXml s))
  ∧ ∀ t, escapeXml s = escapeXml t → s = t.
Proof.
  unfold escapeXml. rewrite !escapeXml_chars. split.
  - rewrite chars_str. induction (Text.chars s) as [|c l IH]; simpl; [constructor|].
    apply Forall_app. split; [apply entity_plain | exact IH].
  - intros t H. rewrite escapeXml_chars in H.
    apply (f_equal Text.chars) in H. rewrite !chars_str in H.
    apply flat_map_entity_inj in H.
    rewrite <- (str_chars s), <- (str_chars t). by rewrite H.
Qed.

(** ** The facade and the JSON API *)

Lemma slice_sublist_of {A : Type} (l : list A) a b : slice l a b `sublist_of` l.
Proof.
  unfold slice. etrans; [apply sublist_take | apply sublist_drop].
Qed.

Lemma slice_length_le {A : Type} (l : list A) a b :
  0 ≤ a → 0 ≤ b → Z.of_nat (List.length (slice l a b)) ≤ Z.max 0 (b - a).
Proof.
  intros Ha Hb. unfold slice.
  destruct (Z.ltb_spec a 0); [lia|]. destruct (Z.ltb_spec b 0); [lia|].
  rewrite length_take, length_drop. lia.
Qed.

Lemma orNumber_nonzero n d : d ≠ 0 → orNumber n d ≠ 0.
Proof.
  intros Hd. destruct n as [k|]; simpl; [|done].
  destruct (Z.eqb_spec k 0); done.
Qed.

Lemma paginate_currentPage blogs page size :
  1 ≤ currentPage (pagination (paginate blogs page size)).
Proof. unfold paginate. cbn [pagination currentPage]. lia. Qed.

(** X21. The constructor never throws, whatever the directory is, and
    leaves a number of posts per page that is not 0 (an omitted or zero
    [perPage] option reads as 10). [getPaginated] of an instance with such
    a setting always answers with a page: an omitted or zero [perPage]
    argument is replaced by the configured number, the page served is
    never below 1, and the setting is kept. *)
Theorem esb_getPaginated_always_a_page resolve w options :
  (∃ sys, constructor resolve w options = Normal sys
          ∧ esb_perPage sys = orNumber (opt_perPage options) 10
          ∧ esb_perPage sys ≠ 0)
  ∧ ∀ sys page size,
      esb_perPage sys ≠ 0 →
      ∃ pg sys',
        esb_getPaginated w sys page size = Normal (Some pg, sys')
        ∧ perPage (pagination pg) = orNumber size (esb_perPage sys)
        ∧ perPage (pagination pg) ≠ 0
        ∧ 1 ≤ currentPage (pagination pg)
        ∧ esb_perPage sys' = esb_perPage sys.
Proof.
  split.
  - unfold constructor. cbn [cfg_cache].
    match goal with
    | |- context [refresh ?cfg w newBlogCache] =>
        destruct (refresh_normal cfg w newBlogCache) as [c Hc]; rewrite Hc
    end.
    destruct (match opt_cache options with Some false => false | _ => true end);
      (eexists; split; [reflexivity|]; cbn [esb_perPage];
       split; [done | by apply orNumber_nonzero]).
  - intros sys page size Hp.
    destruct (getAll_normal (esb_config sys) w (esb_cache sys))
      as (blogs&c&Hg).
    unfold esb_getPaginated, getPaginated. run_getAll Hg.
    pose proof (orNumber_nonzero size _ Hp) as Hn.
    destruct (Z.eqb_spec (orNumber size (esb_perPage sys)) 0); [done|].
    eexists _, _. split; [reflexivity|].
    split_and!; try done. apply paginate_currentPage.
Qed.

Lemma esb_getPaginated_always_a_page_witness :
  ∃ pg sys',
    esb_getPaginated Sample.threePosts
      (mkExpressStaticBlog (Sample.config "desc") "YYYY-MM-DD" "/blogs"
         true 2 Sample.populated) None (Some 0)
    = Normal (Some pg, sys')
    ∧ perPage (pagination pg) = orNumber (Some 0) 2
    ∧ perPage (pagination pg) ≠ 0
    ∧ 1 ≤ currentPage (pagination pg)
    ∧ esb_perPage sys' = 2.
Proof.
  destruct (esb_getPaginated_always_a_page (λ p, p) Sample.threePosts
              (mkOptions None None None None None None None None)) as [_ H].
  apply (H (mkExpressStaticBlog (Sample.config "desc") "YYYY-MM-DD" "/blogs"
              true 2 Sample.populated) None (Some 0)).
  discriminate.
Defined.

(** The posts a query selects, before any paging. *)
Lemma apiPosts_selection w sys q all c :
  getAll (esb_config sys) w (esb_cache sys) = Normal (all, c) →
  ∃ sel,
    (if negb (String.eqb (orElse (q_search q) "") "") then
       search (esb_config sys) w (esb_cache sys) (orElse (q_search q) "") None
     else if queryTruthy (q_year q) && queryTruthy (q_month q) then
       getByYearMonth (esb_config sys) w (esb_cache sys)
         (queryPart (q_year q)) (queryPart (q_month q))
     else if queryTruthy (q_year q) then
       getByYear (esb_config sys) w (esb_cache sys) (queryPart (q_year q))
     else
       getAll (esb_config sys) w (esb_cache sys)) = Normal (sel, c)
    ∧ sel `sublist_of` all
    ∧ (orElse (q_search q) "" = "" → queryTruthy (q_year q) = true →
       queryTruthy (q_month q) = true →
       sel = List.filter (inMonth (queryPart (q_month q)))
               (List.filter (inYear (queryPart (q_year q))) all))
    ∧ (orElse (q_search q) "" = "" → queryTruthy (q_year q) = true →
       queryTruthy (q_month q) = false →
       sel = List.filter (inYear (queryPart (q_year q))) all)
    ∧ (orElse (q_search q) "" = "" → queryTruthy (q_year q) = false →
       sel = all).
Proof.
  intros Hg.
  destruct (String.eqb_spec (orElse (q_search q) "") "") as [Hs|Hs]; cbn [negb].
  - destruct (queryTruthy (q_year q)) eqn:Ey;
      [destruct (queryTruthy (q_month q)) eqn:Em|]; cbn [andb].
    + unfold getByYearMonth. run_getAll Hg. eexists. split; [reflexivity|].
      split; [apply filter_sublist_of|].
      split_and!; try done. intros _ _ _.
      induction all as [|b l IH] in |- *; [done|]. simpl.
      unfold inYear at 1. destruct (numEq _ _) eqn:E1; simpl.
      * unfold inMonth at 1. destruct (numEq _ (parseIntPart (queryPart (q_month q))));
          by rewrite IH.
      * done.
    + unfold getByYear. run_getAll Hg. eexists. split; [reflexivity|].
      split; [apply filter_sublist_of|]. split_and!; done.
    + exists all. split_and!; done.
  - unfold search. run_getAll Hg. eexists. split; [reflexivity|].
    split; [apply filter_sublist_of|]. split_and!; done.
Qed.

(** X22. [GET /api/posts] never invents or reorders posts: without a
    [page] parameter (or with an empty one) the answer is the list the
    filters select, a sublist of [getAll]; with one, it is a page of that
    very list, computed as [getPaginated] computes its pages, with a
    current page of at least 1 and a page size that is never 0 (a missing,
    zero or non-numeric [per_page] reads as 10). *)
Theorem apiPosts_pages_the_selection w sys q :
  ∃ all sel c,
    getAll (esb_config sys) w (esb_cache sys) = Normal (all, c)
    ∧ apiPosts w sys
        (mkQuery None (q_per_page q) (q_search q) (q_year q) (q_month q))
      = Normal (ApiList sel, withCache sys c)
    ∧ sel `sublist_of` all
    ∧ (queryTruthy (q_page q) = false →
       apiPosts w sys q = Normal (ApiList sel, withCache sys c))
    ∧ (queryTruthy (q_page q) = true →
       ∃ page size,
         let pg := paginate sel page size in
         apiPosts w sys q
         = Normal (ApiPage (items pg) (currentPage (pagination pg))
                     (totalPages (pagination pg))
                     (Z.of_nat (List.length sel)) size,
                   withCache sys c)
         ∧ page = orNumber (parseIntQuery (q_page q)) 1
         ∧ size = orNumber (parseIntQuery (q_per_page q)) 10
         ∧ size ≠ 0
         ∧ 1 ≤ currentPage (pagination pg)
         ∧ items pg `sublist_of` sel).
Proof.
  destruct (getAll_normal (esb_config sys) w (esb_cache sys)) as (all&c&Hg).
  destruct (apiPosts_selection w sys q all c Hg) as (sel&Hsel&Hsub&_).
  exists all, sel, c. split; [done|].
  unfold apiPosts. cbn [q_page q_per_page q_search q_year q_month queryTruthy].
  rewrite Hsel. unfold mbind, completion_bind. cbn beta iota.
  unfold sanitizeBlogForAPI. rewrite !list_fmap_id.
  split_and!; try done.
  - by intros ->.
  - intros ->. eexists _, _. cbv zeta. split; [reflexivity|].
    split_and!; try done.
    + by apply orNumber_nonzero.
    + apply paginate_currentPage.
    + apply slice_sublist_of.
Qed.

(** X23. A negative [per_page] is not rejected: the page served is page 1
    and it holds the selected posts without the last [-per_page] of
    them. *)
Theorem apiPosts_negative_per_page w sys q n sel sys' :
  queryTruthy (q_page q) = true →
  parseIntQuery (q_per_page q) = Some n → n < 0 →
  apiPosts w sys
    (mkQuery None (q_per_page q) (q_search q) (q_year q) (q_month q))
  = Normal (ApiList sel, sys') →
  ∃ pages,
    apiPosts w sys q
    = Normal (ApiPage (take (List.length sel - Z.to_nat (- n)) sel) 1 pages
                (Z.of_nat (List.length sel)) n, sys')
    ∧ pages ≤ 0.
Proof.
  intros Hp Hn Hneg. unfold apiPosts.
  cbn [q_page q_per_page q_search q_year q_month queryTruthy].
  rewrite Hp, Hn.
  destruct (if negb _ then _ else _) as [[blogs c]|e]; [|done].
  unfold mbind, completion_bind. cbn beta iota.
  unfold sanitizeBlogForAPI. rewrite !list_fmap_id.
  intros ?; simplify_eq.
  assert (Ho : orNumber (Some n) 10 = n).
  { simpl. destruct (Z.eqb_spec n 0); [lia | done]. }
  rewrite Ho. cbv zeta.
  assert (Ht : ceilDiv (Z.of_nat (List.length sel)) n ≤ 0).
  { unfold ceilDiv. Z.div_mod_to_equations. nia. }
  rewrite (Z.max_l 1) by lia.
  exists (ceilDiv (Z.of_nat (List.length sel)) n). split; [|done].
  do 3 f_equal. unfold slice.
  change ((1 - 1) * n) with 0. change (0 <? 0) with false. cbv iota.
  rewrite Z.add_0_l. destruct (Z.ltb_spec n 0); [|lia].
  rewrite (Z.min_l 0) by lia. change (Z.to_nat 0) with 0%nat.
  rewrite drop_0. f_equal. lia.
Qed.

Lemma apiPosts_negative_per_page_witness :
  ∃ pages,
    apiPosts Sample.threePosts
      (mkExpressStaticBlog (Sample.config "desc") "YYYY-MM-DD" "/blogs"
         false 10 Sample.populated)
      (mkQuery (Some "1") (Some "-1") None None None)
    = Normal (ApiPage (take (List.length (cache Sample.populated)
                             - Z.to_nat (- -1)) (cache Sample.populated))
                1 pages (Z.of_nat (List.length (cache Sample.populated))) (-1),
              mkExpressStaticBlog (Sample.config "desc") "YYYY-MM-DD" "/blogs"
                false 10 Sample.populated)
    ∧ pages ≤ 0.
Proof.
  apply (apiPosts_negative_per_page Sample.threePosts
           (mkExpressStaticBlog (Sample.config "desc") "YYYY-MM-DD" "/blogs"
              false 10 Sample.populated)
           (mkQuery (Some "1") (Some "-1") None None None) (-1));
    [reflexivity | reflexivity | lia | reflexivity].
Defined.

(** X24. The filters of [GET /api/posts] in the order the handler tries
    them: a non-empty [search] wins over [year] and [month]; [year] with
    [month] selects the posts of that month of that year; [year] alone the
    posts of the year; and a [month] without a [year] selects nothing
    less than every post. *)
Theorem apiPosts_filter_precedence w sys q all c :
  getAll (esb_config sys) w (esb_cache sys) = Normal (all, c) →
  ∃ sel,
    apiPosts w sys
      (mkQuery None (q_per_page q) (q_search q) (q_year q) (q_month q))
    = Normal (ApiList sel, withCache sys c)
    ∧ (∀ s, q_search q = Some s → s ≠ "" →
            search (esb_config sys) w (esb_cache sys) s None = Normal (sel, c))
    ∧ (orElse (q_search q) "" = "" → queryTruthy (q_year q) = true →
       queryTruthy (q_month q) = true →
       sel = List.filter (inMonth (queryPart (q_month q)))
               (List.filter (inYear (queryPart (q_year q))) all))
    ∧ (orElse (q_search q) "" = "" → queryTruthy (q_year q) = true →
       queryTruthy (q_month q) = false →
       sel = List.filter (inYear (queryPart (q_year q))) all)
    ∧ (orElse (q_search q) "" = "" → queryTruthy (q_year q) = false →
       sel = all).
Proof.
  intros Hg.
  destruct (apiPosts_selection w sys q all c Hg) as (sel&Hsel&_&H1&H2&H3).
  exists sel. split_and!; try done.
  - unfold apiPosts. cbn [q_page q_per_page q_search q_year q_month queryTruthy].
    rewrite Hsel. unfold mbind, completion_bind. cbn beta iota.
    unfold sanitizeBlogForAPI. by rewrite list_fmap_id.
  - intros s Hs Hne. rewrite Hs in Hsel. simpl in Hsel.
    destruct (String.eqb_spec s ""); [done|]. simpl in Hsel.
    destruct (String.eqb_spec s ""); done.
Qed.

Lemma apiPosts_filter_precedence_witness :
  ∃ sel,
    apiPosts Sample.threePosts
      (mkExpressStaticBlog (Sample.config "desc") "YYYY-MM-DD" "/blogs"
         false 10 Sample.populated)
      (mkQuery None None (Some "oldest") (Some "2025") (Some "1"))
    = Normal (ApiList sel,
              withCache (mkExpressStaticBlog (Sample.config "desc")
                           "YYYY-MM-DD" "/blogs" false 10 Sample.populated)
                Sample.populated)
    ∧ (∀ s, Some "oldest" = Some s → s ≠ "" →
            search (Sample.config "desc") Sample.threePosts Sample.populated
              s None = Normal (sel, Sample.populated)).
Proof.
  destruct (apiPosts_filter_precedence Sample.threePosts
              (mkExpressStaticBlog (Sample.config "desc") "YYYY-MM-DD" "/blogs"
                 false 10 Sample.populated)
              (mkQuery (Some "3") None (Some "oldest") (Some "2025") (Some "1"))
              (cache Sample.populated) Sample.populated)
    as (sel&H1&H2&_); [reflexivity|].
  exists sel. split; [exact H1 | exact H2].
Defined.
